(** * SWE-bench-Live baseline helpers: a shallow embedding and its properties

    The development follows the four scripts under [baseline/]:

    - [sf_make_judge_f2p_folder_from_organize_jsonl.py]: the judged dual-run
      evaluator ([_join_cmds], [_load_jsonl], [_write_text], [_run_one] and
      its inner [run_variant]);
    - [sbl_step3_prepare_launch_dataset.py]: [infer_language_from_diff_text],
      [load_jsonl] and the merge of one instance in [main];
    - [sbl_count_f2p_from_validated_instances.py]: [_iter_jsonl],
      [_coerce_list_str], [_parse_row] and the report of [main];
    - [sbl_prepare_pull2issue_from_issue_pr_map.py]: [_shell_join], and the
      grouping and the files of [main].

    The batch driver of the evaluator, which runs [_run_one] on a thread
    pool, is not modelled.

    Python values are modelled by the type [pyval] of JSON values, Python
    [str] by [string] (characters are code points below 256), effects by a
    state-and-exception monad over a world made of the container runtime, the
    file system and a trace of the calls made to the runtime. *)

From Stdlib Require Import ZArith String Ascii List Bool Lia QArith.
From stdpp Require Import gmap strings list sorting pretty.

Set Warnings "-register-all".

Local Open Scope string_scope.
Local Open Scope list_scope.
Local Open Scope Z_scope.
Local Open Scope nat_scope.

(** ** Python strings *)

Module PyStr.

(** [str.isspace] on one character, for code points below 256:
    TAB..CR, FS..US, SPACE, NEL and NBSP. *)
Definition isspace (c : ascii) : bool :=
  let n := nat_of_ascii c in
  ((9 <=? n) && (n <=? 13)) || ((28 <=? n) && (n <=? 32))
  || (n =? 133) || (n =? 160).

(** [s.lstrip()] *)
Fixpoint lstrip (s : string) : string :=
  match s with
  | EmptyString => EmptyString
  | String c s' => if isspace c then lstrip s' else s
  end.

(** [s.rstrip()] *)
Fixpoint rstrip (s : string) : string :=
  match s with
  | EmptyString => EmptyString
  | String c s' =>
      match rstrip s' with
      | EmptyString => if isspace c then EmptyString else String c EmptyString
      | r => String c r
      end
  end.

(** [s.strip()] *)
Definition strip (s : string) : string := lstrip (rstrip s).

(** [s.lstrip(ch)], [s.rstrip(ch)] and [s.strip(ch)] for a one-character
    argument. *)
Fixpoint lstrip_char (ch : ascii) (s : string) : string :=
  match s with
  | EmptyString => EmptyString
  | String c s' => if Ascii.eqb c ch then lstrip_char ch s' else s
  end.

Fixpoint rstrip_char (ch : ascii) (s : string) : string :=
  match s with
  | EmptyString => EmptyString
  | String c s' =>
      match rstrip_char ch s' with
      | EmptyString => if Ascii.eqb c ch then EmptyString else String c EmptyString
      | r => String c r
      end
  end.

Definition strip_char (ch : ascii) (s : string) : string :=
  lstrip_char ch (rstrip_char ch s).

(** [str.lower] on one character: A..Z and the Latin-1 capitals
    (U+00C0..U+00DE but U+00D7) move up by 32. *)
Definition lower_char (c : ascii) : ascii :=
  let n := nat_of_ascii c in
  if ((65 <=? n) && (n <=? 90))
     || ((192 <=? n) && (n <=? 222) && negb (n =? 215))
  then ascii_of_nat (n + 32) else c.

Fixpoint lower (s : string) : string :=
  match s with
  | EmptyString => EmptyString
  | String c s' => String (lower_char c) (lower s')
  end.

(** [sep.join(parts)] *)
Fixpoint join (sep : string) (parts : list string) : string :=
  match parts with
  | [] => EmptyString
  | [p] => p
  | p :: rest => p +:+ sep +:+ join sep rest
  end.

(** [ch in s] *)
Fixpoint contains_char (ch : ascii) (s : string) : bool :=
  match s with
  | EmptyString => false
  | String c s' => Ascii.eqb c ch || contains_char ch s'
  end.

(** [s.startswith(p)], returning the rest of [s] after [p]. *)
Fixpoint strip_prefix (p s : string) : option string :=
  match p, s with
  | EmptyString, _ => Some s
  | String a p', String b s' =>
      if Ascii.eqb a b then strip_prefix p' s' else None
  | String _ _, EmptyString => None
  end.

(** [s.split(sep)] for a one-character separator. *)
Fixpoint split_char (sep : ascii) (s : string) : list string :=
  match s with
  | EmptyString => [EmptyString]
  | String c s' =>
      if Ascii.eqb c sep then EmptyString :: split_char sep s'
      else match split_char sep s' with
           | [] => [String c EmptyString]
           | w :: ws => String c w :: ws
           end
  end.

Definition hex_digit (n : nat) : ascii :=
  ascii_of_nat (if n <? 10 then 48 + n else 87 + n).

(** [str.isprintable] on one character, for code points below 256. *)
Definition isprintable (c : ascii) : bool :=
  let n := nat_of_ascii c in
  ((32 <=? n) && (n <=? 126)) || ((161 <=? n) && negb (n =? 173)).

Definition dquote : ascii := ascii_of_nat 34.
Definition squote : ascii := ascii_of_nat 39.
Definition backslash : ascii := ascii_of_nat 92.

Definition repr_char (quote : ascii) (c : ascii) : string :=
  let n := nat_of_ascii c in
  if Ascii.eqb c quote || (n =? 92) then String backslash (String c EmptyString)
  else if n =? 9 then String backslash "t"
  else if n =? 10 then String backslash "n"
  else if n =? 13 then String backslash "r"
  else if isprintable c then String c EmptyString
  else String backslash
         (String "x" (String (hex_digit (n / 16))
                        (String (hex_digit (n mod 16)) EmptyString))).

Fixpoint repr_body (quote : ascii) (s : string) : string :=
  match s with
  | EmptyString => EmptyString
  | String c s' => repr_char quote c +:+ repr_body quote s'
  end.

(** [repr(s)] for a string [s]. *)
Definition repr (s : string) : string :=
  let quote : ascii :=
    if contains_char squote s && negb (contains_char dquote s)
    then dquote else squote in
  String quote (repr_body quote s +:+ String quote EmptyString).

End PyStr.

(** ** Python values

    The values that [json.loads] produces (numbers are the integers). A
    dictionary is the list of its items in insertion order, without repeated
    keys. *)

Inductive pyval : Type :=
| VNone
| VBool (b : bool)
| VInt (z : Z)
| VStr (s : string)
| VList (l : list pyval)
| VDict (d : list (string * pyval)).

Definition pydict : Type := list (string * pyval).

Module Py.

(** [type(v).__name__] *)
Definition type_name (v : pyval) : string :=
  match v with
  | VNone => "NoneType"
  | VBool _ => "bool"
  | VInt _ => "int"
  | VStr _ => "str"
  | VList _ => "list"
  | VDict _ => "dict"
  end.

(** [bool(v)] *)
Definition truthy (v : pyval) : bool :=
  match v with
  | VNone => false
  | VBool b => b
  | VInt z => negb (z =? 0)%Z
  | VStr s => negb (String.eqb s EmptyString)
  | VList l => match l with [] => false | _ => true end
  | VDict d => match d with [] => false | _ => true end
  end.

(** [a or b] *)
Definition or_ (a b : pyval) : pyval := if truthy a then a else b.

(** [d.get(k)] with its optional default. *)
Fixpoint lookup (k : string) (d : pydict) : option pyval :=
  match d with
  | [] => None
  | (k', v) :: d' => if String.eqb k' k then Some v else lookup k d'
  end.

Definition get_default (d : pydict) (k : string) (dflt : pyval) : pyval :=
  match lookup k d with Some v => v | None => dflt end.

Definition get (d : pydict) (k : string) : pyval := get_default d k VNone.

(** [repr(v)] and [str(v)]; they differ on strings only. *)
Fixpoint repr (v : pyval) : string :=
  match v with
  | VNone => "None"
  | VBool true => "True"
  | VBool false => "False"
  | VInt z => pretty z
  | VStr s => PyStr.repr s
  | VList l => "[" +:+ PyStr.join ", " (map repr l) +:+ "]"
  | VDict d =>
      "{" +:+ PyStr.join ", "
                (map (fun kv => PyStr.repr (fst kv) +:+ ": " +:+ repr (snd kv)) d)
          +:+ "}"
  end.

Definition str (v : pyval) : string :=
  match v with
  | VStr s => s
  | _ => repr v
  end.

End Py.

(** ** Exceptions and results *)

(** A raised exception: whether its class derives from [Exception] (and not
    only from [BaseException]), [type(e).__name__] and [str(e)]. *)
Record exn : Type := mk_exn {
  exn_is_exception : bool;
  exn_kind : string;
  exn_msg : string
}.

Inductive result (A : Type) : Type :=
| Ok (a : A)
| Raise (e : exn).
Arguments Ok {A} a.
Arguments Raise {A} e.

Definition nl : string := String (ascii_of_nat 10) EmptyString.

Definition nonempty (s : string) : bool := negb (String.eqb s EmptyString).

(** ** Paths and the file system

    A path is the list of its components below the root; the file system
    maps the paths that exist to a directory or to a regular file with its
    text. There are no symbolic links, and [..] is not interpreted. *)

Definition path : Type := list string.

Inductive node : Type :=
| Dir
| File (content : string).

Module Pathlib.

(** The components of a path string: empty components and [.] are
    dropped. *)
Definition parts (s : string) : list string :=
  filter (fun c => nonempty c && negb (String.eqb c ".")) (PyStr.split_char "/" s).

(** [p / s]: an absolute [s] replaces [p]. *)
Definition div (p : path) (s : string) : path :=
  match s with
  | String "/" _ => parts s
  | _ => p ++ parts s
  end.

(** [p.parent] *)
Definition parent (p : path) : path := removelast p.

(** [str(p)] *)
Definition to_str (p : path) : string := "/" +:+ PyStr.join "/" p.

(** [Path(s).name] and [Path(s).suffix] of a path string. *)
Definition name (s : string) : string := List.last (parts s) EmptyString.

(** The text from the last dot of the name on, when that dot is neither
    the first nor the last character of the name; [None] when the name
    has no dot. *)
Fixpoint last_dot_suffix (first : bool) (n : string) : option string :=
  match n with
  | EmptyString => None
  | String c n' =>
      match last_dot_suffix false n' with
      | Some r => Some r
      | None =>
          if Ascii.eqb c "."
          then Some (if negb first && nonempty n' then n else EmptyString)
          else None
      end
  end.

Definition suffix (s : string) : string :=
  match last_dot_suffix true (name s) with
  | Some r => r
  | None => EmptyString
  end.

End Pathlib.

(** The file system is a map from absolute paths to nodes. Every directory
    it holds can be searched and written, and a name is limited to
    [NAME_MAX] bytes; the length of a whole path is not limited. *)
Module FS.

Abbreviation t := (gmap path node).

Definition os_error (kind : string) (errno : string) (what : string) (p : path) : exn :=
  mk_exn true kind ("[Errno " +:+ errno +:+ "] " +:+ what +:+ ": " +:+ PyStr.repr (Pathlib.to_str p)).

Definition FileExistsError := os_error "FileExistsError" "17" "File exists".
Definition FileNotFoundError := os_error "FileNotFoundError" "2" "No such file or directory".
Definition NotADirectoryError := os_error "NotADirectoryError" "20" "Not a directory".
Definition IsADirectoryError := os_error "IsADirectoryError" "21" "Is a directory".

(** The root always exists. *)
Definition node_at (fs : t) (p : path) : option node :=
  match p with
  | [] => Some Dir
  | _ => fs !! p
  end.

(** Whether the path is in the file system. *)
Definition exists_ (fs : t) (p : path) : bool :=
  match node_at fs p with Some _ => true | None => false end.

(** The name of a directory entry holds at most 255 bytes, in UTF-8: one
    byte for a code point below 128 and two for the others. *)
Fixpoint byte_length (s : string) : nat :=
  match s with
  | EmptyString => 0
  | String c s' => (if nat_of_ascii c <? 128 then 1 else 2) + byte_length s'
  end.

Definition NAME_MAX : nat := 255.

Definition too_long (name : string) : bool := NAME_MAX <? byte_length name.

Definition NameTooLong := os_error "OSError" "36" "File name too long".

Definition is_name_too_long (e : exn) : bool := String.eqb (exn_kind e) "OSError".

(** [os.stat] of a path that the file system does not hold, on the
    reversed path: the system walks the path down to the first component
    that is missing, and answers that the name is too long when it is, and
    that there is no such file otherwise (also below a regular file). *)
Fixpoint refused_rev (fs : t) (rp : list string) : bool :=
  match rp with
  | [] => false
  | c :: rparent =>
      match node_at fs (rev rparent) with
      | Some Dir => too_long c
      | Some (File _) => false
      | None => refused_rev fs rparent
      end
  end.

Definition stat_error (fs : t) (p : path) : option exn :=
  if refused_rev fs (rev p) then Some (NameTooLong p) else None.

(** [p.exists()]: the answers of [os.stat] that mean absence give [False],
    its other errors are raised. *)
Definition stat_exists (fs : t) (p : path) : result bool :=
  match node_at fs p with
  | Some _ => Ok true
  | None =>
      match stat_error fs p with
      | Some e => Raise e
      | None => Ok false
      end
  end.

(** [p.mkdir(parents=True, exist_ok=True)], on the reversed path: an
    existing directory is accepted, a regular file in the way is an error,
    missing ancestors are created first. When the first [os.mkdir] of the
    path fails for another reason than a missing ancestor, that is the
    error: a name too long, or a regular file among the ancestors
    ([NotADirectoryError]). An ancestor that cannot be created because its
    own name is too long raises for its own path. *)
Fixpoint mkdir_rev (rp : list string) (fs : t) : t * result unit :=
  match node_at fs (rev rp) with
  | Some Dir => (fs, Ok tt)
  | Some (File _) => (fs, Raise (FileExistsError (rev rp)))
  | None =>
      if refused_rev fs rp then (fs, Raise (NameTooLong (rev rp)))
      else
        match rp with
        | [] => (fs, Ok tt)
        | c :: rparent =>
            match node_at fs (rev rparent) with
            | Some Dir => (<[rev rp := Dir]> fs, Ok tt)
            | Some (File _) => (fs, Raise (NotADirectoryError (rev rp)))
            | None =>
                match mkdir_rev rparent fs with
                | (fs', Ok _) =>
                    if too_long c then (fs', Raise (NameTooLong (rev rp)))
                    else (<[rev rp := Dir]> fs', Ok tt)
                | (fs', Raise e) =>
                    (fs', Raise (if is_name_too_long e then e
                                 else NotADirectoryError (rev rp)))
                end
            end
        end
  end.

Definition mkdir_parents (p : path) (fs : t) : t * result unit :=
  mkdir_rev (rev p) fs.

(** Whether the nearest ancestor that the file system holds is a regular
    file, on the reversed path. *)
Fixpoint under_file_rev (fs : t) (rp : list string) : bool :=
  match rp with
  | [] => false
  | _ :: rparent =>
      match node_at fs (rev rparent) with
      | Some Dir => false
      | Some (File _) => true
      | None => under_file_rev fs rparent
      end
  end.

(** [open(p, "w")]: the file is created or truncated under its own name.
    A file that is not there is created in its directory; without the
    directory the error is that of the first component that cannot be
    walked: a name too long, a regular file, or a missing directory. *)
Definition open_w (p : path) (fs : t) : t * result unit :=
  match node_at fs p with
  | Some Dir => (fs, Raise (IsADirectoryError p))
  | Some (File _) => (<[p := File EmptyString]> fs, Ok tt)
  | None =>
      match stat_error fs p with
      | Some e => (fs, Raise e)
      | None =>
          match node_at fs (Pathlib.parent p) with
          | Some Dir => (<[p := File EmptyString]> fs, Ok tt)
          | Some (File _) => (fs, Raise (NotADirectoryError p))
          | None =>
              (fs, Raise (if under_file_rev fs (rev p) then NotADirectoryError p
                          else FileNotFoundError p))
          end
      end
  end.

(** [open(p)] for reading: the text of the file. *)
Definition open_r (fs : t) (p : path) : result string :=
  match node_at fs p with
  | Some (File text) => Ok text
  | Some Dir => Raise (IsADirectoryError p)
  | None =>
      match stat_error fs p with
      | Some e => Raise e
      | None =>
          Raise (if under_file_rev fs (rev p) then NotADirectoryError p
                 else FileNotFoundError p)
      end
  end.

(** [f.write(text)] and [f.close()] on the file opened at [p]. *)
Definition write_close (p : path) (text : string) (fs : t) : t :=
  <[p := File text]> fs.

End FS.

(** ** The container runtime and the status parser

    [launch.core.runtime.SetupRuntime] and [launch.scripts.parser.run_parser]
    are imported, not defined, by the evaluator: they are taken as a
    parameter. Each call transforms the state of the runtime and either
    returns or raises. *)

Inductive platform : Type := Linux | Windows.

(** The object returned by [send_command]: its [output] attribute when it
    has one, and its [str]. *)
Record cmdres : Type := mk_cmdres {
  res_output : option pyval;
  res_str : string
}.

Record Runtime : Type := mk_runtime {
  Env : Type;
  container : Type;
  from_launch_image : pyval -> string -> platform -> Z -> Env -> Env * result container;
  apply_patch : container -> string -> Env -> Env * result unit;
  send_command : container -> string -> Env -> Env * result cmdres;
  cleanup : container -> Env -> Env * result unit;
  run_parser : string -> pyval -> Env -> Env * result pydict
}.

(** The calls made to the runtime, in the order they were made. A successful
    [from_launch_image] is logged with the container it returned. *)
Inductive event (C : Type) : Type :=
| EvAcquire (image : pyval) (instance_id : string) (got : option C)
| EvApplyPatch (c : C) (text : string)
| EvSendCommand (c : C) (cmd : string) (got : option cmdres)
| EvRunParser (parser : string) (raw : pyval) (got : option pydict)
| EvCleanup (c : C).
Arguments EvAcquire {C}.
Arguments EvApplyPatch {C}.
Arguments EvSendCommand {C}.
Arguments EvRunParser {C}.
Arguments EvCleanup {C}.

Definition result_to_option {A} (r : result A) : option A :=
  match r with Ok a => Some a | Raise _ => None end.

Section Evaluator.

Variable R : Runtime.

(** The world: the runtime, the file system, every state the file system
    went through (oldest first), and the trace of runtime calls. *)
Record world : Type := mk_world {
  w_env : Env R;
  w_fs : FS.t;
  w_seen : list FS.t;
  w_trace : list (event (container R))
}.

Definition M (A : Type) : Type := world -> world * result A.

Definition ret {A} (a : A) : M A := fun w => (w, Ok a).

Definition raise {A} (e : exn) : M A := fun w => (w, Raise e).

Definition bind {A B} (m : M A) (k : A -> M B) : M B :=
  fun w =>
    match m w with
    | (w', Ok a) => k a w'
    | (w', Raise e) => (w', Raise e)
    end.

Notation "x <- c ;; k" := (bind c (fun x => k))
  (at level 62, c at next level, right associativity).
Notation "c ;;; k" := (bind c (fun _ => k))
  (at level 62, right associativity).

(** [try: body finally: fin] *)
Definition try_finally {A} (body : M A) (fin : M unit) : M A :=
  fun w =>
    let (w1, r) := body w in
    match fin w1 with
    | (w2, Ok _) => (w2, r)
    | (w2, Raise e) => (w2, Raise e)
    end.

(** [try: body except Exception as e: handler(e)] *)
Definition try_except {A} (body : M A) (handler : exn -> M A) : M A :=
  fun w =>
    match body w with
    | (w1, Ok a) => (w1, Ok a)
    | (w1, Raise e) =>
        if exn_is_exception e then handler e w1 else (w1, Raise e)
    end.

(** A call to the runtime: the runtime state moves and the call is
    logged. *)
Definition call {A} (f : Env R -> Env R * result A)
    (log : result A -> event (container R)) : M A :=
  fun w =>
    let (env', r) := f (w_env w) in
    (mk_world env' (w_fs w) (w_seen w) (w_trace w ++ [log r]), r).

(** A step of the file system: the new state is visible from then on. *)
Definition fs_step {A} (f : FS.t -> FS.t * result A) : M A :=
  fun w =>
    let (fs', r) := f (w_fs w) in
    (mk_world (w_env w) fs' (w_seen w ++ [fs']) (w_trace w), r).

(** [p.exists()] *)
Definition path_exists (p : path) : M bool :=
  fun w => (w, FS.stat_exists (w_fs w) p).

Definition PREV_FILE_NAME : string := "test_output_prev_apply.txt".
Definition AFTER_FILE_NAME : string := "test_output_after_apply.txt".

(** The loop of [_join_cmds] over a list. *)
Fixpoint join_parts (cmds : list pyval) : list string :=
  match cmds with
  | [] => []
  | VNone :: rest => join_parts rest
  | c :: rest =>
      let s := PyStr.strip (Py.str c) in
      if nonempty s then s :: join_parts rest else join_parts rest
  end.

Definition _join_cmds (cmds : pyval) : string :=
  match cmds with
  | VNone => EmptyString
  | VStr s => PyStr.strip s
  | VList l => PyStr.join " ; " (join_parts l)
  | _ => PyStr.strip (Py.str cmds)
  end.

(** [path.parent.mkdir(parents=True, exist_ok=True)] and then
    [path.write_text(text)], which opens, writes and closes. *)
Definition _write_text (p : path) (text : string) : M unit :=
  fs_step (FS.mkdir_parents (Pathlib.parent p)) ;;;
  fs_step (FS.open_w p) ;;;
  fs_step (fun fs => (FS.write_close p text fs, Ok tt)).

Definition AttributeError (what : string) : exn :=
  mk_exn true "AttributeError" what.

(** [raw.rstrip()]: only a string has the method. *)
Definition py_rstrip (raw : pyval) : M string :=
  match raw with
  | VStr s => ret (PyStr.rstrip s)
  | _ => raise (AttributeError ("'" +:+ Py.type_name raw
                                +:+ "' object has no attribute 'rstrip'"))
  end.

(** [any(str(v).lower() == "fail" for v in status_map.values())] *)
Definition has_fail (status_map : pydict) : bool :=
  existsb (fun kv => String.eqb (PyStr.lower (Py.str (snd kv))) "fail") status_map.

Section RunVariant.

(** The variables that the closure [run_variant] captures. *)
Variables (image : pyval) (instance_id : string) (plat : platform)
          (timeout_s : Z) (test_patch patch : string)
          (rebuild_cmd test_cmd print_cmd : string) (parser : pyval).

Definition acquire : M (container R) :=
  call (from_launch_image R image instance_id plat timeout_s)
       (fun r => EvAcquire image instance_id (result_to_option r)).

Definition do_apply_patch (c : container R) (text : string) : M unit :=
  call (apply_patch R c text) (fun _ => EvApplyPatch c text).

Definition do_send_command (c : container R) (cmd : string) : M cmdres :=
  call (send_command R c cmd) (fun r => EvSendCommand c cmd (result_to_option r)).

Definition do_run_parser (p : string) (raw : pyval) : M pydict :=
  call (run_parser R p raw) (fun r => EvRunParser p raw (result_to_option r)).

Definition do_cleanup (c : container R) : M unit :=
  call (cleanup R c) (fun _ => EvCleanup c).

(** The body of the [try] of [run_variant]. *)
Definition variant_body (c : container R) (apply_solution : bool) : M string :=
  (if nonempty (PyStr.strip test_patch)
   then do_apply_patch c test_patch else ret tt) ;;;
  (if apply_solution && nonempty (PyStr.strip patch)
   then do_apply_patch c patch else ret tt) ;;;
  (if nonempty rebuild_cmd
   then do_send_command c rebuild_cmd ;;; ret tt else ret tt) ;;;
  do_send_command c test_cmd ;;;
  res <- do_send_command c print_cmd ;;
  let raw := match res_output res with
             | Some v => v
             | None => VStr (res_str res)
             end in
  status_map <- do_run_parser (Py.str parser) raw ;;
  let exit_code : Z := if has_fail status_map then 1%Z else 0%Z in
  stripped <- py_rstrip raw ;;
  ret (stripped +:+ nl +:+ "echo OMNIGRIL_EXIT_CODE=" +:+ pretty exit_code +:+ nl).

Definition run_variant (label : string) (apply_solution : bool) : M string :=
  c <- acquire ;;
  try_finally
    (variant_body c apply_solution)
    (try_except (do_cleanup c) (fun _ => ret tt)).

End RunVariant.

Definition _run_one (instance : pydict) (plat : platform) (out_dir : path)
    (timeout_s : Z) (overwrite : bool) : M (string * option string) :=
  let instance_id := Py.str (Py.or_ (Py.get instance "instance_id") (VStr EmptyString)) in
  if negb (nonempty instance_id) then ret ("error", Some "missing instance_id") else
  let inst_out := Pathlib.div out_dir instance_id in
  let prev_path := Pathlib.div inst_out PREV_FILE_NAME in
  let after_path := Pathlib.div inst_out AFTER_FILE_NAME in
  skip <- (if negb overwrite
           then prev_there <- path_exists prev_path ;;
                if prev_there then path_exists after_path else ret false
           else ret false) ;;
  if skip then ret ("skip", None) else
  let image := Py.or_ (Py.get instance "docker_image") (Py.get instance "image") in
  if negb (Py.truthy image) then ret ("error", Some "missing docker_image") else
  let rebuild_cmd := _join_cmds (Py.get instance "rebuild_cmds") in
  let test_cmd := _join_cmds (Py.get instance "test_cmds") in
  let print_cmd := _join_cmds (Py.get instance "print_cmds") in
  let parser :=
    Py.or_ (Py.get_default instance "log_parser"
              (Py.get_default instance "parser" (VStr EmptyString)))
           (VStr EmptyString) in
  let test_patch := Py.str (Py.or_ (Py.get instance "test_patch") (VStr EmptyString)) in
  let patch := Py.str (Py.or_ (Py.get instance "patch") (VStr EmptyString)) in
  if negb (nonempty test_cmd) then ret ("error", Some "missing test_cmds") else
  if negb (nonempty print_cmd)
  then ret ("error", Some "missing print_cmds (needed to judge pass/fail)") else
  if negb (nonempty (PyStr.strip (Py.str parser)))
  then ret ("error", Some "missing log_parser/parser (needed to judge pass/fail)") else
  let variant :=
    run_variant image instance_id plat timeout_s test_patch patch
                rebuild_cmd test_cmd print_cmd parser in
  try_except
    (prev_out <- variant "prev" false ;;
     after_out <- variant "after" true ;;
     _write_text prev_path prev_out ;;;
     _write_text after_path after_out ;;;
     ret ("ok", None))
    (fun e =>
       let text := exn_kind e +:+ ": " +:+ exn_msg e in
       fs_step (FS.mkdir_parents inst_out) ;;;
       _write_text (Pathlib.div inst_out "error.txt") (text +:+ nl) ;;;
       ret ("error", Some text)).

End Evaluator.

Arguments mk_world {R}.
Arguments w_env {R}.
Arguments w_fs {R}.
Arguments w_seen {R}.
Arguments w_trace {R}.

(** ** An in-memory runtime

    The runtime state counts the live sessions; a container is the name of
    its image. The image [missing] cannot be materialised, a patch that
    starts with [bad] does not apply, the command [hang] times out, the
    parser [unknown] is not registered, the teardown of the image [flaky]
    fails, and a log that holds an exclamation mark has a failing test. *)

Module Mock.

Definition starts_with (p s : string) : bool :=
  match PyStr.strip_prefix p s with Some _ => true | None => false end.

Definition from_launch_image (image : pyval) (iid : string) (plat : platform)
    (timeout : Z) (live : nat) : nat * result string :=
  if String.eqb (Py.str image) "missing"
  then (live, Raise (mk_exn true "EnvironmentUnavailable" "no such image"))
  else (S live, Ok (Py.str image)).

Definition apply_patch (c : string) (text : string) (live : nat) : nat * result unit :=
  if starts_with "bad" text
  then (live, Raise (mk_exn true "PatchApplyFailed" "patch does not apply"))
  else (live, Ok tt).

Definition send_command (c : string) (cmd : string) (live : nat) : nat * result cmdres :=
  if String.eqb cmd "hang"
  then (live, Raise (mk_exn true "CommandTimeout" "timed out"))
  else (live, Ok (mk_cmdres (Some (VStr ("$ " +:+ cmd +:+ " " +:+ nl +:+ nl))) "result")).

Definition cleanup (c : string) (live : nat) : nat * result unit :=
  if String.eqb c "flaky"
  then (live, Raise (mk_exn true "RuntimeError" "teardown failed"))
  else (pred live, Ok tt).

Definition run_parser (p : string) (raw : pyval) (live : nat) : nat * result pydict :=
  if String.eqb p "unknown"
  then (live, Raise (mk_exn true "UnknownParser" p))
  else if PyStr.contains_char "!" (Py.str raw)
  then (live, Ok [("test_a", VStr "pass"); ("test_b", VStr "FAIL")])
  else (live, Ok [("test_a", VStr "pass")]).

Definition runtime : Runtime :=
  mk_runtime nat string from_launch_image apply_patch send_command cleanup run_parser.

Definition world0 (fs : FS.t) : world runtime := mk_world (0 : Env runtime) fs [] [].

(** A complete record, and the same record with a patch that does not
    apply. *)
Definition good_instance : pydict :=
  [("instance_id", VStr "repo__1"); ("docker_image", VStr "img");
   ("test_cmds", VList [VStr "pytest -q"; VStr " "; VNone; VStr "echo done! "]);
   ("print_cmds", VStr " cat log! "); ("log_parser", VStr "pytest");
   ("test_patch", VStr "diff"); ("patch", VStr "diff2")].

Definition bad_patch_instance : pydict :=
  [("instance_id", VStr "repo__2"); ("docker_image", VStr "img");
   ("test_cmds", VList [VStr "pytest -q"]);
   ("print_cmds", VStr "cat log"); ("parser", VStr "pytest");
   ("test_patch", VStr "bad diff")].

Definition out : path := ["out"].

(** An output root in which [repo__2] is a regular file. *)
Definition blocked_fs : FS.t :=
  <[ ["out"; "repo__2"] := File "stale" ]> (<[ ["out"] := Dir ]> ∅).

(** An output root in which both artifacts of [repo__3] already exist. *)
Definition done_fs : FS.t :=
  <[ ["out"; "repo__3"; "test_output_after_apply.txt"] := File "b" ]>
    (<[ ["out"; "repo__3"; "test_output_prev_apply.txt"] := File "a" ]>
       (<[ ["out"; "repo__3"] := Dir ]> (<[ ["out"] := Dir ]> ∅))).

End Mock.

(** ** The instance loader *)

Definition SystemExit (msg : string) : exn := mk_exn false "SystemExit" msg.

(** The lines of a text file read with universal newlines: each of LF, CR LF
    and CR ends a line and is read as LF. *)
Fixpoint file_lines (s : string) : list string :=
  match s with
  | EmptyString => []
  | String c s' =>
      if Ascii.eqb c (ascii_of_nat 10) then nl :: file_lines s'
      else if Ascii.eqb c (ascii_of_nat 13) then
        match s' with
        | String c' s'' =>
            if Ascii.eqb c' (ascii_of_nat 10) then nl :: file_lines s''
            else nl :: file_lines s'
        | EmptyString => [nl]
        end
      else
        match file_lines s' with
        | [] => [String c EmptyString]
        | l :: ls => String c l :: ls
        end
  end.

Section Loader.

(** [json.loads]: the value, or the text of the [JSONDecodeError]. *)
Variable json_loads : string -> pyval + string.

(** The loop of [_load_jsonl], from line number [lineno] on, with the
    records read so far. *)
Fixpoint load_lines (shown : string) (lineno : nat) (lines : list string)
    (out : list pyval) : result (list pyval) :=
  match lines with
  | [] => Ok out
  | line :: rest =>
      let s := PyStr.strip line in
      if negb (nonempty s) then load_lines shown (S lineno) rest out
      else match json_loads s with
           | inl v => load_lines shown (S lineno) rest (out ++ [v])
           | inr e =>
               Raise (SystemExit ("Invalid JSON on line " +:+ pretty lineno +:+ " of "
                                  +:+ shown +:+ ": " +:+ e))
           end
  end.

Definition _load_jsonl (fs : FS.t) (p : path) : result (list pyval) :=
  match FS.open_r fs p with
  | Ok text => load_lines (Pathlib.to_str p) 1 (file_lines text) []
  | Raise e => Raise e
  end.

End Loader.

(** ** Counters

    A [collections.Counter] is the list of its items in insertion order. *)

Section Counter.

Context {K : Type} (eqb : K -> K -> bool).

(** [c[k] += n] *)
Fixpoint counter_add (k : K) (n : nat) (c : list (K * nat)) : list (K * nat) :=
  match c with
  | [] => [(k, n)]
  | (k', m) :: c' =>
      if eqb k' k then (k', m + n) :: c' else (k', m) :: counter_add k n c'
  end.

(** [c[k]] *)
Fixpoint counter_get (k : K) (c : list (K * nat)) : nat :=
  match c with
  | [] => 0
  | (k', m) :: c' => if eqb k' k then m else counter_get k c'
  end.

(** The first item of largest count: [max(c.items(), key=itemgetter(1))]. *)
Fixpoint first_max (best : K * nat) (c : list (K * nat)) : K * nat :=
  match c with
  | [] => best
  | x :: c' => if snd best <? snd x then first_max x c' else first_max best c'
  end.

(** [c.most_common(1)] *)
Definition most_common_1 (c : list (K * nat)) : list (K * nat) :=
  match c with
  | [] => []
  | x :: c' => [first_max x c']
  end.

End Counter.

(** ** Language inference *)

Module Lang.

Definition EXT_TO_LANG : list (string * string) :=
  [ (".py", "Python"); (".ipynb", "Python");
    (".js", "JS/TS"); (".jsx", "JS/TS"); (".ts", "JS/TS"); (".tsx", "JS/TS");
    (".go", "Go"); (".rs", "Rust"); (".java", "Java"); (".kt", "Java");
    (".cs", "C#"); (".c", "C"); (".h", "C");
    (".cc", "C++"); (".cpp", "C++"); (".cxx", "C++"); (".hpp", "C++"); (".hh", "C++") ].

Fixpoint table_get (k : string) (t : list (string * string)) : option string :=
  match t with
  | [] => None
  | (k', v) :: t' => if String.eqb k' k then Some v else table_get k t'
  end.

(** The text before the first occurrence of [pat] in [s]. *)
Fixpoint before_first (pat s : string) : option string :=
  match PyStr.strip_prefix pat s with
  | Some _ => Some EmptyString
  | None =>
      match s with
      | EmptyString => None
      | String c s' =>
          match before_first pat s' with
          | Some r => Some (String c r)
          | None => None
          end
      end
  end.

(** One line against [^diff --git a/(.*?) b/.*?$]: the line starts with
    the header, and the group is the shortest text that is followed by
    [ b/]. *)
Definition diff_header_path (line : string) : option string :=
  match PyStr.strip_prefix "diff --git a/" line with
  | Some rest => before_first " b/" rest
  | None => None
  end.

(** [DIFF_PATH_RE.findall(txt)]: in multi-line mode the anchors match at
    the line feeds and the dot does not cross them, so the matches are
    found line by line. *)
Definition findall_diff_paths (txt : string) : list string :=
  omap diff_header_path (PyStr.split_char (ascii_of_nat 10) txt).

(** [Path(p.strip().strip(dq).strip(sq)).suffix.lower()] *)
Definition path_ext (p : string) : string :=
  let p := PyStr.strip_char PyStr.squote (PyStr.strip_char PyStr.dquote (PyStr.strip p)) in
  PyStr.lower (Pathlib.suffix p).

(** The first loop: the extensions of the paths of one text. *)
Fixpoint count_paths (ps : list string) (exts : list (string * nat)) : list (string * nat) :=
  match ps with
  | [] => exts
  | p :: ps' =>
      let suffix := path_ext p in
      count_paths ps' (if nonempty suffix then counter_add String.eqb suffix 1 exts else exts)
  end.

Fixpoint count_texts (texts : list string) (exts : list (string * nat)) : list (string * nat) :=
  match texts with
  | [] => exts
  | txt :: rest =>
      if negb (nonempty txt) then count_texts rest exts
      else count_texts rest (count_paths (findall_diff_paths txt) exts)
  end.

(** The second loop: extension counts to language counts. *)
Fixpoint count_langs (items : list (string * nat)) (lang_counts : list (string * nat))
    : list (string * nat) :=
  match items with
  | [] => lang_counts
  | (ext, n) :: rest =>
      match table_get ext EXT_TO_LANG with
      | Some lang =>
          count_langs rest
            (if nonempty lang then counter_add String.eqb lang n lang_counts else lang_counts)
      | None => count_langs rest lang_counts
      end
  end.

Definition infer_language_from_diff_text (diff_texts : list string)
    : string * list (string * nat) :=
  let exts := count_texts diff_texts [] in
  let lang_counts := count_langs exts [] in
  match most_common_1 lang_counts with
  | [] => ("Python", exts)
  | (best_lang, _) :: _ => (best_lang, exts)
  end.

End Lang.

(** ** The fail-to-pass report *)

Module Report.

Record Row : Type := mk_row {
  instance_id : string;
  fail_to_pass : list string;
  pass_to_pass : list string
}.

(** The report dictionary. The ratio is the exact quotient, of which the
    float of the script is the rounding. *)
Record report : Type := mk_report {
  total_instances : nat;
  f2p_instances : nat;
  f2p_ratio : Q;
  f2p_size_histogram : list (nat * nat);
  top_f2p_instances : list (string * nat);
  ptp_min : nat;
  ptp_max : nat
}.

Definition ValueError (msg : string) : exn := mk_exn true "ValueError" msg.
Definition ZeroDivisionError : exn := mk_exn true "ZeroDivisionError" "division by zero".

(** [min(l)] and [max(l)], which raise on an empty sequence. *)
Definition py_min (l : list nat) : result nat :=
  match l with
  | [] => Raise (ValueError "min() arg is an empty sequence")
  | x :: l' => Ok (fold_left Nat.min l' x)
  end.

Definition py_max (l : list nat) : result nat :=
  match l with
  | [] => Raise (ValueError "max() arg is an empty sequence")
  | x :: l' => Ok (fold_left Nat.max l' x)
  end.

(** [a / b] on integers: the script has the float that is nearest to the
    quotient, the report of the model the quotient itself. What is stated
    of the ratio is what the rounding keeps: its bounds, its order, and
    whether it is zero. *)
Definition py_truediv (a b : nat) : result Q :=
  match b with
  | O => Raise ZeroDivisionError
  | S _ => Ok (Z.of_nat a # Pos.of_nat b)
  end.

Definition rbind {A B} (r : result A) (k : A -> result B) : result B :=
  match r with
  | Ok a => k a
  | Raise e => Raise e
  end.

(** A stable sort, as [sorted]: an element goes in front of the first one
    that is not smaller than it. *)
Section Sorted.
Context {A : Type} (lt : A -> A -> bool).

Fixpoint insert_sorted (x : A) (l : list A) : list A :=
  match l with
  | [] => [x]
  | y :: l' => if lt y x then y :: insert_sorted x l' else x :: y :: l'
  end.

Fixpoint py_sorted (l : list A) : list A :=
  match l with
  | [] => []
  | x :: l' => insert_sorted x (py_sorted l')
  end.
End Sorted.

(** [(-x[1], x[0])] of one item against that of another. *)
Definition top_key_lt (x y : string * nat) : bool :=
  (snd y <? snd x) || ((snd x =? snd y) && String.ltb (fst x) (fst y)).

Fixpoint counter_of (l : list nat) (c : list (nat * nat)) : list (nat * nat) :=
  match l with
  | [] => c
  | x :: l' => counter_of l' (counter_add Nat.eqb x 1 c)
  end.

(** Lines 88 to 110 of [main]. *)
Definition build_report (rows : list Row) (top_n_arg : Z) : result report :=
  let total := length rows in
  let f2p_rows := filter (fun r => 0 <? length (fail_to_pass r)) rows in
  let f2p_count := length f2p_rows in
  let f2p_sizes := map (fun r => length (fail_to_pass r)) f2p_rows in
  let ptp_sizes := map (fun r => length (pass_to_pass r)) rows in
  let size_counter := counter_of f2p_sizes [] in
  let top_n := Z.to_nat (Z.max 0 top_n_arg) in
  let top :=
    firstn top_n
      (py_sorted top_key_lt
         (map (fun r => (instance_id r, length (fail_to_pass r))) f2p_rows)) in
  rbind (if negb (total =? 0) then py_truediv f2p_count total else Ok 0%Q) (fun ratio =>
  rbind (match ptp_sizes with [] => Ok 0 | _ => py_min ptp_sizes end) (fun mn =>
  rbind (match ptp_sizes with [] => Ok 0 | _ => py_max ptp_sizes end) (fun mx =>
  Ok (mk_report total f2p_count ratio
        (py_sorted (fun a b => fst a <? fst b) size_counter)
        top mn mx)))).

End Report.

(** ** The pull-to-issue files *)

Module Pull2Issue.

(** A dictionary in insertion order: [d[k]] of a [defaultdict] creates the
    entry at the end when it is missing. *)
Section Assoc.
Context {K V : Type} (eqb : K -> K -> bool).

Fixpoint al_get (k : K) (d : list (K * V)) : option V :=
  match d with
  | [] => None
  | (k', v) :: d' => if eqb k' k then Some v else al_get k d'
  end.

(** [d[k] = f(d[k])] with the default [dflt] for a missing key. *)
Fixpoint al_update (k : K) (f : V -> V) (dflt : V) (d : list (K * V)) : list (K * V) :=
  match d with
  | [] => [(k, f dflt)]
  | (k', v) :: d' =>
      if eqb k' k then (k', f v) :: d' else (k', v) :: al_update k f dflt d'
  end.
End Assoc.

Definition groups : Type := list (string * list (Z * list Z)).

(** [repo_pr_issues[repo][pr].append(issue)] *)
Definition add_entry (g : groups) (repo : string) (pr issue : Z) : groups :=
  al_update String.eqb repo
    (al_update Z.eqb pr (fun issues => issues ++ [issue]) []) [] g.

Definition TypeError (msg : string) : exn := mk_exn true "TypeError" msg.

(** [repo.split("/", 1)] unpacked into two names. *)
Fixpoint split_once (s : string) : option (string * string) :=
  match s with
  | EmptyString => None
  | String c s' =>
      if Ascii.eqb c "/" then Some (EmptyString, s')
      else match split_once s' with
           | Some (a, b) => Some (String c a, b)
           | None => None
           end
  end.

Definition str_le (a b : string) : Prop := String.leb a b = true.

#[export] Instance str_le_dec (a b : string) : Decision (str_le a b) :=
  bool_eq_dec (String.leb a b) true.

(** [json.dumps] of a list of integers and of one record. *)
Definition dumps_ints (l : list Z) : string :=
  "[" +:+ PyStr.join ", " (map pretty l) +:+ "]".

Definition quoted (s : string) : string :=
  String PyStr.dquote (s +:+ String PyStr.dquote EmptyString).

Definition dumps_record (pr : Z) (issues : list Z) : string :=
  "{" +:+ quoted "pull" +:+ ": " +:+ pretty pr +:+ ", " +:+ quoted "issue" +:+ ": "
      +:+ dumps_ints issues +:+ "}".

(** The records of one file: the pull requests in ascending order, each
    with [sorted(set(issues))]. *)
Definition pull2issue_records (pr_map : list (Z * list Z)) : list (Z * list Z) :=
  map (fun pr_num =>
         let issues : gset Z := list_to_set (default [] (al_get Z.eqb pr_num pr_map)) in
         (pr_num, merge_sort Z.le (elements issues)))
      (merge_sort Z.le (map fst pr_map)).

(** One line of [json.dumps] for each record. *)
Definition render_records (recs : list (Z * list Z)) : string :=
  String.concat EmptyString (map (fun rec => dumps_record (fst rec) (snd rec) +:+ nl) recs).

Definition pull2issue_text (pr_map : list (Z * list Z)) : string :=
  render_records (pull2issue_records pr_map).

Section Main.

(** [int(s)] for a string: the integer it spells, if any. *)
Variable int_of_text : string -> option Z.

Definition py_int (v : pyval) : result Z :=
  match v with
  | VInt z => Ok z
  | VBool b => Ok (if b then 1 else 0)%Z
  | VStr s =>
      match int_of_text s with
      | Some z => Ok z
      | None =>
          Raise (Report.ValueError ("invalid literal for int() with base 10: "
                                    +:+ PyStr.repr s))
      end
  | _ => Raise (TypeError ("int() argument must be a string, a bytes-like object or a "
                           +:+ "real number, not '" +:+ Py.type_name v +:+ "'"))
  end.

(** The loop that fills [repo_pr_issues]. *)
Fixpoint collect (items : list pyval) (g : groups) : result groups :=
  match items with
  | [] => Ok g
  | VDict it :: rest =>
      let repo := Py.get it "repo" in
      let issue := Py.get it "issue_number" in
      let pr := Py.get it "pr_number" in
      let is_none v := match v with VNone => true | _ => false end in
      if negb (Py.truthy repo) || is_none issue || is_none pr
      then Raise (SystemExit ("Bad entry (need repo/issue_number/pr_number): "
                              +:+ Py.str (VDict it)))
      else
        Report.rbind (py_int pr) (fun pr_z =>
        Report.rbind (py_int issue) (fun issue_z =>
        collect rest (add_entry g (Py.str repo) pr_z issue_z)))
  | _ :: rest => collect rest g
  end.

(** The files written by the second loop, in the order they are
    written: the repository, the path and the text. *)
Fixpoint write_files (out_root : path) (cutoff_date : string) (g : groups)
    (repos : list string) : result (list (string * path * string)) :=
  match repos with
  | [] => Ok []
  | repo :: rest =>
      match split_once repo with
      | None => Raise (Report.ValueError "not enough values to unpack (expected 2, got 1)")
      | Some (owner, name) =>
          let slug := owner +:+ "__" +:+ name in
          let prs_dir := Pathlib.div (Pathlib.div out_root slug) "prs" in
          let pull2issue_path :=
            Pathlib.div prs_dir (name +:+ "-pull2issue-" +:+ cutoff_date +:+ ".jsonl") in
          let pr_map := default [] (al_get String.eqb repo g) in
          Report.rbind (write_files out_root cutoff_date g rest) (fun files =>
          Ok ((repo, pull2issue_path, pull2issue_text pr_map) :: files))
      end
  end.

Definition main (items : pyval) (out_root : path) (cutoff_date : string)
    : result (list (string * path * string)) :=
  match items with
  | VList l =>
      Report.rbind (collect l []) (fun g =>
      write_files out_root cutoff_date g (merge_sort str_le (map fst g)))
  | _ => Raise (SystemExit "Input JSON must be a list.")
  end.

End Main.

End Pull2Issue.

(** ** Reading traces and statuses *)

(** The sessions acquired and the sessions released in a trace. *)
Fixpoint acquired {C} (evs : list (event C)) : nat :=
  match evs with
  | [] => 0
  | EvAcquire _ _ (Some _) :: rest => S (acquired rest)
  | _ :: rest => acquired rest
  end.

Fixpoint released {C} (evs : list (event C)) : nat :=
  match evs with
  | [] => 0
  | EvCleanup _ :: rest => S (released rest)
  | _ :: rest => released rest
  end.

(** The four letters of [fail], each in either case. *)
Definition is_fail_word (s : string) : bool :=
  match s with
  | String c1 (String c2 (String c3 (String c4 EmptyString))) =>
      (Ascii.eqb c1 "f" || Ascii.eqb c1 "F") && (Ascii.eqb c2 "a" || Ascii.eqb c2 "A")
      && (Ascii.eqb c3 "i" || Ascii.eqb c3 "I") && (Ascii.eqb c4 "l" || Ascii.eqb c4 "L")
  | _ => false
  end.

(** The text that [send_command] hands to the parser. *)
Definition raw_of (res : cmdres) : pyval :=
  match res_output res with
  | Some v => v
  | None => VStr (res_str res)
  end.

(** ** Reading an instance record *)

(** [str(instance.get("instance_id") or "")] *)
Definition instance_id_of (instance : pydict) : string :=
  Py.str (Py.or_ (Py.get instance "instance_id") (VStr EmptyString)).

(** The artifact paths of an instance. *)
Definition instance_dir (out_dir : path) (instance : pydict) : path :=
  Pathlib.div out_dir (instance_id_of instance).

Definition prev_path_of (out_dir : path) (instance : pydict) : path :=
  Pathlib.div (instance_dir out_dir instance) "test_output_prev_apply.txt".

Definition after_path_of (out_dir : path) (instance : pydict) : path :=
  Pathlib.div (instance_dir out_dir instance) "test_output_after_apply.txt".

Definition error_path_of (out_dir : path) (instance : pydict) : path :=
  Pathlib.div (instance_dir out_dir instance) "error.txt".

(** The skip test of [_run_one]. *)
Definition skip_applies (overwrite : bool) (fs : FS.t) (out_dir : path)
    (instance : pydict) : bool :=
  negb overwrite && FS.exists_ fs (prev_path_of out_dir instance)
  && FS.exists_ fs (after_path_of out_dir instance).

(** What the skip test raises, when it does: the existence of the
    artifacts is looked up only without overwrite, and that of the second
    only when the first is there. *)
Definition skip_error (overwrite : bool) (fs : FS.t) (out_dir : path)
    (instance : pydict) : option exn :=
  if overwrite then None
  else if FS.exists_ fs (prev_path_of out_dir instance)
  then (if FS.exists_ fs (after_path_of out_dir instance) then None
        else FS.stat_error fs (after_path_of out_dir instance))
  else FS.stat_error fs (prev_path_of out_dir instance).

(** The values that [_run_one] derives from the record. *)
Definition image_of (instance : pydict) : pyval :=
  Py.or_ (Py.get instance "docker_image") (Py.get instance "image").

Definition parser_of (instance : pydict) : pyval :=
  Py.or_ (Py.get_default instance "log_parser"
            (Py.get_default instance "parser" (VStr EmptyString)))
         (VStr EmptyString).

Definition test_patch_of (instance : pydict) : string :=
  Py.str (Py.or_ (Py.get instance "test_patch") (VStr EmptyString)).

Definition patch_of (instance : pydict) : string :=
  Py.str (Py.or_ (Py.get instance "patch") (VStr EmptyString)).

(** The required fields, in the order [_run_one] checks them. *)
Inductive field : Type := FInstanceId | FImage | FTestCmds | FPrintCmds | FParser.

Definition all_fields : list field := [FInstanceId; FImage; FTestCmds; FPrintCmds; FParser].



(** The test that [_run_one] makes for each field. *)
Definition blank (f : field) (instance : pydict) : bool :=
  match f with
  | FInstanceId => negb (nonempty (instance_id_of instance))
  | FImage => negb (Py.truthy (image_of instance))
  | FTestCmds => negb (nonempty (_join_cmds (Py.get instance "test_cmds")))
  | FPrintCmds => negb (nonempty (_join_cmds (Py.get instance "print_cmds")))
  | FParser => negb (nonempty (PyStr.strip (Py.str (parser_of instance))))
  end.

Definition message_of (f : field) : string :=
  match f with
  | FInstanceId => "missing instance_id"
  | FImage => "missing docker_image"
  | FTestCmds => "missing test_cmds"
  | FPrintCmds => "missing print_cmds (needed to judge pass/fail)"
  | FParser => "missing log_parser/parser (needed to judge pass/fail)"
  end.

Fixpoint first_blank_in (fields : list field) (instance : pydict) : option field :=
  match fields with
  | [] => None
  | f :: rest => if blank f instance then Some f else first_blank_in rest instance
  end.

Definition first_blank (instance : pydict) : option field :=
  first_blank_in all_fields instance.

(** The closure [run_variant] of an instance. *)
Definition variant_of (R : Runtime) (instance : pydict) (plat : platform) (timeout_s : Z)
    : string -> bool -> M R string :=
  run_variant R (image_of instance) (instance_id_of instance) plat timeout_s
    (test_patch_of instance) (patch_of instance)
    (_join_cmds (Py.get instance "rebuild_cmds"))
    (_join_cmds (Py.get instance "test_cmds"))
    (_join_cmds (Py.get instance "print_cmds"))
    (parser_of instance).

(** The handler of [_run_one] for an exception [e]. *)
Definition error_text (e : exn) : string := exn_kind e +:+ ": " +:+ exn_msg e.

(** The [try] block of [_run_one] and its handler. *)
Definition run_both (R : Runtime) (instance : pydict) (plat : platform) (out_dir : path)
    (timeout_s : Z) : M R (string * option string) :=
  bind R (variant_of R instance plat timeout_s "prev" false) (fun prev_out =>
  bind R (variant_of R instance plat timeout_s "after" true) (fun after_out =>
  bind R (_write_text R (prev_path_of out_dir instance) prev_out) (fun _ =>
  bind R (_write_text R (after_path_of out_dir instance) after_out) (fun _ =>
  ret R ("ok", None))))).

Definition on_error (R : Runtime) (instance : pydict) (out_dir : path) (e : exn)
    : M R (string * option string) :=
  bind R (fs_step R (FS.mkdir_parents (instance_dir out_dir instance))) (fun _ =>
  bind R (_write_text R (error_path_of out_dir instance) (error_text e +:+ nl)) (fun _ =>
  ret R ("error", Some (error_text e)))).

(** ** Reading the file-system history *)

(** [p.is_dir()] *)
Definition is_dir (fs : FS.t) (p : path) : bool :=
  match FS.node_at fs p with
  | Some Dir => true
  | _ => false
  end.



(** ** The loader, as the specification words it *)

Definition LF : ascii := ascii_of_nat 10.
Definition CR : ascii := ascii_of_nat 13.

(** The text with each of its line ends, CR LF, CR or LF, written LF. *)
Fixpoint unix_text (s : string) : string :=
  match s with
  | EmptyString => EmptyString
  | String c s' =>
      if Ascii.eqb c CR then
        String LF match s' with
                  | String c' s'' => if Ascii.eqb c' LF then unix_text s'' else unix_text s'
                  | EmptyString => EmptyString
                  end
      else String c (unix_text s')
  end.

(** The lines of a text are what stands between its line ends; after a
    last line end stands an empty line. *)
Definition text_lines (text : string) : list string :=
  PyStr.split_char LF (unix_text text).

(** The lines that reading a file gives, made from the lines of its text:
    each line but the last, with its line end, and the last line when it
    is not empty. *)
Fixpoint with_ends (lines : list string) : list string :=
  match lines with
  | [] => []
  | [x] => if nonempty x then [x] else []
  | x :: rest => (x +:+ nl) :: with_ends rest
  end.

Section LoaderSpec.

Variable json_loads : string -> pyval + string.

(** The lines of a text with their 1-based numbers. *)
Definition numbered_from (n : nat) (lines : list string) : list (nat * string) :=
  combine (seq n (length lines)) lines.

Definition is_nonblank (nl : nat * string) : bool := nonempty (PyStr.strip (snd nl)).

Definition fails_to_parse (nl : nat * string) : bool :=
  match json_loads (PyStr.strip (snd nl)) with
  | inl _ => false
  | inr _ => true
  end.

Definition record_of (nl : nat * string) : list pyval :=
  match json_loads (PyStr.strip (snd nl)) with
  | inl v => [v]
  | inr _ => []
  end.

(** The records of the non-blank lines in file order, unless some
    non-blank line does not parse: then the load fails on the first such
    line, naming the file and the number of the line. *)
Definition load_from (shown : string) (n : nat) (lines : list string) : result (list pyval) :=
  let nonblank := List.filter is_nonblank (numbered_from n lines) in
  match List.find fails_to_parse nonblank with
  | Some (lineno, line) =>
      Raise (SystemExit ("Invalid JSON on line " +:+ pretty lineno +:+ " of " +:+ shown
                         +:+ ": " +:+ match json_loads (PyStr.strip line) with
                                      | inr e => e
                                      | inl _ => EmptyString
                                      end))
  | None => Ok (flat_map record_of nonblank)
  end.

Definition load_jsonl_by_spec (p : path) (text : string) : result (list pyval) :=
  load_from (Pathlib.to_str p) 1 (text_lines text).

End LoaderSpec.

(** A small [json.loads] for the sample runs: [null] and the empty object
    parse, nothing else does. *)
Definition sample_json_loads (s : string) : pyval + string :=
  if String.eqb s "null" then inl VNone
  else if String.eqb s "{}" then inl (VDict [])
  else inr "Expecting value: line 1 column 1 (char 0)".

(** ** Language inference, as the specification words it *)

Module LangSpec.

(** The path of a header line [diff --git a/<path> b/<rest>]: what stands
    between [diff --git a/] and the first [ b/] after it. A line that does
    not begin with [diff --git a/], or has no [ b/] after it, is no
    header. *)
Definition header_path (line : string) : option string :=
  if String.prefix "diff --git a/" line then
    match String.index 13 " b/" line with
    | Some n => Some (String.substring 13 (n - 13) line)
    | None => None
    end
  else None.

(** The paths of the header lines of all the texts, in the order of the
    texts and of their lines. *)
Definition header_paths (texts : list string) : list string :=
  flat_map (fun txt => omap header_path (PyStr.split_char LF txt)) texts.

(** The language of a path: that of its extension, when it has one that
    is recognized. *)
Definition lang_of_path (p : string) : option string :=
  if nonempty (Lang.path_ext p) then Lang.table_get (Lang.path_ext p) Lang.EXT_TO_LANG
  else None.

Definition has_lang (lang : string) (p : string) : bool :=
  match lang_of_path p with
  | Some l => String.eqb l lang
  | None => false
  end.

Definition recognized (p : string) : bool :=
  match lang_of_path p with
  | Some _ => true
  | None => false
  end.

(** How often the extensions of a language occur across the texts. *)
Definition lang_count (lang : string) (texts : list string) : nat :=
  length (List.filter (has_lang lang) (header_paths texts)).

(** What a counter of extensions contributes to a language. *)
Fixpoint weight (lang : string) (exts : list (string * nat)) : nat :=
  match exts with
  | [] => 0
  | (ext, n) :: rest =>
      match Lang.table_get ext Lang.EXT_TO_LANG with
      | Some l => (if String.eqb l lang then n else 0) + weight lang rest
      | None => weight lang rest
      end
  end.

(** What one extension that occurs [n] times contributes. *)
Definition gain (lang ext : string) (n : nat) : nat :=
  match Lang.table_get ext Lang.EXT_TO_LANG with
  | Some l => if String.eqb l lang then n else 0
  | None => 0
  end.

(** A counter without a zero count. *)
Definition positive (c : list (string * nat)) : Prop := Forall (fun kv => 0 < snd kv) c.

End LangSpec.

(** ** The issue-PR map, as its documentation words it *)

Module Pull2IssueSpec.

(** A valid entry: an object with a repository [owner/name], an issue
    number and a pull-request number. *)
Definition entry_of (v : pyval) : option (string * Z * Z) :=
  match v with
  | VDict it =>
      match Py.get it "repo", Py.get it "pr_number", Py.get it "issue_number" with
      | VStr repo, VInt pr, VInt issue =>
          match Pull2Issue.split_once repo with
          | Some _ => Some (repo, pr, issue)
          | None => None
          end
      | _, _, _ => None
      end
  | _ => None
  end.

Definition valid_item (v : pyval) : bool :=
  match entry_of v with
  | Some _ => true
  | None => false
  end.

(** The entries of a valid map, in input order. *)
Definition entries (items : list pyval) : list (string * Z * Z) := omap entry_of items.

(** The issues that the entries pair with a pull request of a
    repository, in input order. *)
Definition issue_if (repo : string) (pr : Z) (e : string * Z * Z) : option Z :=
  if String.eqb (fst (fst e)) repo && Z.eqb (snd (fst e)) pr then Some (snd e) else None.

Definition issues_of (repo : string) (pr : Z) (es : list (string * Z * Z)) : list Z :=
  omap (issue_if repo pr) es.

(** The grouping loop on entries. *)
Definition grouped_from (g : Pull2Issue.groups) (es : list (string * Z * Z))
    : Pull2Issue.groups :=
  fold_left (fun g e => Pull2Issue.add_entry g (fst (fst e)) (snd (fst e)) (snd e)) es g.

(** Reading a grouping. *)
Definition pr_map_of (g : Pull2Issue.groups) (repo : string) : list (Z * list Z) :=
  default [] (Pull2Issue.al_get String.eqb repo g).

Definition issues_at (g : Pull2Issue.groups) (repo : string) (pr : Z) : list Z :=
  default [] (Pull2Issue.al_get Z.eqb pr (pr_map_of g repo)).

(** No key is repeated, at either level. *)
Definition wf (g : Pull2Issue.groups) : Prop :=
  NoDup (map fst g) /\ forall r, NoDup (map fst (pr_map_of g r)).

(** The pull requests that the entries give a repository, in input order. *)
Definition prs_of (repo : string) (es : list (string * Z * Z)) : list Z :=
  omap (fun e => if String.eqb (fst (fst e)) repo then Some (snd (fst e)) else None) es.

(** The numbers of a list, each once, in ascending order. *)
Definition ascending (l : list Z) : list Z := merge_sort Z.le (remove_dups l).

(** The records of the file of a repository: its pull requests in
    ascending order, each with its issues in ascending order. *)
Definition records (repo : string) (es : list (string * Z * Z)) : list (Z * list Z) :=
  map (fun pr => (pr, ascending (issues_of repo pr es))) (ascending (prs_of repo es)).

Definition dq : string := String (ascii_of_nat 34) EmptyString.

(** One line of the file: a JSON object with the keys [pull] and
    [issue]. *)
Definition record_line (rec : Z * list Z) : string :=
  "{" +:+ dq +:+ "pull" +:+ dq +:+ ": " +:+ pretty (fst rec) +:+ ", "
      +:+ dq +:+ "issue" +:+ dq +:+ ": ["
      +:+ String.concat ", " (map pretty (snd rec)) +:+ "]}".

Definition file_text (recs : list (Z * list Z)) : string :=
  fold_right (fun rec text => record_line rec +:+ nl +:+ text) EmptyString recs.

End Pull2IssueSpec.

(** ** Properties of computations *)

(** A computation is quiet when the calls it logs neither acquire nor
    release a session. *)
Definition quiet {R : Runtime} {A} (m : M R A) : Prop :=
  forall w, exists mid,
    w_trace (fst (m w)) = w_trace w ++ mid /\ acquired mid = 0 /\ released mid = 0.

(** A computation that leaves the files alone. *)
Definition fs_neutral {R : Runtime} {A} (m : M R A) : Prop :=
  forall w, w_fs (fst (m w)) = w_fs w /\ w_seen (fst (m w)) = w_seen w.

(** ** Sample inputs *)

Definition sample_jsonl : string :=
  "null" +:+ nl +:+ nl +:+ "  {} " +:+ String (ascii_of_nat 13) nl +:+ "   " +:+ nl +:+ "null".

(** A name of 300 characters, more than a directory entry can hold. *)
Definition long_name : string := String.concat EmptyString (repeat "a" 300).

(** Two diff texts: headers for two Go files and a file without an
    extension in the first; in the second a line that is no header,
    because it does not begin with [diff], and a header for a Python
    file. *)
Definition sample_patch : string :=
  "diff --git a/cmd/z.go b/cmd/z.go" +:+ nl +:+ "--- a/cmd/z.go" +:+ nl
  +:+ "+++ b/cmd/z.go" +:+ nl +:+ "diff --git a/pkg/w.GO b/pkg/w.GO" +:+ nl
  +:+ "diff --git a/README b/README".

Definition sample_test_patch : string :=
  " diff --git a/s.rs b/s.rs" +:+ nl +:+ "diff --git a/t.py b/t.py".

Definition sample_bad_jsonl : string :=
  "null" +:+ nl +:+ nl +:+ "{oops" +:+ String (ascii_of_nat 13) nl +:+ "nope".

Definition sample_issue_pr_map : list pyval :=
  let item r i p := VDict [("repo", VStr r); ("issue_number", VInt i); ("pr_number", VInt p)] in
  [item "o/b" 7 20; item "o/a" 3 9; item "o/b" 5 20; item "o/b" 7 20; item "o/b" 1 11]%Z.

(** ** Further readings of traces and files *)

(** The calls that the body of a variant run makes, apart from the session
    they are made on and from what they return. *)
Inductive call_kind : Type :=
| KApplyPatch (text : string)
| KSendCommand (cmd : string)
| KRunParser (parser : string).

Definition kind_of {C} (e : event C) : option call_kind :=
  match e with
  | EvApplyPatch _ text => Some (KApplyPatch text)
  | EvSendCommand _ cmd _ => Some (KSendCommand cmd)
  | EvRunParser parser _ _ => Some (KRunParser parser)
  | EvAcquire _ _ _ => None
  | EvCleanup _ => None
  end.

(** The calls of a complete variant run, in order. *)
Definition variant_plan (test_patch patch rebuild_cmd test_cmd print_cmd : string)
    (parser : pyval) (apply_solution : bool) : list call_kind :=
  (if nonempty (PyStr.strip test_patch) then [KApplyPatch test_patch] else [])
  ++ (if apply_solution && nonempty (PyStr.strip patch) then [KApplyPatch patch] else [])
  ++ (if nonempty rebuild_cmd then [KSendCommand rebuild_cmd] else [])
  ++ [KSendCommand test_cmd; KSendCommand print_cmd; KRunParser (Py.str parser)].

(** A computation follows a plan when the calls it logs are the plan if it
    returns, and a prefix of the plan if it raises. *)
Definition follows {R : Runtime} {A} (plan : list call_kind) (m : M R A) : Prop :=
  forall w, exists mid,
    w_trace (fst (m w)) = w_trace w ++ mid /\
    match snd (m w) with
    | Ok _ => omap kind_of mid = plan
    | Raise _ => omap kind_of mid `prefix_of` plan
    end.

(** A computation that releases every session it acquires, and acquires at
    most [n]. *)
Definition sessions {R : Runtime} {A} (n : nat) (m : M R A) : Prop :=
  forall w, exists new,
    w_trace (fst (m w)) = w_trace w ++ new /\
    released new = acquired new /\ acquired new <= n.

(** The text of an artifact: a log without trailing whitespace, a line
    feed and the marker line. *)
Definition marker_line (failed : bool) : string :=
  if failed then "echo OMNIGRIL_EXIT_CODE=1" else "echo OMNIGRIL_EXIT_CODE=0".

Definition judge_output (text : string) : Prop :=
  exists log failed,
    text = log +:+ nl +:+ marker_line failed +:+ nl /\ PyStr.rstrip log = log.

(** What an evaluation may do to the files: create missing ancestors of the
    instance directory (and the directory itself), and write the allowed
    paths. Everything else stays as it is. *)
Definition fs_grows (inst : path) (allowed : list path) (fs fs' : FS.t) : Prop :=
  forall q : path,
    fs' !! q = fs !! q
    \/ (q `prefix_of` inst /\ fs !! q = None /\ fs' !! q = Some Dir)
    \/ q ∈ allowed.

Definition confined {R : Runtime} {A} (inst : path) (allowed : list path) (m : M R A) : Prop :=
  forall w, fs_grows inst allowed (w_fs w) (w_fs (fst (m w))).

(** A path without a [..] component. The file system takes a path by its
    components, and only such a path names its file by them. *)
Definition no_dotdot (p : path) : bool :=
  forallb (fun c => negb (String.eqb c "..")) p.

(** ** Reading commands *)

(** An entry of a command list that [_join_cmds] passes over: [None], or a
    value whose text is blank. *)
Definition ignorable (c : pyval) : Prop :=
  c = VNone \/ PyStr.strip (Py.str c) = EmptyString.

(** A text without whitespace at either end. *)
Definition trimmed (s : string) : Prop := PyStr.lstrip s = s /\ PyStr.rstrip s = s.

(** ** Reading the report *)

Module ReportSpec.

(** The rows that have failing-to-passing tests, and what the top list
    shows of a row. *)
Definition f2p_rows (rows : list Report.Row) : list Report.Row :=
  filter (fun r => 0 <? length (Report.fail_to_pass r)) rows.

Definition top_item (r : Report.Row) : string * nat :=
  (Report.instance_id r, length (Report.fail_to_pass r)).

(** The order of the top list: more tests first, then the identifier. *)
Definition top_le (x y : string * nat) : Prop :=
  snd y < snd x \/ (snd x = snd y /\ String.leb (fst x) (fst y) = true).

(** How many rows have exactly [k] failing-to-passing tests. *)
Definition rows_of_size (k : nat) (rows : list Report.Row) : nat :=
  length (List.filter (fun r => length (Report.fail_to_pass r) =? k) rows).

Definition ptp_size (r : Report.Row) : nat := length (Report.pass_to_pass r).

End ReportSpec.

(** ** The rows of the fail-to-pass count *)

Module Rows.

(** [type(v).__name__] *)
Definition type_name (v : pyval) : string :=
  match v with
  | VNone => "NoneType"
  | VBool _ => "bool"
  | VInt _ => "int"
  | VStr _ => "str"
  | VList _ => "list"
  | VDict _ => "dict"
  end.

Definition _coerce_list_str (x : pyval) : list string :=
  match x with
  | VNone => []
  | VList l => flat_map (fun v => match v with VNone => [] | _ => [Py.str v] end) l
  | _ => [Py.str x]
  end.

(** [obj.get] exists on a dictionary only. *)
Definition _parse_row (obj : pyval) : result Report.Row :=
  match obj with
  | VDict d =>
      let instance_id := Py.get d "instance_id" in
      if negb (Py.truthy instance_id)
      then Raise (SystemExit "Missing 'instance_id' in a validated_instances row.")
      else Ok (Report.mk_row (Py.str instance_id)
                 (_coerce_list_str (Py.get d "FAIL_TO_PASS"))
                 (_coerce_list_str (Py.get d "PASS_TO_PASS")))
  | _ => Raise (AttributeError ("'" +:+ type_name obj +:+ "' object has no attribute 'get'"))
  end.

Section Reader.

Variable json_loads : string -> pyval + string.

(** The loop of [main] over the generator [_iter_jsonl]: the row of a line
    is built before the next line is read. *)
Fixpoint iter_rows (shown : string) (lineno : nat) (lines : list string)
    (rows : list Report.Row) : result (list Report.Row) :=
  match lines with
  | [] => Ok rows
  | line :: rest =>
      let s := PyStr.strip line in
      if negb (nonempty s) then iter_rows shown (S lineno) rest rows
      else match json_loads s with
           | inl obj =>
               match _parse_row obj with
               | Ok row => iter_rows shown (S lineno) rest (rows ++ [row])
               | Raise e => Raise e
               end
           | inr e =>
               Raise (SystemExit ("Invalid JSON on line " +:+ pretty lineno +:+ " of "
                                  +:+ shown +:+ ": " +:+ e))
           end
  end.

(** Lines 83 to 110 of [main], for a resolved input path. *)
Definition read_rows (fs : FS.t) (in_path : path) : result (list Report.Row) :=
  match FS.stat_exists fs in_path with
  | Raise e => Raise e
  | Ok false => Raise (SystemExit ("Input not found: " +:+ Pathlib.to_str in_path))
  | Ok true =>
      match FS.open_r fs in_path with
      | Ok text => iter_rows (Pathlib.to_str in_path) 1 (file_lines text) []
      | Raise e => Raise e
      end
  end.

Definition main (fs : FS.t) (in_path : path) (top_n : Z) : result Report.report :=
  Report.rbind (read_rows fs in_path) (fun rows => Report.build_report rows top_n).

End Reader.

(** A small [json.loads] for the sample runs: [null], and a row spelled
    [#] and its identifier, with one failing-to-passing test. *)
Definition sample_loads (s : string) : pyval + string :=
  match s with
  | String "#" name =>
      inl (VDict [("instance_id", VStr name); ("FAIL_TO_PASS", VList [VStr "t"])])
  | _ => if String.eqb s "null" then inl VNone
         else inr "Expecting value: line 1 column 1 (char 0)"
  end.

End Rows.

(** ** The loader of the dataset preparation *)

Module Step3.

Definition JSONDecodeError (msg : string) : exn := mk_exn true "JSONDecodeError" msg.

Section Loader.

Variable json_loads : string -> pyval + string.

(** The loop of [load_jsonl]: a line that does not parse raises the error
    of [json.loads] itself. *)
Fixpoint load_lines (lines : list string) (out : list pyval) : result (list pyval) :=
  match lines with
  | [] => Ok out
  | line :: rest =>
      let line := PyStr.strip line in
      if negb (nonempty line) then load_lines rest out
      else match json_loads line with
           | inl v => load_lines rest (out ++ [v])
           | inr e => Raise (JSONDecodeError e)
           end
  end.

Definition load_jsonl (fs : FS.t) (p : path) : result (list pyval) :=
  match FS.open_r fs p with
  | Ok text => load_lines (file_lines text) []
  | Raise e => Raise e
  end.

End Loader.

(** [d.setdefault(k, v)]: a key that is present keeps its value. *)
Definition setdefault (k : string) (v : pyval) (d : pydict) : pydict :=
  match Py.lookup k d with
  | Some _ => d
  | None => d ++ [(k, v)]
  end.

(** [d[k] = v]: a key that is present keeps its place. *)
Fixpoint set_item (k : string) (v : pyval) (d : pydict) : pydict :=
  match d with
  | [] => [(k, v)]
  | (k', v') :: d' =>
      if String.eqb k' k then (k', v) :: d' else (k', v') :: set_item k v d'
  end.

(** A text given to [infer_language_from_diff_text]: a falsy value is
    passed over, as the empty text is, and [findall] raises on any other
    value that is not a string. *)
Definition diff_text (v : pyval) : result string :=
  match v with
  | VStr s => Ok s
  | _ =>
      if Py.truthy v
      then Raise (Pull2Issue.TypeError ("expected string or bytes-like object, got '"
                                        +:+ Rows.type_name v +:+ "'"))
      else Ok EmptyString
  end.

(** Lines 113 to 118 of [main]: the merged form of one instance. *)
Definition merge_instance (inst : pyval) : result pydict :=
  match inst with
  | VDict d =>
      Report.rbind (diff_text (Py.get_default d "patch" (VStr EmptyString))) (fun patch =>
      Report.rbind (diff_text (Py.get_default d "test_patch" (VStr EmptyString)))
        (fun test_patch =>
      let lang := fst (Lang.infer_language_from_diff_text [patch; test_patch]) in
      let d := setdefault "created_at" (Py.or_ (Py.get d "created_at") (VStr EmptyString)) d in
      Ok (set_item "language" (VStr lang) d)))
  | _ => Raise (AttributeError ("'" +:+ Rows.type_name inst
                                +:+ "' object has no attribute 'get'"))
  end.

End Step3.

(** The lines of a text that are not blank. *)
Definition nonblank_lines (text : string) : list string :=
  List.filter (fun l => nonempty (PyStr.strip l)) (file_lines text).

(** How often an extension occurs in the header paths of the texts. *)
Definition ext_count (ext : string) (texts : list string) : nat :=
  length (List.filter (fun p => String.eqb (Lang.path_ext p) ext)
                      (LangSpec.header_paths texts)).

(** ** Entries of the issue-PR map that the script refuses or passes over *)

Module Entries.

(** The test of line 96 of the script. *)
Definition bad_entry (it : pydict) : bool :=
  negb (Py.truthy (Py.get it "repo"))
  || match Py.get it "issue_number" with VNone => true | _ => false end
  || match Py.get it "pr_number" with VNone => true | _ => false end.

Section Usable.

Variable int_of_text : string -> option Z.

Definition converts (v : pyval) : bool :=
  match Pull2Issue.py_int int_of_text v with
  | Ok _ => true
  | Raise _ => false
  end.

(** An entry that the script can use. Anything that is not an object is
    passed over; an object needs a repository whose text has a slash and
    two numbers that [int] accepts. *)
Definition usable (v : pyval) : bool :=
  match v with
  | VDict it =>
      negb (bad_entry it)
      && converts (Py.get it "pr_number") && converts (Py.get it "issue_number")
      && match Pull2Issue.split_once (Py.str (Py.get it "repo")) with
         | Some _ => true
         | None => false
         end
  | _ => true
  end.

End Usable.

End Entries.

(** ** The issue-PR script on the file system

    Lines 100 to 120 of [main], with the directories and the files that
    the second loop creates. *)

Module Pull2IssueFS.

Definition prs_dir_of (out_root : path) (owner name : string) : path :=
  Pathlib.div (Pathlib.div out_root (owner +:+ "__" +:+ name)) "prs".

Definition tasks_dir_of (out_root : path) (owner name : string) : path :=
  Pathlib.div (Pathlib.div out_root (owner +:+ "__" +:+ name)) "tasks".

Definition pull2issue_path_of (out_root : path) (cutoff_date owner name : string) : path :=
  Pathlib.div (prs_dir_of out_root owner name)
              (name +:+ "-pull2issue-" +:+ cutoff_date +:+ ".jsonl").

(** One round of the second loop: the two directories, then the file,
    opened for writing and written. *)
Definition write_repo (out_root : path) (cutoff_date : string) (g : Pull2Issue.groups)
    (repo : string) (fs : FS.t) : FS.t * result path :=
  match Pull2Issue.split_once repo with
  | None => (fs, Raise (Report.ValueError "not enough values to unpack (expected 2, got 1)"))
  | Some (owner, name) =>
      let pr_map := default [] (Pull2Issue.al_get String.eqb repo g) in
      match FS.mkdir_parents (prs_dir_of out_root owner name) fs with
      | (fs1, Raise e) => (fs1, Raise e)
      | (fs1, Ok _) =>
          match FS.mkdir_parents (tasks_dir_of out_root owner name) fs1 with
          | (fs2, Raise e) => (fs2, Raise e)
          | (fs2, Ok _) =>
              let p := pull2issue_path_of out_root cutoff_date owner name in
              match FS.open_w p fs2 with
              | (fs3, Raise e) => (fs3, Raise e)
              | (fs3, Ok _) =>
                  (FS.write_close p (Pull2Issue.pull2issue_text pr_map) fs3, Ok p)
              end
          end
      end
  end.

(** The second loop: the repositories and the paths written, in order. *)
Fixpoint write_repos (out_root : path) (cutoff_date : string) (g : Pull2Issue.groups)
    (repos : list string) (fs : FS.t) : FS.t * result (list (string * path)) :=
  match repos with
  | [] => (fs, Ok [])
  | repo :: rest =>
      match write_repo out_root cutoff_date g repo fs with
      | (fs1, Raise e) => (fs1, Raise e)
      | (fs1, Ok p) =>
          match write_repos out_root cutoff_date g rest fs1 with
          | (fs2, Raise e) => (fs2, Raise e)
          | (fs2, Ok written) => (fs2, Ok ((repo, p) :: written))
          end
      end
  end.

Section Main.

Variable int_of_text : string -> option Z.

Definition main (items : pyval) (out_root : path) (cutoff_date : string) (fs : FS.t)
    : FS.t * result (list (string * path)) :=
  match items with
  | VList l =>
      match Pull2Issue.collect int_of_text l [] with
      | Raise e => (fs, Raise e)
      | Ok g =>
          match FS.mkdir_parents out_root fs with
          | (fs1, Raise e) => (fs1, Raise e)
          | (fs1, Ok _) =>
              write_repos out_root cutoff_date g
                (@merge_sort _ Pull2Issue.str_le Pull2Issue.str_le_dec (map fst g)) fs1
          end
      end
  | _ => (fs, Raise (SystemExit "Input JSON must be a list."))
  end.

End Main.

End Pull2IssueFS.

(** ** Printing a command line *)

Module Shell.

(** The characters for which [_shell_join] quotes an argument. *)
Definition special : list ascii :=
  [ " "%char; ascii_of_nat 9; ascii_of_nat 10; PyStr.dquote; PyStr.squote; PyStr.backslash;
    "$"%char; "&"%char; "|"%char; "("%char; ")"%char; "<"%char; ">"%char; ";"%char ].

(** [any(c in a for c in special)] *)
Definition needs_quotes (a : string) : bool :=
  existsb (fun c => PyStr.contains_char c a) special.

(** [a.replace(sq, sq + dq + sq + dq + sq)] for the single quote [sq] and the
    double quote [dq]. *)
Fixpoint escape_quotes (a : string) : string :=
  match a with
  | EmptyString => EmptyString
  | String c a' =>
      if Ascii.eqb c PyStr.squote
      then String PyStr.squote (String PyStr.dquote (String PyStr.squote
             (String PyStr.dquote (String PyStr.squote (escape_quotes a')))))
      else String c (escape_quotes a')
  end.

Definition quote_arg (a : string) : string :=
  if needs_quotes a
  then String PyStr.squote (escape_quotes a +:+ String PyStr.squote EmptyString)
  else a.

Definition _shell_join (argv : list string) : string :=
  PyStr.join " " (map quote_arg argv).

End Shell.

(** How a POSIX shell splits a line into words, for lines made of blanks,
    single-quoted and double-quoted text and inert characters: spaces and
    tabs separate words, a single quote opens literal text up to the next single
    quote, a double quote opens text up to the next double quote, and quoted
    and bare text that touch make one word. A line with a character that
    the shell acts upon where it stands, or with an open quote, is not
    split. *)

Module ShellWords.

Inductive mode : Type := Bare | Single | Double.

Definition is_blank (c : ascii) : bool :=
  Ascii.eqb c " " || Ascii.eqb c (ascii_of_nat 9).

(** The characters that the shell acts upon in bare text, other than the
    blanks and the quotes (a line feed ends the command), and those that it
    acts upon between double quotes. *)
Definition active : list ascii :=
  [ ascii_of_nat 10; PyStr.backslash; "$"%char; "&"%char; "|"%char; "("%char; ")"%char; "<"%char; ">"%char;
    ";"%char; "`"%char; "*"%char; "?"%char; "["%char; "#"%char; "~"%char; "!"%char;
    "{"%char ].

Definition active_in_double : list ascii := [ PyStr.backslash; "$"%char; "`"%char ].

Definition snoc (cur : option string) (c : ascii) : option string :=
  Some (default EmptyString cur +:+ String c EmptyString).

Definition emit (cur : option string) (ws : option (list string)) : option (list string) :=
  match cur with
  | Some w => option_map (cons w) ws
  | None => ws
  end.

(** [cur] is the word being read, if one has been started. *)
Fixpoint words (m : mode) (cur : option string) (s : string) : option (list string) :=
  match s with
  | EmptyString =>
      match m with
      | Bare => emit cur (Some [])
      | _ => None
      end
  | String c s' =>
      match m with
      | Bare =>
          if is_blank c then emit cur (words Bare None s')
          else if Ascii.eqb c PyStr.squote
          then words Single (Some (default EmptyString cur)) s'
          else if Ascii.eqb c PyStr.dquote
          then words Double (Some (default EmptyString cur)) s'
          else if existsb (Ascii.eqb c) active then None
          else words Bare (snoc cur c) s'
      | Single =>
          if Ascii.eqb c PyStr.squote then words Bare cur s'
          else words Single (snoc cur c) s'
      | Double =>
          if Ascii.eqb c PyStr.dquote then words Bare cur s'
          else if existsb (Ascii.eqb c) active_in_double then None
          else words Double (snoc cur c) s'
      end
  end.

Definition sh_words (line : string) : option (list string) := words Bare None line.

(** An argument that can stand bare: it holds none of the active
    characters. *)
Definition bare_safe (a : string) : bool :=
  negb (existsb (fun c => PyStr.contains_char c a) active).

End ShellWords.

(** A record with failing-to-passing tests, as the count reads it: its
    [FAIL_TO_PASS] is a list with an entry that is not null, or any other
    value that is not null. *)
Definition is_null (v : pyval) : bool :=
  match v with VNone => true | _ => false end.

Definition has_f2p (obj : pyval) : bool :=
  match obj with
  | VDict d =>
      match Py.get d "FAIL_TO_PASS" with
      | VNone => false
      | VList l => existsb (fun v => negb (is_null v)) l
      | _ => true
      end
  | _ => false
  end.

(** * Properties *)

(** ** Sample runs of the embedding *)

Example str_examples :
  Py.str (VInt (-12)) = "-12" /\ Py.str (VStr "a b") = "a b" /\
  Py.str (VList [VStr "it's"; VNone; VBool true])
  = String "[" (String PyStr.dquote ("it's" +:+ String PyStr.dquote ", None, True]")) /\
  PyStr.rstrip ("ok " +:+ String (ascii_of_nat 10) " x  " +:+ String (ascii_of_nat 9) EmptyString)
  = "ok " +:+ String (ascii_of_nat 10) " x" /\
  PyStr.lower "FaIl" = "fail" /\ PyStr.strip "  a b " = "a b".
Proof. repeat split; reflexivity. Qed.

Example suffix_examples :
  Pathlib.suffix "src/a.b/mod.tar.GZ" = ".GZ" /\ Pathlib.suffix ".bashrc" = EmptyString /\
  Pathlib.suffix "dir/file." = EmptyString /\ Pathlib.suffix "a/Makefile" = EmptyString /\
  Pathlib.suffix "a.b." = EmptyString /\ Pathlib.suffix "a..b" = ".b" /\
  Pathlib.suffix "pkg/x.py" = ".py" /\ Pathlib.suffix EmptyString = EmptyString /\
  Pathlib.div ["out"] "a/./b//c" = ["out"; "a"; "b"; "c"] /\
  Pathlib.div ["out"] "/etc/x" = ["etc"; "x"].
Proof. repeat split; reflexivity. Qed.

Example run_good :
  let '(w, r) := _run_one Mock.runtime Mock.good_instance Linux Mock.out 60 false
                   (Mock.world0 ∅) in
  r = Ok ("ok", None) /\
  w_fs w !! ["out"; "repo__1"; "test_output_prev_apply.txt"]
  = Some (File ("$ cat log!" +:+ nl +:+ "echo OMNIGRIL_EXIT_CODE=1" +:+ nl)) /\
  w_trace w =
  [ EvAcquire (VStr "img") "repo__1" (Some "img");
    EvApplyPatch "img" "diff";
    EvSendCommand "img" "pytest -q ; echo done!"
      (Some (mk_cmdres (Some (VStr ("$ pytest -q ; echo done! " +:+ nl +:+ nl))) "result"));
    EvSendCommand "img" "cat log!"
      (Some (mk_cmdres (Some (VStr ("$ cat log! " +:+ nl +:+ nl))) "result"));
    EvRunParser "pytest" (VStr ("$ cat log! " +:+ nl +:+ nl))
      (Some [("test_a", VStr "pass"); ("test_b", VStr "FAIL")]);
    EvCleanup "img";
    EvAcquire (VStr "img") "repo__1" (Some "img");
    EvApplyPatch "img" "diff";
    EvApplyPatch "img" "diff2";
    EvSendCommand "img" "pytest -q ; echo done!"
      (Some (mk_cmdres (Some (VStr ("$ pytest -q ; echo done! " +:+ nl +:+ nl))) "result"));
    EvSendCommand "img" "cat log!"
      (Some (mk_cmdres (Some (VStr ("$ cat log! " +:+ nl +:+ nl))) "result"));
    EvRunParser "pytest" (VStr ("$ cat log! " +:+ nl +:+ nl))
      (Some [("test_a", VStr "pass"); ("test_b", VStr "FAIL")]);
    EvCleanup "img" ].
Proof. vm_compute. repeat split; reflexivity. Qed.

Example infer_examples :
  let d p := "diff --git a/" +:+ p +:+ " b/" +:+ p +:+ nl in
  Lang.infer_language_from_diff_text
    [d "src/a.ts" +:+ "+x" +:+ nl +:+ d "src/b.TSX" +:+ d "lib/c.py"; d "README.md" +:+ d "t/d.go"]
  = ("JS/TS", [(".ts", 1); (".tsx", 1); (".py", 1); (".md", 1); (".go", 1)]) /\
  Lang.infer_language_from_diff_text [d "x.go" +:+ d "y.rs"] = ("Go", [(".go", 1); (".rs", 1)]) /\
  Lang.infer_language_from_diff_text [EmptyString; EmptyString] = ("Python", []) /\
  Lang.infer_language_from_diff_text [d "README.md"] = ("Python", [(".md", 1)]).
Proof. repeat split; reflexivity. Qed.

Example report_example :
  Report.build_report
    [ Report.mk_row "b" ["t1"; "t2"] ["p"]; Report.mk_row "c" [] ["p"; "q"; "r"];
      Report.mk_row "a" ["t1"; "t2"] []; Report.mk_row "d" ["t"] ["p"] ] 2
  = Ok (Report.mk_report 4 3 (3 # 4) [(1, 1); (2, 2)] [("a", 2); ("b", 2)] 0 3).
Proof. reflexivity. Qed.

Example pull2issue_example :
  let item r i p := VDict [("repo", VStr r); ("issue_number", VInt i); ("pr_number", VInt p)] in
  Pull2Issue.main (fun _ => None)
    (VList [item "o/b" 7 20; item "o/a" 3 9; VInt 4; item "o/b" 5 20; item "o/b" 7 20;
            item "o/b" 1 11]%Z)
    ["in"] "20090101"
  = Ok [ ("o/a", ["in"; "o__a"; "prs"; "a-pull2issue-20090101.jsonl"],
          "{" +:+ Pull2Issue.quoted "pull" +:+ ": 9, " +:+ Pull2Issue.quoted "issue"
              +:+ ": [3]}" +:+ nl);
         ("o/b", ["in"; "o__b"; "prs"; "b-pull2issue-20090101.jsonl"],
          "{" +:+ Pull2Issue.quoted "pull" +:+ ": 11, " +:+ Pull2Issue.quoted "issue"
              +:+ ": [1]}" +:+ nl +:+
          "{" +:+ Pull2Issue.quoted "pull" +:+ ": 20, " +:+ Pull2Issue.quoted "issue"
              +:+ ": [5, 7]}" +:+ nl) ].
Proof. vm_compute. reflexivity. Qed.

(** ** The state-and-exception monad *)

Section MonadFacts.

Context {R : Runtime}.

Lemma bind_ok_inv {A B} (m : M R A) (k : A -> M R B) w w' b :
  bind R m k w = (w', Ok b) ->
  exists w1 a, m w = (w1, Ok a) /\ k a w1 = (w', Ok b).
Proof.
  unfold bind. destruct (m w) as [w1 [a|e]] eqn:Hm; intros H.
  - exists w1, a. split; [reflexivity | exact H].
  - discriminate H.
Qed.

Lemma call_spec {A} (f : Env R -> Env R * result A) log w :
  call R f log w =
  (mk_world (fst (f (w_env w))) (w_fs w) (w_seen w) (w_trace w ++ [log (snd (f (w_env w)))]),
   snd (f (w_env w))).
Proof. unfold call. destruct (f (w_env w)); reflexivity. Qed.

Lemma acquired_app (e1 e2 : list (event (container R))) :
  acquired (e1 ++ e2) = acquired e1 + acquired e2.
Proof.
  induction e1 as [|ev e1 IH]; [reflexivity|].
  destruct ev as [? ? [c|]| | | |]; simpl; rewrite IH; reflexivity.
Qed.

Lemma released_app (e1 e2 : list (event (container R))) :
  released (e1 ++ e2) = released e1 + released e2.
Proof.
  induction e1 as [|ev e1 IH]; [reflexivity|].
  destruct ev; simpl; rewrite IH; reflexivity.
Qed.

Lemma quiet_ret {A} (a : A) : quiet (ret R a).
Proof. intros w. exists []. simpl. rewrite app_nil_r. auto. Qed.

Lemma quiet_raise {A} e : quiet (@raise R A e).
Proof. intros w. exists []. simpl. rewrite app_nil_r. auto. Qed.

Lemma quiet_bind {A B} (m : M R A) (k : A -> M R B) :
  quiet m -> (forall a, quiet (k a)) -> quiet (bind R m k).
Proof.
  intros Hm Hk w. unfold bind.
  destruct (Hm w) as (mid1 & Ht1 & Ha1 & Hr1).
  destruct (m w) as [w1 [a|e]]; simpl in Ht1.
  - destruct (Hk a w1) as (mid2 & Ht2 & Ha2 & Hr2).
    exists (mid1 ++ mid2). rewrite Ht2, Ht1, app_assoc, acquired_app, released_app.
    repeat split; lia.
  - exists mid1. simpl. auto.
Qed.

Lemma quiet_call {A} (f : Env R -> Env R * result A) log :
  (forall r, acquired [log r] = 0 /\ released [log r] = 0) -> quiet (call R f log).
Proof.
  intros Hlog w. rewrite call_spec. simpl.
  exists [log (snd (f (w_env w)))]. split; [reflexivity | apply Hlog].
Qed.

Lemma quiet_if {A} (b : bool) (m1 m2 : M R A) :
  quiet m1 -> quiet m2 -> quiet (if b then m1 else m2).
Proof. destruct b; auto. Qed.

End MonadFacts.

Create HintDb quiet.
#[local] Hint Resolve quiet_ret quiet_raise quiet_bind quiet_call quiet_if : quiet.

(** ** The variant runner *)

Section VariantFacts.

Context {R : Runtime}.
Variables (image : pyval) (instance_id : string) (plat : platform)
          (timeout_s : Z) (test_patch patch : string)
          (rebuild_cmd test_cmd print_cmd : string) (parser : pyval).

Local Abbreviation body := (variant_body R test_patch patch rebuild_cmd test_cmd print_cmd parser).
Local Abbreviation variant :=
  (run_variant R image instance_id plat timeout_s test_patch patch
               rebuild_cmd test_cmd print_cmd parser).

Lemma quiet_apply_patch c text : quiet (do_apply_patch R c text).
Proof. apply quiet_call. intros r. split; reflexivity. Qed.

Lemma quiet_send_command c cmd : quiet (do_send_command R c cmd).
Proof. apply quiet_call. intros r. split; reflexivity. Qed.

Lemma quiet_run_parser p raw : quiet (do_run_parser R p raw).
Proof. apply quiet_call. intros r. split; reflexivity. Qed.

Lemma quiet_rstrip raw : quiet (py_rstrip R raw).
Proof. destruct raw; simpl; auto with quiet. Qed.

Lemma quiet_variant_body c apply_solution : quiet (body c apply_solution).
Proof.
  unfold variant_body.
  repeat (first [ apply quiet_bind | apply quiet_if | apply quiet_ret
                | apply quiet_apply_patch | apply quiet_send_command
                | apply quiet_run_parser | apply quiet_rstrip | intros ? ]).
Qed.

(** What a variant run that returns has returned: the stripped output of
    the print command, a line feed and the marker line. *)
Lemma variant_body_returns c apply_solution w w' out :
  body c apply_solution w = (w', Ok out) ->
  exists env1 env2 env3 res raw status_map,
    send_command R c print_cmd env1 = (env2, Ok res) /\
    raw_of res = VStr raw /\
    run_parser R (Py.str parser) (VStr raw) env2 = (env3, Ok status_map) /\
    w_env w' = env3 /\
    out = PyStr.rstrip raw +:+ nl +:+ "echo OMNIGRIL_EXIT_CODE="
          +:+ (if has_fail status_map then "1" else "0") +:+ nl.
Proof.
  unfold variant_body. intros H.
  apply bind_ok_inv in H as (w1 & [] & _ & H).
  apply bind_ok_inv in H as (w2 & [] & _ & H).
  apply bind_ok_inv in H as (w3 & [] & _ & H).
  apply bind_ok_inv in H as (w4 & res0 & _ & H).
  apply bind_ok_inv in H as (w5 & res & Hsend & H).
  apply bind_ok_inv in H as (w6 & sm & Hparse & H).
  apply bind_ok_inv in H as (w7 & stripped & Hstrip & H).
  unfold ret in H. injection H as <- <-.
  fold (raw_of res) in Hparse, Hstrip.
  destruct (raw_of res) as [| | |raw| |] eqn:Hraw; try discriminate Hstrip.
  simpl in Hstrip. unfold ret in Hstrip. injection Hstrip as <- <-.
  unfold do_send_command in Hsend. rewrite call_spec in Hsend.
  unfold do_run_parser in Hparse. rewrite call_spec in Hparse.
  injection Hsend as <- Hs. injection Hparse as <- Hp.
  simpl in Hp. simpl.
  exists (w_env w4), (fst (send_command R c print_cmd (w_env w4))),
         (fst (run_parser R (Py.str parser) (VStr raw)
                 (fst (send_command R c print_cmd (w_env w4))))), res, raw, sm.
  repeat split.
  - rewrite <- Hs. apply surjective_pairing.
  - exact Hraw.
  - rewrite <- Hp. apply surjective_pairing.
  - destruct (has_fail sm); reflexivity.
Qed.

End VariantFacts.

Lemma lower_char_is (x : ascii) (c : ascii) :
  In x ["f"; "a"; "i"; "l"]%char ->
  Ascii.eqb (PyStr.lower_char c) x
  = Ascii.eqb c x || Ascii.eqb c (ascii_of_nat (nat_of_ascii x - 32)).
Proof.
  intros Hx. simpl in Hx.
  destruct c as [[] [] [] [] [] [] [] []];
    (destruct Hx as [<-|[<-|[<-|[<-|[]]]]]; vm_compute; reflexivity).
Qed.

(** Lower-casing gives [fail] exactly for the four letters in either case. *)
Lemma lower_is_fail (s : string) :
  String.eqb (PyStr.lower s) "fail" = is_fail_word s.
Proof.
  destruct s as [|c1 [|c2 [|c3 [|c4 [|c5 s]]]]];
    cbn [PyStr.lower String.eqb is_fail_word];
    rewrite ?lower_char_is by (simpl; auto);
    change (ascii_of_nat (nat_of_ascii "f" - 32)) with "F"%char;
    change (ascii_of_nat (nat_of_ascii "a" - 32)) with "A"%char;
    change (ascii_of_nat (nat_of_ascii "i" - 32)) with "I"%char;
    change (ascii_of_nat (nat_of_ascii "l" - 32)) with "L"%char;
    repeat match goal with
           | |- context [Ascii.eqb ?a ?b] => destruct (Ascii.eqb a b)
           end;
    reflexivity.
Qed.

Lemma has_fail_spec (status_map : pydict) :
  has_fail status_map = existsb (fun kv => is_fail_word (Py.str (snd kv))) status_map.
Proof.
  unfold has_fail. induction status_map as [|kv sm IH]; [reflexivity|].
  simpl. rewrite lower_is_fail, IH. reflexivity.
Qed.

Section VariantTheorems.

Context {R : Runtime}.
Variables (image : pyval) (instance_id : string) (plat : platform)
          (timeout_s : Z) (test_patch patch : string)
          (rebuild_cmd test_cmd print_cmd : string) (parser : pyval).

Local Abbreviation body := (variant_body R test_patch patch rebuild_cmd test_cmd print_cmd parser).
Local Abbreviation variant :=
  (run_variant R image instance_id plat timeout_s test_patch patch
               rebuild_cmd test_cmd print_cmd parser).

(** C1. A variant run that returns has returned the log of the print
    command with its trailing whitespace trimmed, a line feed, and the
    line [echo OMNIGRIL_EXIT_CODE=1] when some value of the status mapping
    is [fail] in any letter case, [echo OMNIGRIL_EXIT_CODE=0] otherwise;
    an empty status mapping gives 0. *)
Theorem run_variant_output label apply_solution w w' out :
  variant label apply_solution w = (w', Ok out) ->
  exists c env1 env2 env3 res raw status_map,
    send_command R c print_cmd env1 = (env2, Ok res) /\
    raw_of res = VStr raw /\
    run_parser R (Py.str parser) (VStr raw) env2 = (env3, Ok status_map) /\
    out = PyStr.rstrip raw +:+ nl
          +:+ (if existsb (fun kv => is_fail_word (Py.str (snd kv))) status_map
               then "echo OMNIGRIL_EXIT_CODE=1" else "echo OMNIGRIL_EXIT_CODE=0")
          +:+ nl /\
    (status_map = [] ->
     out = PyStr.rstrip raw +:+ nl +:+ "echo OMNIGRIL_EXIT_CODE=0" +:+ nl).
Proof.
  unfold run_variant. intros H.
  apply bind_ok_inv in H as (w1 & c & _ & H).
  unfold try_finally in H.
  destruct (body c apply_solution w1) as [w2 rb] eqn:Hbody.
  destruct (try_except R (do_cleanup R c) (fun _ => ret R tt) w2) as [w3 [[]|e]];
    [|discriminate H].
  injection H as <- ->.
  apply variant_body_returns in Hbody
    as (env1 & env2 & env3 & res & raw & sm & Hsend & Hraw & Hparse & _ & ->).
  exists c, env1, env2, env3, res, raw, sm.
  rewrite <- has_fail_spec.
  split; [exact Hsend|]. split; [exact Hraw|]. split; [exact Hparse|].
  split.
  - destruct (has_fail sm); reflexivity.
  - intros ->. reflexivity.
Qed.

(** C2. On every exit path of a variant run the session is released
    exactly once per successful acquire. When the acquire raises there is
    no session and no release. Otherwise the trace of the run is the
    acquire, the calls of the body (none of which acquires or releases)
    and one cleanup of the acquired container, made last; the run then
    ends as its body did (an error raised by the body propagates, also
    when the cleanup raised an [Exception], which is swallowed) unless the
    cleanup itself escaped with an exception outside [Exception]. *)
Theorem run_variant_releases_exactly_once label apply_solution w :
  let w' := fst (variant label apply_solution w) in
  let r := snd (variant label apply_solution w) in
  exists new,
    w_trace w' = w_trace w ++ new /\
    released new = acquired new /\
    ((exists e,
        snd (from_launch_image R image instance_id plat timeout_s (w_env w)) = Raise e /\
        r = Raise e /\ new = [EvAcquire image instance_id None])
     \/
     (exists c w1 w2 rb mid rc,
        acquire R image instance_id plat timeout_s w = (w1, Ok c) /\
        body c apply_solution w1 = (w2, rb) /\
        cleanup R c (w_env w2) = (w_env w', rc) /\
        new = [EvAcquire image instance_id (Some c)] ++ mid ++ [EvCleanup c] /\
        acquired mid = 0 /\ released mid = 0 /\
        r = match rc with
            | Ok _ => rb
            | Raise b => if exn_is_exception b then rb else Raise b
            end)).
Proof.
  intros w' r. subst w' r.
  unfold run_variant, bind.
  destruct (acquire R image instance_id plat timeout_s w) as [w1 [c|e]] eqn:Hacq.
  - pose proof (quiet_variant_body test_patch patch rebuild_cmd test_cmd print_cmd
                  parser c apply_solution w1) as (mid & Hmid & Ha & Hr).
    unfold try_finally, try_except, do_cleanup.
    destruct (body c apply_solution w1) as [w2 rb] eqn:Hbody. simpl in Hmid.
    rewrite call_spec.
    unfold acquire in Hacq. rewrite call_spec in Hacq.
    injection Hacq as <- Hc.
    exists ([EvAcquire image instance_id (Some c)] ++ mid ++ [EvCleanup c]).
    assert (Htrace : forall x : world R * result string,
               w_trace (fst x) = w_trace w2 ++ [EvCleanup c] ->
               w_trace (fst x)
               = w_trace w ++ [EvAcquire image instance_id (Some c)] ++ mid ++ [EvCleanup c]).
    { intros x ->. rewrite Hmid. simpl. rewrite Hc. simpl.
      rewrite <- !app_assoc. reflexivity. }
    assert (Hcount : released ([EvAcquire image instance_id (Some c)] ++ mid ++ [EvCleanup c])
                     = acquired ([EvAcquire image instance_id (Some c)] ++ mid ++ [EvCleanup c])).
    { rewrite !released_app, !acquired_app. simpl. lia. }
    destruct (cleanup R c (w_env w2)) as [env3 rc] eqn:Hclean. simpl.
    split; [|split; [exact Hcount|]].
    + destruct rc as [[]|b]; [|destruct (exn_is_exception b)]; apply Htrace; reflexivity.
    + right.
      exists c, (mk_world (fst (from_launch_image R image instance_id plat timeout_s (w_env w)))
                   (w_fs w) (w_seen w)
                   (w_trace w ++ [EvAcquire image instance_id
                                    (result_to_option
                                       (snd (from_launch_image R image instance_id plat
                                               timeout_s (w_env w))))])),
             w2, rb, mid, rc.
      split; [rewrite Hc; reflexivity|].
      split; [rewrite <- Hbody, Hc; reflexivity|].
      split; [destruct rc as [[]|b]; [|destruct (exn_is_exception b)]; exact Hclean|].
      split; [reflexivity|]. split; [exact Ha|]. split; [exact Hr|].
      destruct rc as [[]|b]; [|destruct (exn_is_exception b)]; reflexivity.
  - unfold acquire in Hacq. rewrite call_spec in Hacq.
    injection Hacq as <- He.
    exists [EvAcquire image instance_id None]. simpl.
    split; [rewrite He; reflexivity|]. split; [reflexivity|].
    left. exists e. auto.
Qed.

End VariantTheorems.

(** ** The instance evaluator *)

Section EvaluatorFacts.

Context {R : Runtime}.

(** [_run_one] as the cascade of its tests. *)
Lemma run_one_cascade instance plat out_dir timeout_s overwrite (w : world R) :
  _run_one R instance plat out_dir timeout_s overwrite w =
  if blank FInstanceId instance then (w, Ok ("error", Some (message_of FInstanceId)))
  else
    match skip_error overwrite (w_fs w) out_dir instance with
    | Some e => (w, Raise e)
    | None =>
        if skip_applies overwrite (w_fs w) out_dir instance then (w, Ok ("skip", None))
        else if blank FImage instance then (w, Ok ("error", Some (message_of FImage)))
        else if blank FTestCmds instance then (w, Ok ("error", Some (message_of FTestCmds)))
        else if blank FPrintCmds instance then (w, Ok ("error", Some (message_of FPrintCmds)))
        else if blank FParser instance then (w, Ok ("error", Some (message_of FParser)))
        else try_except R (run_both R instance plat out_dir timeout_s)
                        (on_error R instance out_dir) w
    end.
Proof.
  unfold _run_one, blank.
  fold (instance_id_of instance).
  destruct (negb (nonempty (instance_id_of instance))); [reflexivity|].
  unfold skip_error, skip_applies.
  change (Pathlib.div (Pathlib.div out_dir (instance_id_of instance)) PREV_FILE_NAME)
    with (prev_path_of out_dir instance).
  change (Pathlib.div (Pathlib.div out_dir (instance_id_of instance)) AFTER_FILE_NAME)
    with (after_path_of out_dir instance).
  unfold bind at 1.
  assert (Hstat : forall p,
             path_exists R p w
             = (w, if FS.exists_ (w_fs w) p then Ok true
                   else match FS.stat_error (w_fs w) p with
                        | Some e => Raise e
                        | None => Ok false
                        end)).
  { intros p. unfold path_exists, FS.stat_exists, FS.exists_.
    destruct (FS.node_at (w_fs w) p); reflexivity. }
  destruct overwrite; cbn [negb andb].
  2: { unfold bind at 1. rewrite Hstat.
       destruct (FS.exists_ (w_fs w) (prev_path_of out_dir instance)).
       - rewrite Hstat.
         destruct (FS.exists_ (w_fs w) (after_path_of out_dir instance)); [reflexivity|].
         destruct (FS.stat_error (w_fs w) (after_path_of out_dir instance));
           [reflexivity|]. cbn [andb]. revert w Hstat. intros w _.
         fold (image_of instance).
         destruct (negb (Py.truthy (image_of instance))); [reflexivity|].
         destruct (negb (nonempty (_join_cmds (Py.get instance "test_cmds")))); [reflexivity|].
         destruct (negb (nonempty (_join_cmds (Py.get instance "print_cmds")))); [reflexivity|].
         fold (parser_of instance).
         destruct (negb (nonempty (PyStr.strip (Py.str (parser_of instance))))); reflexivity.
       - destruct (FS.stat_error (w_fs w) (prev_path_of out_dir instance));
           [reflexivity|]. cbn [andb].
         fold (image_of instance).
         destruct (negb (Py.truthy (image_of instance))); [reflexivity|].
         destruct (negb (nonempty (_join_cmds (Py.get instance "test_cmds")))); [reflexivity|].
         destruct (negb (nonempty (_join_cmds (Py.get instance "print_cmds")))); [reflexivity|].
         fold (parser_of instance).
         destruct (negb (nonempty (PyStr.strip (Py.str (parser_of instance))))); reflexivity. }
  clear Hstat. unfold ret at 1.
  fold (image_of instance).
  destruct (negb (Py.truthy (image_of instance))); [reflexivity|].
  destruct (negb (nonempty (_join_cmds (Py.get instance "test_cmds")))); [reflexivity|].
  destruct (negb (nonempty (_join_cmds (Py.get instance "print_cmds")))); [reflexivity|].
  fold (parser_of instance).
  destruct (negb (nonempty (PyStr.strip (Py.str (parser_of instance))))); reflexivity.
Qed.





(** C3. With a non-empty [instance_id], no overwrite and both artifacts
    present under the instance directory, the evaluation returns [skip]
    and leaves the world as it was: whatever the other fields are, no
    session is acquired and no file is written. *)
Theorem run_one_skip instance plat out_dir timeout_s (w : world R) :
  nonempty (instance_id_of instance) = true ->
  FS.exists_ (w_fs w) (prev_path_of out_dir instance) = true ->
  FS.exists_ (w_fs w) (after_path_of out_dir instance) = true ->
  _run_one R instance plat out_dir timeout_s false w = (w, Ok ("skip", None)).
Proof.
  intros Hid Hprev Hafter. rewrite run_one_cascade.
  unfold blank at 1. rewrite Hid. simpl.
  unfold skip_applies. rewrite Hprev, Hafter. reflexivity.
Qed.


End EvaluatorFacts.

(** ** Concrete runs on the in-memory runtime *)

Lemma pair_snd_eq {A B} (x : A * B) (b : B) : snd x = b -> x = (fst x, b).
Proof. intros <-. apply surjective_pairing. Qed.

Lemma run_variant_output_witness :
  let run :=
    run_variant Mock.runtime (VStr "img") "repo__1" Linux 60 "diff" "diff2"
      EmptyString "pytest -q" "cat log!" (VStr "pytest") "after" true (Mock.world0 ∅) in
  run = (fst run, Ok ("$ cat log!" +:+ nl +:+ "echo OMNIGRIL_EXIT_CODE=1" +:+ nl)) /\
  exists (c : container Mock.runtime) env1 env2 env3 res raw status_map,
    send_command Mock.runtime c "cat log!" env1 = (env2, Ok res) /\
    raw_of res = VStr raw /\
    run_parser Mock.runtime "pytest" (VStr raw) env2 = (env3, Ok status_map) /\
    "$ cat log!" +:+ nl +:+ "echo OMNIGRIL_EXIT_CODE=1" +:+ nl
    = PyStr.rstrip raw +:+ nl
      +:+ (if existsb (fun kv => is_fail_word (Py.str (snd kv))) status_map
           then "echo OMNIGRIL_EXIT_CODE=1" else "echo OMNIGRIL_EXIT_CODE=0")
      +:+ nl /\
    (status_map = [] ->
     "$ cat log!" +:+ nl +:+ "echo OMNIGRIL_EXIT_CODE=1" +:+ nl
     = PyStr.rstrip raw +:+ nl +:+ "echo OMNIGRIL_EXIT_CODE=0" +:+ nl).
Proof.
  split.
  - apply pair_snd_eq. vm_compute. reflexivity.
  - apply (run_variant_output (R := Mock.runtime) (VStr "img") "repo__1" Linux 60 "diff"
             "diff2" EmptyString "pytest -q" "cat log!" (VStr "pytest") "after" true
             (Mock.world0 ∅)
             (fst (run_variant Mock.runtime (VStr "img") "repo__1" Linux 60 "diff" "diff2"
                     EmptyString "pytest -q" "cat log!" (VStr "pytest") "after" true
                     (Mock.world0 ∅)))).
    apply pair_snd_eq. vm_compute. reflexivity.
Defined.

Lemma run_one_skip_witness :
  let instance := [("instance_id", VStr "repo__3")] in
  let w := Mock.world0 Mock.done_fs in
  (nonempty (instance_id_of instance) = true /\
   FS.exists_ (w_fs w) (prev_path_of Mock.out instance) = true /\
   FS.exists_ (w_fs w) (after_path_of Mock.out instance) = true) /\
  _run_one Mock.runtime instance Linux Mock.out 60 false w = (w, Ok ("skip", None)).
Proof.
  split.
  - repeat split; vm_compute; reflexivity.
  - apply (run_one_skip (R := Mock.runtime)); vm_compute; reflexivity.
Defined.



(** C5 at a failing input: the test patch of [repo__2] does not apply, so the
    first variant run raises an [Exception]; the instance directory is taken
    by a regular file, so the handler cannot create it, and the evaluation
    raises [FileExistsError] instead of returning [error]. *)
Theorem run_one_handler_raises :
  let w := Mock.world0 Mock.blocked_fs in
  snd (variant_of Mock.runtime Mock.bad_patch_instance Linux 60 "prev" false w)
  = Raise (mk_exn true "PatchApplyFailed" "patch does not apply") /\
  snd (_run_one Mock.runtime Mock.bad_patch_instance Linux Mock.out 60 false w)
  = Raise (FS.FileExistsError ["out"; "repo__2"]) /\
  exn_is_exception (FS.FileExistsError ["out"; "repo__2"]) = true.
Proof. vm_compute. repeat split; reflexivity. Qed.

(** ** The file system *)

Lemma mkdir_rev_is_dir (rp : list string) (fs fs' : FS.t) :
  FS.mkdir_rev rp fs = (fs', Ok tt) -> FS.node_at fs' (rev rp) = Some Dir.
Proof.
  revert fs fs'. induction rp as [|x rp IH]; intros fs fs' H.
  - reflexivity.
  - cbn [FS.mkdir_rev] in H.
    assert (Hne : rev (x :: rp) <> []).
    { simpl. intros Hnil. apply app_eq_nil in Hnil as [_ Hnil]. discriminate Hnil. }
    assert (Hins : forall m : FS.t, FS.node_at (<[rev (x :: rp) := Dir]> m) (rev (x :: rp)) = Some Dir).
    { intros m. unfold FS.node_at. destruct (rev (x :: rp)) eqn:E; [congruence|].
      apply lookup_insert_eq. }
    destruct (FS.node_at fs (rev (x :: rp))) as [[|t]|] eqn:Hnode.
    + injection H as <-. exact Hnode.
    + discriminate H.
    + destruct (FS.refused_rev fs (x :: rp)); [discriminate H|].
      destruct (FS.node_at fs (rev rp)) as [[|t]|].
      * injection H as <-. apply Hins.
      * discriminate H.
      * destruct (FS.mkdir_rev rp fs) as [fs1 [[]|e]]; [|discriminate H].
        destruct (FS.too_long x); [discriminate H|].
        injection H as <-. apply Hins.
Qed.


Lemma stat_error_in_dir (p : path) (x : string) (fs : FS.t) :
  FS.node_at fs p = Some Dir -> FS.too_long x = false -> FS.stat_error fs (p ++ [x]) = None.
Proof.
  intros Hp Hx. unfold FS.stat_error. rewrite rev_app_distr. cbn [rev app FS.refused_rev].
  rewrite rev_involutive, Hp, Hx. reflexivity.
Qed.


Lemma mkdir_parents_is_dir (p : path) (fs fs' : FS.t) :
  FS.mkdir_parents p fs = (fs', Ok tt) -> FS.node_at fs' p = Some Dir.
Proof.
  unfold FS.mkdir_parents. intros H. apply mkdir_rev_is_dir in H.
  rewrite rev_involutive in H. exact H.
Qed.

Lemma mkdir_parents_done (p : path) (fs : FS.t) :
  FS.node_at fs p = Some Dir -> FS.mkdir_parents p fs = (fs, Ok tt).
Proof.
  unfold FS.mkdir_parents. intros H.
  destruct (rev p) as [|x rp] eqn:E; [reflexivity|].
  cbn [FS.mkdir_rev]. rewrite <- E, rev_involutive, H. reflexivity.
Qed.

Lemma node_at_insert_ne (fs : FS.t) (p q : path) (n : node) :
  p <> q -> FS.node_at (<[p := n]> fs) q = FS.node_at fs q.
Proof.
  intros Hne. unfold FS.node_at. destruct q; [reflexivity|].
  apply lookup_insert_ne. exact Hne.
Qed.

Lemma open_w_ok (p : path) (x : string) (fs : FS.t) :
  FS.node_at fs p = Some Dir -> FS.too_long x = false -> is_dir fs (p ++ [x]) = false ->
  FS.open_w (p ++ [x]) fs = (<[p ++ [x] := File EmptyString]> fs, Ok tt).
Proof.
  unfold FS.open_w, is_dir, Pathlib.parent. intros Hp Hlen Hx.
  rewrite removelast_last, Hp, (stat_error_in_dir _ _ _ Hp Hlen).
  destruct (FS.node_at fs (p ++ [x])) as [[|t]|]; [discriminate Hx| |]; reflexivity.
Qed.

(** The file system on names that are too long: what is refused, and with
    which path in the error, at a directory [d], a regular file [f] and
    names that are not there. *)
Example long_names :
  let fs : FS.t := <[ ["f"] := File "x" ]> (<[ ["d"] := Dir ]> ∅) in
  let L := long_name in
  (FS.byte_length L = 300 /\
   FS.too_long (String.concat EmptyString (repeat "a" 255)) = false /\
   FS.too_long (String.concat EmptyString (repeat (String (ascii_of_nat 233) EmptyString) 128))
   = true) /\
  (FS.stat_exists fs ["d"; L] = Raise (FS.NameTooLong ["d"; L]) /\
   FS.stat_exists fs ["d"; L; "x"] = Raise (FS.NameTooLong ["d"; L; "x"]) /\
   FS.stat_exists fs ["n"; L; "x"] = Ok false /\
   FS.stat_exists fs ["f"; L; "x"] = Ok false) /\
  (snd (FS.mkdir_parents ["d"; L; "x"] fs) = Raise (FS.NameTooLong ["d"; L; "x"]) /\
   snd (FS.mkdir_parents ["n"; L; "x"] fs) = Raise (FS.NameTooLong ["n"; L]) /\
   FS.node_at (fst (FS.mkdir_parents ["n"; L; "x"] fs)) ["n"] = Some Dir /\
   snd (FS.mkdir_parents ["f"; L] fs) = Raise (FS.NotADirectoryError ["f"; L]) /\
   snd (FS.mkdir_parents ["f"; "x"; "y"] fs) = Raise (FS.NotADirectoryError ["f"; "x"; "y"])) /\
  (snd (FS.open_w ["d"; L] fs) = Raise (FS.NameTooLong ["d"; L]) /\
   snd (FS.open_w ["q"; L; "x"] fs) = Raise (FS.FileNotFoundError ["q"; L; "x"]) /\
   snd (FS.open_w ["f"; "x"; "y"] fs) = Raise (FS.NotADirectoryError ["f"; "x"; "y"])) /\
  exn_msg (FS.NameTooLong ["d"; "x"]) = "[Errno 36] File name too long: '/d/x'".
Proof. vm_compute. repeat split; reflexivity. Qed.

Section WriteFacts.

Context {R : Runtime}.

(** [_write_text] of a file whose directory can be made: the directory
    is made, the file is opened empty under its own name and then
    written. *)
Lemma write_text_steps (p : path) (x text : string) (w : world R) (fs1 : FS.t) :
  FS.mkdir_parents p (w_fs w) = (fs1, Ok tt) -> FS.too_long x = false ->
  is_dir fs1 (p ++ [x]) = false ->
  _write_text R (p ++ [x]) text w =
  (mk_world (w_env w)
     (<[p ++ [x] := File text]> (<[p ++ [x] := File EmptyString]> fs1))
     (w_seen w ++ [fs1; <[p ++ [x] := File EmptyString]> fs1;
                   <[p ++ [x] := File text]> (<[p ++ [x] := File EmptyString]> fs1)])
     (w_trace w),
   Ok tt).
Proof.
  intros Hmk Hlen Hx. unfold _write_text, bind, fs_step, Pathlib.parent.
  rewrite removelast_last, Hmk. cbn [w_fs w_env w_seen w_trace].
  rewrite (open_w_ok _ _ _ (mkdir_parents_is_dir _ _ _ Hmk) Hlen Hx).
  cbn [w_fs w_env w_seen w_trace].
  unfold FS.write_close. rewrite <- !app_assoc. reflexivity.
Qed.

Lemma fs_neutral_ret {A} (a : A) : fs_neutral (ret R a).
Proof. intros w. split; reflexivity. Qed.

Lemma fs_neutral_raise {A} e : fs_neutral (@raise R A e).
Proof. intros w. split; reflexivity. Qed.

Lemma fs_neutral_bind {A B} (m : M R A) (k : A -> M R B) :
  fs_neutral m -> (forall a, fs_neutral (k a)) -> fs_neutral (bind R m k).
Proof.
  intros Hm Hk w. unfold bind. specialize (Hm w).
  destruct (m w) as [w1 [a|e]]; simpl in Hm.
  - destruct (Hk a w1) as [H1 H2]. destruct Hm as [H3 H4]. split; congruence.
  - exact Hm.
Qed.

Lemma fs_neutral_call {A} (f : Env R -> Env R * result A) log : fs_neutral (call R f log).
Proof. intros w. rewrite call_spec. split; reflexivity. Qed.

Lemma fs_neutral_if {A} (b : bool) (m1 m2 : M R A) :
  fs_neutral m1 -> fs_neutral m2 -> fs_neutral (if b then m1 else m2).
Proof. destruct b; auto. Qed.

Lemma fs_neutral_try_finally {A} (m : M R A) (fin : M R unit) :
  fs_neutral m -> fs_neutral fin -> fs_neutral (try_finally R m fin).
Proof.
  intros Hm Hf w. unfold try_finally. specialize (Hm w).
  destruct (m w) as [w1 r]. specialize (Hf w1).
  destruct (fin w1) as [w2 [[]|e]]; simpl in *;
    destruct Hm, Hf; split; congruence.
Qed.

Lemma fs_neutral_try_except {A} (m : M R A) (h : exn -> M R A) :
  fs_neutral m -> (forall e, fs_neutral (h e)) -> fs_neutral (try_except R m h).
Proof.
  intros Hm Hh w. unfold try_except. specialize (Hm w).
  destruct (m w) as [w1 [a|e]]; [exact Hm|].
  destruct (exn_is_exception e); [|exact Hm].
  specialize (Hh e w1). simpl in *. destruct Hm, Hh. split; congruence.
Qed.

Lemma fs_neutral_rstrip raw : fs_neutral (py_rstrip R raw).
Proof. destruct raw; simpl; first [apply fs_neutral_ret | apply fs_neutral_raise]. Qed.

Lemma fs_neutral_variant image iid plat t tp p rc tc pc parser label apply_solution :
  fs_neutral (run_variant R image iid plat t tp p rc tc pc parser label apply_solution).
Proof.
  unfold run_variant, variant_body, acquire, do_cleanup, do_apply_patch,
    do_send_command, do_run_parser.
  repeat (first [ apply fs_neutral_bind | apply fs_neutral_if | apply fs_neutral_ret
                | apply fs_neutral_call | apply fs_neutral_try_finally
                | apply fs_neutral_try_except | apply fs_neutral_rstrip | intros ? ]).
Qed.

End WriteFacts.

Section ArtifactTheorems.

Context {R : Runtime}.

Lemma artifact_paths out_dir instance :
  prev_path_of out_dir instance
  = instance_dir out_dir instance ++ ["test_output_prev_apply.txt"] /\
  after_path_of out_dir instance
  = instance_dir out_dir instance ++ ["test_output_after_apply.txt"] /\
  error_path_of out_dir instance = instance_dir out_dir instance ++ ["error.txt"].
Proof. repeat split; reflexivity. Qed.



Lemma first_blank_none instance f : first_blank instance = None -> blank f instance = false.
Proof.
  unfold first_blank, all_fields. cbn [first_blank_in].
  destruct (blank FInstanceId instance) eqn:H1; [discriminate|].
  destruct (blank FImage instance) eqn:H2; [discriminate|].
  destruct (blank FTestCmds instance) eqn:H3; [discriminate|].
  destruct (blank FPrintCmds instance) eqn:H4; [discriminate|].
  destruct (blank FParser instance) eqn:H5; [discriminate|].
  intros _. destruct f; assumption.
Qed.


End ArtifactTheorems.



(** ** The instance loader *)

Lemma split_char_cons sep s : exists x rest, PyStr.split_char sep s = x :: rest.
Proof.
  destruct s as [|c s]; [eexists _, _; reflexivity|]. cbn [PyStr.split_char].
  destruct (Ascii.eqb c sep); [eexists _, _; reflexivity|].
  destruct (PyStr.split_char sep s); eexists _, _; reflexivity.
Qed.

Lemma file_lines_cons (c : ascii) (s : string) :
  file_lines (String c s) =
  if Ascii.eqb c LF then nl :: file_lines s
  else if Ascii.eqb c CR then
    match s with
    | String c' s'' => if Ascii.eqb c' LF then nl :: file_lines s'' else nl :: file_lines s
    | EmptyString => [nl]
    end
  else match file_lines s with
       | [] => [String c EmptyString]
       | l :: ls => String c l :: ls
       end.
Proof. reflexivity. Qed.

Lemma unix_text_cons (c : ascii) (s : string) :
  unix_text (String c s) =
  if Ascii.eqb c CR then
    String LF match s with
              | String c' s'' => if Ascii.eqb c' LF then unix_text s'' else unix_text s
              | EmptyString => EmptyString
              end
  else String c (unix_text s).
Proof. reflexivity. Qed.

Lemma file_lines_pieces (s : string) :
  file_lines s = with_ends (text_lines s) /\
  forall c, file_lines (String c s) = with_ends (text_lines (String c s)).
Proof.
  unfold text_lines. induction s as [|c' s [IH1 IH2]].
  - split; [reflexivity|]. intros c. cbn [file_lines unix_text].
    change (ascii_of_nat 10) with LF. change (ascii_of_nat 13) with CR.
    destruct (Ascii.eqb c LF) eqn:E1.
    { apply Ascii.eqb_eq in E1. subst c. reflexivity. }
    destruct (Ascii.eqb c CR) eqn:E2; [reflexivity|].
    cbn [PyStr.split_char]. rewrite E1. reflexivity.
  - split; [apply IH2|]. intros c.
    rewrite (file_lines_cons c), (unix_text_cons c).
    destruct (Ascii.eqb c LF) eqn:E1.
    { apply Ascii.eqb_eq in E1. subst c. change (Ascii.eqb LF CR) with false. cbv iota.
      cbn [PyStr.split_char]. rewrite Ascii.eqb_refl.
      destruct (split_char_cons LF (unix_text (String c' s))) as (x & rest & E).
      rewrite (IH2 c'), E. reflexivity. }
    destruct (Ascii.eqb c CR) eqn:E2.
    { cbn [PyStr.split_char]. rewrite Ascii.eqb_refl.
      destruct (Ascii.eqb c' LF).
      - destruct (split_char_cons LF (unix_text s)) as (x & rest & E).
        rewrite IH1, E. reflexivity.
      - destruct (split_char_cons LF (unix_text (String c' s))) as (x & rest & E).
        rewrite (IH2 c'), E. reflexivity. }
    cbn [PyStr.split_char]. rewrite E1.
    rewrite (IH2 c').
    destruct (split_char_cons LF (unix_text (String c' s))) as (x & rest & E). rewrite E.
    destruct rest as [|y rest].
    + cbn [with_ends]. destruct x; reflexivity.
    + reflexivity.
Qed.

Lemma rstrip_line_end (x : string) : PyStr.rstrip (x +:+ nl) = PyStr.rstrip x.
Proof.
  induction x as [|c x IH]; [reflexivity|].
  change (String c x +:+ nl) with (String c (x +:+ nl)).
  cbn [PyStr.rstrip]. rewrite IH. reflexivity.
Qed.

Lemma strip_line_end (x : string) : PyStr.strip (x +:+ nl) = PyStr.strip x.
Proof. unfold PyStr.strip. rewrite rstrip_line_end. reflexivity. Qed.


Section LoaderTheorems.

Variable json_loads : string -> pyval + string.

Lemma load_from_cons shown n line rest :
  load_from json_loads shown n (line :: rest) =
  if negb (nonempty (PyStr.strip line)) then load_from json_loads shown (S n) rest
  else match json_loads (PyStr.strip line) with
       | inl v =>
           match load_from json_loads shown (S n) rest with
           | Ok records => Ok (v :: records)
           | Raise e => Raise e
           end
       | inr e =>
           Raise (SystemExit ("Invalid JSON on line " +:+ pretty n +:+ " of " +:+ shown
                              +:+ ": " +:+ e))
       end.
Proof.
  unfold load_from, numbered_from. cbn [length seq combine List.filter].
  change (is_nonblank (n, line)) with (nonempty (PyStr.strip line)).
  destruct (nonempty (PyStr.strip line)); cbn [negb]; [|reflexivity].
  cbn [List.find flat_map].
  change (fails_to_parse json_loads (n, line))
    with (match json_loads (PyStr.strip line) with inl _ => false | inr _ => true end).
  change (record_of json_loads (n, line))
    with (match json_loads (PyStr.strip line) with inl v => [v] | inr _ => [] end).
  destruct (json_loads (PyStr.strip line)) as [v|e] eqn:E; [|cbn; rewrite E; reflexivity].
  destruct (List.find _ _) as [[lineno l]|]; reflexivity.
Qed.

Lemma load_lines_from shown n lines out :
  load_lines json_loads shown n lines out =
  match load_from json_loads shown n lines with
  | Ok records => Ok (out ++ records)
  | Raise e => Raise e
  end.
Proof.
  revert n out. induction lines as [|line rest IH]; intros n out.
  - unfold load_from. simpl. rewrite app_nil_r. reflexivity.
  - cbn [load_lines]. rewrite load_from_cons.
    destruct (negb (nonempty (PyStr.strip line))); [apply IH|].
    destruct (json_loads (PyStr.strip line)) as [v|e]; [|reflexivity].
    rewrite IH. destruct (load_from json_loads shown (S n) rest); [|reflexivity].
    rewrite <- app_assoc. reflexivity.
Qed.

Lemma load_from_nil shown n : load_from json_loads shown n [] = Ok [].
Proof. reflexivity. Qed.

Lemma load_from_with_ends shown pieces :
  forall n, load_from json_loads shown n (with_ends pieces) = load_from json_loads shown n pieces.
Proof.
  induction pieces as [|x rest IH]; intros n; [reflexivity|].
  destruct rest as [|y rest].
  - cbn [with_ends]. rewrite (load_from_cons shown n x []).
    destruct x as [|c x]; [reflexivity|]. cbn [nonempty String.eqb negb].
    rewrite (load_from_cons). reflexivity.
  - change (with_ends (x :: y :: rest)) with ((x +:+ nl) :: with_ends (y :: rest)).
    rewrite (load_from_cons shown n (x +:+ nl)),
      (load_from_cons shown n x), strip_line_end, IH. reflexivity.
Qed.

(** The loader on the text of a file: what the specification words, on
    the lines that reading the file gives. *)
Lemma load_lines_by_spec (shown text : string) :
  load_lines json_loads shown 1 (file_lines text) []
  = load_from json_loads shown 1 (text_lines text).
Proof.
  rewrite load_lines_from, (proj1 (file_lines_pieces text)), load_from_with_ends.
  destruct (load_from json_loads shown 1 (text_lines text)); reflexivity.
Qed.

(** C7. On a file that can be read the loader does what the
    specification words, on the lines of the text of the file (what stands
    between its line ends, numbered from 1): it returns the records of
    all non-blank lines in file order, or, when some non-blank line does
    not parse as JSON, no list at all but [SystemExit] with a message
    naming the file and the 1-based number of the first such line. *)
Theorem load_jsonl_refines_spec (fs : FS.t) (p : path) (text : string) :
  FS.node_at fs p = Some (File text) ->
  _load_jsonl json_loads fs p = load_jsonl_by_spec json_loads p text.
Proof.
  intros Hfile. unfold _load_jsonl, load_jsonl_by_spec, FS.open_r. rewrite Hfile.
  apply load_lines_by_spec.
Qed.

End LoaderTheorems.

Lemma load_jsonl_refines_spec_witness :
  let fs : FS.t :=
    <[ ["in"; "bad.jsonl"] := File sample_bad_jsonl ]>
      (<[ ["in"; "organize.jsonl"] := File sample_jsonl ]> ∅) in
  (FS.node_at fs ["in"; "organize.jsonl"] = Some (File sample_jsonl) /\
   FS.node_at fs ["in"; "bad.jsonl"] = Some (File sample_bad_jsonl)) /\
  text_lines sample_jsonl = ["null"; EmptyString; "  {} "; "   "; "null"] /\
  _load_jsonl sample_json_loads fs ["in"; "organize.jsonl"] = Ok [VNone; VDict []; VNone] /\
  text_lines sample_bad_jsonl = ["null"; EmptyString; "{oops"; "nope"] /\
  _load_jsonl sample_json_loads fs ["in"; "bad.jsonl"]
  = Raise (SystemExit "Invalid JSON on line 3 of /in/bad.jsonl: Expecting value: line 1 column 1 (char 0)").
Proof.
  intros fs.
  assert (H1 : FS.node_at fs ["in"; "organize.jsonl"] = Some (File sample_jsonl))
    by (vm_compute; reflexivity).
  assert (H2 : FS.node_at fs ["in"; "bad.jsonl"] = Some (File sample_bad_jsonl))
    by (vm_compute; reflexivity).
  split; [split; [exact H1 | exact H2]|].
  split; [vm_compute; reflexivity|].
  split; [exact (eq_trans (load_jsonl_refines_spec sample_json_loads fs _ _ H1) eq_refl)|].
  split; [vm_compute; reflexivity|].
  exact (eq_trans (load_jsonl_refines_spec sample_json_loads fs _ _ H2) eq_refl).
Defined.

(** A file that is not there, and one whose name is too long for the
    file system. *)
Example load_jsonl_missing :
  let long := FS.NAME_MAX + 1 in
  _load_jsonl sample_json_loads ∅ ["in"; "organize.jsonl"]
  = Raise (FS.FileNotFoundError ["in"; "organize.jsonl"]) /\
  exn_kind (FS.FileNotFoundError ["in"; "organize.jsonl"]) = "FileNotFoundError" /\
  exists e, _load_jsonl sample_json_loads ∅ [String.concat EmptyString (repeat "a" long)]
            = Raise e /\ exn_kind e = "OSError".
Proof.
  split; [vm_compute; reflexivity|]. split; [reflexivity|].
  eexists. split; [vm_compute; reflexivity | reflexivity].
Qed.

(** ** Counters *)

Section CounterFacts.

Lemma counter_get_add k n k' (c : list (string * nat)) :
  counter_get String.eqb k' (counter_add String.eqb k n c)
  = counter_get String.eqb k' c + (if String.eqb k k' then n else 0).
Proof.
  induction c as [|[k0 m] c IH]; simpl.
  - destruct (String.eqb k k'); lia.
  - destruct (String.eqb k0 k) eqn:E0; simpl.
    + apply String.eqb_eq in E0. subst k0.
      destruct (String.eqb k k'); lia.
    + destruct (String.eqb k0 k') eqn:E1; [|exact IH].
      apply String.eqb_eq in E1. subst k0. rewrite String.eqb_sym, E0. lia.
Qed.

Lemma counter_add_keys k n (c : list (string * nat)) x :
  x ∈ map fst (counter_add String.eqb k n c) <-> x = k \/ x ∈ map fst c.
Proof.
  induction c as [|[k0 m] c IH]; simpl.
  - rewrite list_elem_of_singleton. rewrite elem_of_nil. tauto.
  - destruct (String.eqb k0 k) eqn:E0; simpl.
    + apply String.eqb_eq in E0. subst k0. rewrite !elem_of_cons. tauto.
    + rewrite !elem_of_cons, IH. tauto.
Qed.

Lemma counter_add_NoDup k n (c : list (string * nat)) :
  NoDup (map fst c) -> NoDup (map fst (counter_add String.eqb k n c)).
Proof.
  induction c as [|[k0 m] c IH]; simpl; intros Hnd.
  - apply NoDup_singleton.
  - apply NoDup_cons in Hnd as [Hnotin Hnd].
    destruct (String.eqb k0 k) eqn:E0; simpl.
    + apply NoDup_cons. auto.
    + apply NoDup_cons. split; [|auto].
      rewrite counter_add_keys. intros [->|Hin]; [|contradiction].
      rewrite String.eqb_refl in E0. discriminate E0.
Qed.

Lemma counter_add_positive k n (c : list (string * nat)) :
  0 < n -> Forall (fun kv => 0 < snd kv) c ->
  Forall (fun kv => 0 < snd kv) (counter_add String.eqb k n c).
Proof.
  intros Hn. induction c as [|[k0 m] c IH]; simpl; intros Hc.
  - repeat constructor. exact Hn.
  - apply Forall_cons in Hc as [Hm Hc]. simpl in Hm.
    destruct (String.eqb k0 k); constructor; simpl; auto; lia.
Qed.

Lemma counter_get_item k m (c : list (string * nat)) :
  NoDup (map fst c) -> (k, m) ∈ c -> counter_get String.eqb k c = m.
Proof.
  induction c as [|[k0 m0] c IH]; simpl; intros Hnd Hin.
  - apply elem_of_nil in Hin. contradiction.
  - apply NoDup_cons in Hnd as [Hnotin Hnd].
    apply elem_of_cons in Hin as [[= -> ->]|Hin].
    + rewrite String.eqb_refl. reflexivity.
    + destruct (String.eqb k0 k) eqn:E0; [|auto].
      apply String.eqb_eq in E0. subst k0. exfalso. apply Hnotin.
      apply list_elem_of_fmap. exists (k, m). auto.
Qed.

Lemma counter_get_absent k (c : list (string * nat)) :
  k ∉ map fst c -> counter_get String.eqb k c = 0.
Proof.
  induction c as [|[k0 m0] c IH]; simpl; intros Hnotin; [reflexivity|].
  rewrite not_elem_of_cons in Hnotin. destruct Hnotin as [Hne Hnotin].
  destruct (String.eqb k0 k) eqn:E0; [|auto].
  apply String.eqb_eq in E0. congruence.
Qed.

(** The first largest item is an item, and no item is larger. *)
Lemma first_max_spec (best : string * nat) (c : list (string * nat)) :
  first_max best c ∈ best :: c /\
  forall x, x ∈ best :: c -> snd x <= snd (first_max best c).
Proof.
  revert best. induction c as [|y c IH]; intros best; simpl.
  - split; [apply list_elem_of_here|].
    intros x Hx. apply list_elem_of_singleton in Hx. subst x. lia.
  - destruct (snd best <? snd y) eqn:E.
    + apply Nat.ltb_lt in E. destruct (IH y) as [Hin Hmax]. split.
      * apply list_elem_of_further. exact Hin.
      * intros x Hx. apply elem_of_cons in Hx as [->|Hx]; [|auto].
        specialize (Hmax y (list_elem_of_here _ _)). lia.
    + apply Nat.ltb_ge in E. destruct (IH best) as [Hin Hmax]. split.
      * apply elem_of_cons in Hin as [->|Hin];
          [apply list_elem_of_here | do 2 apply list_elem_of_further; exact Hin].
      * intros x Hx. apply elem_of_cons in Hx as [->|Hx]; [auto using list_elem_of_here|].
        apply elem_of_cons in Hx as [->|Hx].
        -- specialize (Hmax best (list_elem_of_here _ _)). lia.
        -- apply Hmax. apply list_elem_of_further. exact Hx.
Qed.

End CounterFacts.

(** ** Language inference *)

(** *** The header paths: the matches of the pattern are the header
    lines of the texts *)

Lemma strip_prefix_app (p s r : string) :
  PyStr.strip_prefix p s = Some r <-> s = p +:+ r.
Proof.
  revert s. induction p as [|a p IH]; intros s.
  - cbn [PyStr.strip_prefix]. change (EmptyString +:+ r) with r. split; congruence.
  - change (String a p +:+ r) with (String a (p +:+ r)).
    destruct s as [|b s]; cbn [PyStr.strip_prefix]; [split; discriminate|].
    destruct (Ascii.eqb_spec a b) as [->|Hne].
    + rewrite IH. split; congruence.
    + split; [discriminate | congruence].
Qed.

Lemma prefix_strip_prefix (p s : string) :
  String.prefix p s = match PyStr.strip_prefix p s with Some _ => true | None => false end.
Proof.
  revert s. induction p as [|a p IH]; intros s; [destruct s; reflexivity|].
  destruct s as [|b s]; [reflexivity|]. cbn [String.prefix PyStr.strip_prefix].
  destruct (Ascii.eqb_spec a b) as [->|Hne].
  - destruct (ascii_dec b b); [apply IH | congruence].
  - destruct (ascii_dec a b); [congruence | reflexivity].
Qed.

Lemma before_first_index (pat s : string) :
  Lang.before_first pat s
  = match String.index 0 pat s with
    | Some n => Some (String.substring 0 n s)
    | None => None
    end.
Proof.
  induction s as [|c s IH].
  - cbn [Lang.before_first String.index]. destruct pat; reflexivity.
  - cbn [Lang.before_first String.index]. rewrite prefix_strip_prefix.
    destruct (PyStr.strip_prefix pat (String c s)); [reflexivity|].
    rewrite IH. destruct (String.index 0 pat s); reflexivity.
Qed.

Lemma index_shift (p pat r : string) :
  String.index (String.length p) pat (p +:+ r)
  = match String.index 0 pat r with
    | Some n => Some (String.length p + n)
    | None => None
    end.
Proof.
  induction p as [|a p IH].
  - change (EmptyString +:+ r) with r. cbn [String.length]. destruct (String.index 0 pat r); reflexivity.
  - change (String a p +:+ r) with (String a (p +:+ r)). cbn [String.length String.index].
    rewrite IH. destruct (String.index 0 pat r); reflexivity.
Qed.

Lemma substring_shift (p r : string) (m : nat) :
  String.substring (String.length p) m (p +:+ r) = String.substring 0 m r.
Proof.
  induction p as [|a p IH]; [reflexivity|].
  change (String a p +:+ r) with (String a (p +:+ r)). cbn [String.length String.substring].
  exact IH.
Qed.

Lemma diff_header_path_spec (line : string) :
  Lang.diff_header_path line = LangSpec.header_path line.
Proof.
  unfold Lang.diff_header_path, LangSpec.header_path. rewrite prefix_strip_prefix.
  destruct (PyStr.strip_prefix "diff --git a/" line) as [rest|] eqn:E; [|reflexivity].
  apply strip_prefix_app in E. subst line.
  rewrite before_first_index.
  change 13 with (String.length "diff --git a/"). rewrite index_shift.
  destruct (String.index 0 " b/" rest) as [n|]; [|reflexivity].
  replace (String.length "diff --git a/" + n - String.length "diff --git a/") with n by lia.
  rewrite substring_shift. reflexivity.
Qed.

Lemma header_paths_findall (texts : list string) :
  LangSpec.header_paths texts = flat_map Lang.findall_diff_paths texts.
Proof.
  unfold LangSpec.header_paths, Lang.findall_diff_paths.
  induction texts as [|txt texts IH]; [reflexivity|]. cbn [flat_map]. rewrite IH.
  f_equal. change (ascii_of_nat 10) with LF.
  induction (PyStr.split_char LF txt) as [|line ls IHl]; [reflexivity|].
  change (omap LangSpec.header_path (line :: ls))
    with (match LangSpec.header_path line with
          | Some y => y :: omap LangSpec.header_path ls
          | None => omap LangSpec.header_path ls
          end).
  change (omap Lang.diff_header_path (line :: ls))
    with (match Lang.diff_header_path line with
          | Some y => y :: omap Lang.diff_header_path ls
          | None => omap Lang.diff_header_path ls
          end).
  rewrite diff_header_path_spec, IHl. reflexivity.
Qed.

Section LangFacts.

Import LangSpec.

Lemma table_langs_nonempty e l :
  Lang.table_get e Lang.EXT_TO_LANG = Some l -> nonempty l = true.
Proof.
  unfold Lang.EXT_TO_LANG. cbn [Lang.table_get].
  repeat (match goal with
          | |- (if ?b then _ else _) = _ -> _ => destruct b; [intros [= <-]; reflexivity|]
          end).
  discriminate.
Qed.

Lemma weight_cons lang ext n rest :
  weight lang ((ext, n) :: rest) = gain lang ext n + weight lang rest.
Proof. unfold gain. cbn [weight]. destruct (Lang.table_get ext Lang.EXT_TO_LANG); reflexivity. Qed.

Lemma gain_plus lang ext m n : gain lang ext (m + n) = gain lang ext m + gain lang ext n.
Proof.
  unfold gain. destruct (Lang.table_get ext Lang.EXT_TO_LANG) as [l|]; [|reflexivity].
  destruct (String.eqb l lang); reflexivity.
Qed.

Lemma weight_counter_add lang ext n (c : list (string * nat)) :
  weight lang (counter_add String.eqb ext n c) = weight lang c + gain lang ext n.
Proof.
  induction c as [|[e0 m] c IH].
  - cbn [counter_add]. rewrite weight_cons. cbn [weight]. lia.
  - cbn [counter_add]. destruct (String.eqb e0 ext) eqn:E.
    + apply String.eqb_eq in E. subst e0. rewrite !weight_cons, gain_plus. lia.
    + rewrite !weight_cons, IH. lia.
Qed.

Lemma has_lang_gain lang p :
  (if has_lang lang p then 1 else 0)
  = if nonempty (Lang.path_ext p) then gain lang (Lang.path_ext p) 1 else 0.
Proof.
  unfold has_lang, lang_of_path, gain.
  destruct (nonempty (Lang.path_ext p)); [|reflexivity].
  destruct (Lang.table_get _ _) as [l|]; [|reflexivity].
  destruct (String.eqb l lang); reflexivity.
Qed.

Lemma length_filter_cons {A} (f : A -> bool) x l :
  length (List.filter f (x :: l)) = (if f x then 1 else 0) + length (List.filter f l).
Proof. simpl. destruct (f x); reflexivity. Qed.

Lemma weight_count_paths lang ps exts :
  weight lang (Lang.count_paths ps exts)
  = weight lang exts + length (List.filter (has_lang lang) ps).
Proof.
  revert exts. induction ps as [|p ps IH]; intros exts.
  - simpl. lia.
  - cbn [Lang.count_paths]. rewrite IH, length_filter_cons, has_lang_gain.
    destruct (nonempty (Lang.path_ext p)); [rewrite weight_counter_add|]; lia.
Qed.

Lemma weight_count_texts lang texts exts :
  weight lang (Lang.count_texts texts exts) = weight lang exts + lang_count lang texts.
Proof.
  unfold lang_count. rewrite header_paths_findall.
  revert exts. induction texts as [|txt texts IH]; intros exts.
  - simpl. lia.
  - cbn [Lang.count_texts flat_map]. rewrite List.filter_app, length_app.
    destruct (nonempty txt) eqn:E; cbn [negb].
    + rewrite IH, weight_count_paths. lia.
    + destruct txt; [|discriminate E]. rewrite IH. simpl. lia.
Qed.

Lemma counter_get_count_langs lang items lc :
  counter_get String.eqb lang (Lang.count_langs items lc)
  = counter_get String.eqb lang lc + weight lang items.
Proof.
  revert lc. induction items as [|[ext n] items IH]; intros lc.
  - simpl. lia.
  - cbn [Lang.count_langs]. rewrite weight_cons. unfold gain.
    destruct (Lang.table_get ext Lang.EXT_TO_LANG) as [l|] eqn:E.
    + rewrite (table_langs_nonempty _ _ E), IH, counter_get_add. lia.
    + rewrite IH. lia.
Qed.

Lemma count_langs_NoDup items lc :
  NoDup (map fst lc) -> NoDup (map fst (Lang.count_langs items lc)).
Proof.
  revert lc. induction items as [|[ext n] items IH]; intros lc Hnd; [exact Hnd|].
  cbn [Lang.count_langs].
  destruct (Lang.table_get ext Lang.EXT_TO_LANG) as [l|]; [|apply IH; assumption].
  destruct (nonempty l); apply IH; try assumption.
  apply counter_add_NoDup; assumption.
Qed.

Lemma count_langs_positive items lc :
  positive items -> positive lc -> positive (Lang.count_langs items lc).
Proof.
  revert lc. induction items as [|[ext n] items IH]; intros lc Hi Hlc; [exact Hlc|].
  apply Forall_cons in Hi as [Hn Hi]. cbn [Lang.count_langs]. cbn [snd] in Hn.
  destruct (Lang.table_get ext Lang.EXT_TO_LANG) as [l|]; [|apply IH; assumption].
  destruct (nonempty l); apply IH; try assumption.
  apply counter_add_positive; assumption.
Qed.

Lemma count_paths_positive ps exts : positive exts -> positive (Lang.count_paths ps exts).
Proof.
  revert exts. induction ps as [|p ps IH]; intros exts He; [exact He|].
  cbn [Lang.count_paths]. apply IH.
  destruct (nonempty (Lang.path_ext p)); [apply counter_add_positive; [lia|]|]; exact He.
Qed.

Lemma count_texts_positive texts exts : positive exts -> positive (Lang.count_texts texts exts).
Proof.
  revert exts. induction texts as [|txt texts IH]; intros exts He; [exact He|].
  cbn [Lang.count_texts]. destruct (negb (nonempty txt)); apply IH; try assumption.
  apply count_paths_positive; assumption.
Qed.

Lemma no_lang_no_recognized ps :
  (forall lang, length (List.filter (has_lang lang) ps) = 0) ->
  List.filter recognized ps = [].
Proof.
  induction ps as [|p ps IH]; intros H; [reflexivity|].
  cbn [List.filter]. unfold recognized at 1.
  destruct (lang_of_path p) as [l|] eqn:E.
  - specialize (H l). rewrite length_filter_cons in H.
    unfold has_lang in H. rewrite E, String.eqb_refl in H. discriminate H.
  - apply IH. intros lang. specialize (H lang).
    rewrite length_filter_cons in H. lia.
Qed.

(** C8. The inferred language is the one whose recognized extensions
    occur most often in the [diff --git] headers of the texts: it occurs,
    and no language occurs more often. When no header path has a
    recognized extension (so also when every text is empty) it is
    [Python]. *)
Theorem infer_language_most_frequent (texts : list string) :
  let lang := fst (Lang.infer_language_from_diff_text texts) in
  (List.filter recognized (header_paths texts) = [] /\ lang = "Python")
  \/ (0 < lang_count lang texts /\
      forall other, lang_count other texts <= lang_count lang texts).
Proof.
  intros lang. subst lang. unfold Lang.infer_language_from_diff_text.
  set (exts := Lang.count_texts texts []).
  set (lc := Lang.count_langs exts []).
  assert (Hget : forall l, counter_get String.eqb l lc = lang_count l texts).
  { intros l. unfold lc. rewrite counter_get_count_langs. unfold exts.
    rewrite weight_count_texts. reflexivity. }
  assert (Hnd : NoDup (map fst lc)) by (apply count_langs_NoDup; constructor).
  assert (Hpos : positive lc).
  { apply count_langs_positive; [apply count_texts_positive|]; constructor. }
  destruct lc as [|x c] eqn:Elc.
  - left. split; [|reflexivity].
    apply no_lang_no_recognized. intros l.
    change (lang_count l texts = 0). rewrite <- (Hget l). reflexivity.
  - right. cbn [most_common_1].
    destruct (first_max_spec x c) as [Hin Hmax].
    destruct (first_max x c) as [best m] eqn:Ebest. cbn [fst].
    assert (Hm : lang_count best texts = m).
    { rewrite <- Hget. apply counter_get_item; assumption. }
    rewrite Hm. split.
    + unfold positive in Hpos. rewrite Forall_forall in Hpos. apply (Hpos _ Hin).
    + intros other. rewrite <- Hget.
      destruct (decide (other ∈ map fst (x :: c))) as [Hk|Hk].
      * apply list_elem_of_fmap in Hk as ([k m'] & -> & Hk). cbn [fst].
        rewrite (counter_get_item _ _ _ Hnd Hk). apply (Hmax _ Hk).
      * rewrite (counter_get_absent _ _ Hk). lia.
Qed.

End LangFacts.

Lemma lang_count_map (lang : string) (ps : list string) :
  length (List.filter (LangSpec.has_lang lang) ps)
  = length (List.filter (fun l => match l with Some l => String.eqb l lang | None => false end)
              (map LangSpec.lang_of_path ps)).
Proof.
  induction ps as [|p ps IH]; [reflexivity|]. cbn [map List.filter].
  unfold LangSpec.has_lang at 1. destruct (LangSpec.lang_of_path p) as [l|]; [|exact IH].
  destruct (String.eqb l lang); [cbn [length]; rewrite IH|]; reflexivity || exact IH.
Qed.

Lemma recognized_map (ps : list string) :
  List.filter LangSpec.recognized ps = [] ->
  Forall (fun l => l = None) (map LangSpec.lang_of_path ps).
Proof.
  induction ps as [|p ps IH]; [constructor|]. cbn [map List.filter].
  unfold LangSpec.recognized at 1. destruct (LangSpec.lang_of_path p); [discriminate|].
  intros H. constructor; [reflexivity | apply IH; exact H].
Qed.

(** Two headers for Go and one for Python: no language but Go is the most
    frequent. *)
Lemma most_frequent_sample (lang : string) (texts : list string) :
  map LangSpec.lang_of_path (LangSpec.header_paths texts)
  = [Some "Go"; Some "Go"; None; Some "Python"] ->
  (List.filter LangSpec.recognized (LangSpec.header_paths texts) = [] /\ lang = "Python")
  \/ (0 < LangSpec.lang_count lang texts /\
      forall other, LangSpec.lang_count other texts <= LangSpec.lang_count lang texts) ->
  lang = "Go".
Proof.
  intros Hlangs [[Hnil _]|[_ Hmax]].
  - apply recognized_map in Hnil. rewrite Hlangs in Hnil.
    apply Forall_cons in Hnil as [Hgo _]. discriminate Hgo.
  - specialize (Hmax "Go"). unfold LangSpec.lang_count in Hmax.
    rewrite !lang_count_map, Hlangs in Hmax. cbn [List.filter] in Hmax.
    destruct (String.eqb_spec "Go" lang) as [Heq|Hne]; [symmetry; exact Heq|].
    exfalso. change (String.eqb "Go" "Go") with true in Hmax.
    change (String.eqb "Python" "Go") with false in Hmax.
    destruct (String.eqb "Python" lang); simpl in Hmax; lia.
Qed.

(** Without a header, every count is zero. *)
Lemma most_frequent_none (lang : string) (texts : list string) :
  LangSpec.header_paths texts = [] ->
  (List.filter LangSpec.recognized (LangSpec.header_paths texts) = [] /\ lang = "Python")
  \/ (0 < LangSpec.lang_count lang texts /\
      forall other, LangSpec.lang_count other texts <= LangSpec.lang_count lang texts) ->
  lang = "Python".
Proof.
  intros Hnone [[_ Hpy]|[Hpos _]]; [exact Hpy|].
  unfold LangSpec.lang_count in Hpos. rewrite Hnone in Hpos. simpl in Hpos. lia.
Qed.

Lemma infer_language_most_frequent_witness :
  let texts := [sample_patch; EmptyString; sample_test_patch] in
  LangSpec.header_paths texts = ["cmd/z.go"; "pkg/w.GO"; "README"; "t.py"] /\
  fst (Lang.infer_language_from_diff_text texts) = "Go" /\
  fst (Lang.infer_language_from_diff_text [EmptyString; "+++ b/x.go"]) = "Python".
Proof.
  split; [vm_compute; reflexivity|]. split.
  - apply (most_frequent_sample _ [sample_patch; EmptyString; sample_test_patch]);
      [vm_compute; reflexivity|].
    exact (infer_language_most_frequent [sample_patch; EmptyString; sample_test_patch]).
  - apply (most_frequent_none _ [EmptyString; "+++ b/x.go"]); [vm_compute; reflexivity|].
    exact (infer_language_most_frequent [EmptyString; "+++ b/x.go"]).
Defined.

(** ** The fail-to-pass report *)

(** C9. The report is computed for every list of rows: neither the
    division nor [min] and [max] can raise. For the empty list the ratio is
    the literal zero of the guarded branch and both bounds are 0. *)
Theorem build_report_total :
  (forall rows top_n, exists r, Report.build_report rows top_n = Ok r) /\
  (forall top_n,
      exists r, Report.build_report [] top_n = Ok r /\
                Report.total_instances r = 0 /\ Report.f2p_ratio r = 0%Q /\
                Report.ptp_min r = 0 /\ Report.ptp_max r = 0).
Proof.
  split.
  - intros rows top_n. unfold Report.build_report.
    destruct rows as [|row rows].
    + eexists. reflexivity.
    + cbn [length map Nat.eqb negb Report.py_truediv Report.py_min Report.py_max Report.rbind].
      eexists. reflexivity.
  - intros top_n. eexists. split; [reflexivity|]. repeat split; reflexivity.
Qed.

Example build_report_empty :
  Report.build_report [] 20 = Ok (Report.mk_report 0 0 0%Q [] [] 0 0).
Proof. reflexivity. Qed.

(** Without their guards the division and the bounds do raise on the empty
    list. *)
Example unguarded_raise :
  Report.py_truediv 0 0 = Raise Report.ZeroDivisionError /\
  Report.py_min [] = Raise (Report.ValueError "min() arg is an empty sequence") /\
  Report.py_max [] = Raise (Report.ValueError "max() arg is an empty sequence").
Proof. repeat split; reflexivity. Qed.

(** ** Dictionaries in insertion order *)

Section AssocFacts.

Context {K V : Type} (eqb : K -> K -> bool).
Hypothesis eqb_eq : forall x y, eqb x y = true <-> x = y.

Import Pull2Issue.

Lemma eqb_refl_true x : eqb x x = true.
Proof. apply eqb_eq. reflexivity. Qed.

Lemma eqb_ne x y : x <> y -> eqb x y = false.
Proof.
  intros Hne. destruct (eqb x y) eqn:E; [|reflexivity].
  apply eqb_eq in E. contradiction.
Qed.

Lemma al_get_update_eq k (f : V -> V) dflt (d : list (K * V)) :
  al_get eqb k (al_update eqb k f dflt d) = Some (f (default dflt (al_get eqb k d))).
Proof.
  induction d as [|[k0 v] d IH]; simpl.
  - rewrite eqb_refl_true. reflexivity.
  - destruct (eqb k0 k) eqn:E; simpl; rewrite E; [reflexivity | exact IH].
Qed.

Lemma al_get_update_ne k k' (f : V -> V) dflt (d : list (K * V)) :
  k <> k' -> al_get eqb k' (al_update eqb k f dflt d) = al_get eqb k' d.
Proof.
  intros Hne. induction d as [|[k0 v] d IH]; simpl.
  - rewrite (eqb_ne _ _ Hne). reflexivity.
  - destruct (eqb k0 k) eqn:E; simpl.
    + apply eqb_eq in E. subst k0. rewrite (eqb_ne _ _ Hne). reflexivity.
    + destruct (eqb k0 k'); [reflexivity | exact IH].
Qed.

Lemma al_update_keys k (f : V -> V) dflt (d : list (K * V)) x :
  x ∈ map fst (al_update eqb k f dflt d) <-> x = k \/ x ∈ map fst d.
Proof.
  induction d as [|[k0 v] d IH]; simpl.
  - rewrite list_elem_of_singleton, elem_of_nil. tauto.
  - destruct (eqb k0 k) eqn:E; simpl.
    + apply eqb_eq in E. subst k0. rewrite !elem_of_cons. tauto.
    + rewrite !elem_of_cons, IH. tauto.
Qed.

Lemma al_update_NoDup k (f : V -> V) dflt (d : list (K * V)) :
  NoDup (map fst d) -> NoDup (map fst (al_update eqb k f dflt d)).
Proof.
  induction d as [|[k0 v] d IH]; simpl; intros Hnd.
  - apply NoDup_singleton.
  - apply NoDup_cons in Hnd as [Hnotin Hnd].
    destruct (eqb k0 k) eqn:E; simpl.
    + apply NoDup_cons. auto.
    + apply NoDup_cons. split; [|auto].
      rewrite al_update_keys. intros [->|Hin]; [|contradiction].
      rewrite eqb_refl_true in E. discriminate E.
Qed.

Lemma al_get_None k (d : list (K * V)) : al_get eqb k d = None <-> k ∉ map fst d.
Proof.
  induction d as [|[k0 v] d IH]; simpl.
  - split; [intros _; apply not_elem_of_nil | reflexivity].
  - rewrite not_elem_of_cons. destruct (eqb k0 k) eqn:E.
    + apply eqb_eq in E. subst k0. split; [discriminate | intros [Hne _]; congruence].
    + rewrite IH. split; [|tauto]. intros Hn. split; [|exact Hn].
      intros ->. rewrite eqb_refl_true in E. discriminate E.
Qed.

End AssocFacts.

(** ** The grouping of the issue-PR map *)

Section GroupFacts.

Import Pull2Issue Pull2IssueSpec.

Lemma pr_map_of_add g r pr i r' :
  pr_map_of (add_entry g r pr i) r'
  = if String.eqb r r'
    then al_update Z.eqb pr (fun issues => issues ++ [i]) [] (pr_map_of g r')
    else pr_map_of g r'.
Proof.
  unfold pr_map_of, add_entry. destruct (String.eqb r r') eqn:E.
  - apply String.eqb_eq in E. subst r'.
    rewrite (al_get_update_eq String.eqb String.eqb_eq). reflexivity.
  - apply String.eqb_neq in E.
    rewrite (al_get_update_ne String.eqb String.eqb_eq) by exact E. reflexivity.
Qed.

Lemma issues_at_add g r pr i r' pr' :
  issues_at (add_entry g r pr i) r' pr'
  = issues_at g r' pr' ++ (if String.eqb r r' && Z.eqb pr pr' then [i] else []).
Proof.
  unfold issues_at. rewrite pr_map_of_add.
  destruct (String.eqb r r'); cbn [andb]; [|rewrite app_nil_r; reflexivity].
  destruct (Z.eqb pr pr') eqn:E.
  - apply Z.eqb_eq in E. subst pr'.
    rewrite (al_get_update_eq Z.eqb Z.eqb_eq). reflexivity.
  - apply Z.eqb_neq in E.
    rewrite (al_get_update_ne Z.eqb Z.eqb_eq) by exact E.
    rewrite app_nil_r. reflexivity.
Qed.

Lemma repo_keys_add g r pr i x :
  x ∈ map fst (add_entry g r pr i) <-> x = r \/ x ∈ map fst g.
Proof. unfold add_entry. apply (al_update_keys String.eqb String.eqb_eq). Qed.

Lemma pr_keys_add g r pr i r' x :
  x ∈ map fst (pr_map_of (add_entry g r pr i) r')
  <-> (r = r' /\ x = pr) \/ x ∈ map fst (pr_map_of g r').
Proof.
  rewrite pr_map_of_add. destruct (String.eqb r r') eqn:E.
  - apply String.eqb_eq in E. subst r'.
    rewrite (al_update_keys Z.eqb Z.eqb_eq). tauto.
  - apply String.eqb_neq in E. tauto.
Qed.

Lemma wf_nil : wf [].
Proof. split; [constructor | intros r; constructor]. Qed.

Lemma wf_add g r pr i : wf g -> wf (add_entry g r pr i).
Proof.
  intros [Hg Hm]. split.
  - unfold add_entry. apply (al_update_NoDup String.eqb String.eqb_eq). exact Hg.
  - intros r'. rewrite pr_map_of_add. destruct (String.eqb r r'); [|apply Hm].
    apply (al_update_NoDup Z.eqb Z.eqb_eq). apply Hm.
Qed.

Lemma grouped_from_cons g r pr i es :
  grouped_from g ((r, pr, i) :: es) = grouped_from (add_entry g r pr i) es.
Proof. reflexivity. Qed.

Lemma wf_grouped g es : wf g -> wf (grouped_from g es).
Proof.
  revert g. induction es as [|[[r pr] i] es IH]; intros g Hg; [exact Hg|].
  rewrite grouped_from_cons. apply IH. apply wf_add. exact Hg.
Qed.

Lemma issues_of_cons r pr r0 pr0 i0 es :
  issues_of r pr ((r0, pr0, i0) :: es)
  = (if String.eqb r0 r && Z.eqb pr0 pr then [i0] else []) ++ issues_of r pr es.
Proof.
  unfold issues_of.
  change (omap (issue_if r pr) ((r0, pr0, i0) :: es))
    with (match issue_if r pr (r0, pr0, i0) with
          | Some y => y :: omap (issue_if r pr) es
          | None => omap (issue_if r pr) es
          end).
  unfold issue_if at 1. cbn [fst snd].
  destruct (String.eqb r0 r && Z.eqb pr0 pr); reflexivity.
Qed.

Lemma issues_at_grouped g es r pr :
  issues_at (grouped_from g es) r pr = issues_at g r pr ++ issues_of r pr es.
Proof.
  revert g. induction es as [|[[r0 pr0] i0] es IH]; intros g.
  - simpl. rewrite app_nil_r. reflexivity.
  - rewrite grouped_from_cons, IH, issues_at_add, issues_of_cons, <- app_assoc.
    reflexivity.
Qed.

Lemma repo_keys_grouped g es x :
  x ∈ map fst (grouped_from g es)
  <-> x ∈ map fst g \/ exists pr i, (x, pr, i) ∈ es.
Proof.
  revert g. induction es as [|[[r0 pr0] i0] es IH]; intros g.
  - simpl. split; [auto|]. intros [H|(pr & i & H)]; [exact H|].
    apply elem_of_nil in H. contradiction.
  - rewrite grouped_from_cons, IH, repo_keys_add. split.
    + intros [[->|H]|(pr & i & H)].
      * right. exists pr0, i0. apply list_elem_of_here.
      * left. exact H.
      * right. exists pr, i. apply list_elem_of_further. exact H.
    + intros [H|(pr & i & H)]; [auto|].
      apply elem_of_cons in H as [[= -> -> ->]|H]; [auto|]. right. eauto.
Qed.

Lemma pr_keys_grouped g es r x :
  x ∈ map fst (pr_map_of (grouped_from g es) r)
  <-> x ∈ map fst (pr_map_of g r) \/ exists i, (r, x, i) ∈ es.
Proof.
  revert g. induction es as [|[[r0 pr0] i0] es IH]; intros g.
  - simpl. split; [auto|]. intros [H|(i & H)]; [exact H|].
    apply elem_of_nil in H. contradiction.
  - rewrite grouped_from_cons, IH, pr_keys_add. split.
    + intros [[[-> ->]|H]|(i & H)].
      * right. exists i0. apply list_elem_of_here.
      * left. exact H.
      * right. exists i. apply list_elem_of_further. exact H.
    + intros [H|(i & H)]; [auto|].
      apply elem_of_cons in H as [[= -> -> ->]|H]; [auto|]. right. eauto.
Qed.

Lemma elem_of_issues_of r pr es i : i ∈ issues_of r pr es <-> (r, pr, i) ∈ es.
Proof.
  unfold issues_of. rewrite list_elem_of_omap. split.
  - intros ([[r0 pr0] i0] & Hin & Hif). unfold issue_if in Hif. cbn [fst snd] in Hif.
    destruct (String.eqb r0 r) eqn:E1; [|discriminate Hif].
    destruct (Z.eqb pr0 pr) eqn:E2; [|discriminate Hif].
    apply String.eqb_eq in E1. apply Z.eqb_eq in E2. cbn in Hif. congruence.
  - intros Hin. exists (r, pr, i). split; [exact Hin|].
    unfold issue_if. cbn [fst snd]. rewrite String.eqb_refl, Z.eqb_refl. reflexivity.
Qed.

End GroupFacts.

(** ** The order of strings *)

Lemma string_compare_le_trans (a b c : string) :
  String.compare a b <> Gt -> String.compare b c <> Gt -> String.compare a c <> Gt.
Proof.
  revert b c. induction a as [|x a IH]; intros [|y b] [|z c]; simpl; try congruence.
  unfold Ascii.compare.
  destruct (N.compare_spec (N_of_ascii x) (N_of_ascii y)) as [Hxy|Hxy|Hxy];
    destruct (N.compare_spec (N_of_ascii y) (N_of_ascii z)) as [Hyz|Hyz|Hyz];
    destruct (N.compare_spec (N_of_ascii x) (N_of_ascii z)) as [Hxz|Hxz|Hxz];
    try congruence; try lia.
  apply IH.
Qed.

#[local] Instance str_le_trans : Transitive Pull2Issue.str_le.
Proof.
  intros a b c. unfold Pull2Issue.str_le, String.leb. intros Hab Hbc.
  pose proof (string_compare_le_trans a b c) as H.
  destruct (String.compare a b); destruct (String.compare b c);
    destruct (String.compare a c); try reflexivity; try discriminate;
    exfalso; apply H; congruence.
Qed.

#[local] Instance str_le_antisymm : AntiSymm eq Pull2Issue.str_le.
Proof. intros a b. apply String.leb_antisym. Qed.

#[local] Instance str_le_total : Total Pull2Issue.str_le.
Proof. intros a b. apply String.leb_total. Qed.

(** Sorting depends on the elements only. *)
Lemma merge_sort_perm {A} (R : relation A) `{!forall x y, Decision (R x y)}
    `{!Transitive R} `{!AntiSymm eq R} `{!Total R} (l k : list A) :
  l ≡ₚ k -> merge_sort R l = merge_sort R k.
Proof.
  intros Hperm. apply (Sorted_unique R).
  - apply Sorted_merge_sort; assumption.
  - apply Sorted_merge_sort; assumption.
  - rewrite !merge_sort_Permutation. exact Hperm.
Qed.

Lemma sorted_nodup_strict (l : list Z) :
  StronglySorted Z.le l -> NoDup l -> StronglySorted Z.lt l.
Proof.
  induction l as [|x l IH]; intros Hs Hnd; [constructor|].
  apply StronglySorted_inv in Hs as [Hs Hx]. apply NoDup_cons in Hnd as [Hnotin Hnd].
  constructor; [auto|]. rewrite Forall_forall in Hx |- *. intros y Hy.
  specialize (Hx y Hy). assert (x <> y) by (intros ->; contradiction). lia.
Qed.

Lemma merge_sort_strict (l : list Z) :
  NoDup l -> StronglySorted Z.lt (merge_sort Z.le l).
Proof.
  intros Hnd. apply sorted_nodup_strict.
  - apply StronglySorted_merge_sort; apply _.
  - rewrite merge_sort_Permutation. exact Hnd.
Qed.

(** ** The pull-to-issue files *)

Section Pull2IssueTheorems.

Import Pull2Issue Pull2IssueSpec.

Variable int_of_text : string -> option Z.

Lemma split_once_nonempty repo : is_Some (split_once repo) -> Py.truthy (VStr repo) = true.
Proof. destruct repo; [intros [x Hx]; discriminate Hx | reflexivity]. Qed.

Lemma entry_of_inv v repo pr issue :
  entry_of v = Some (repo, pr, issue) ->
  exists it, v = VDict it /\ Py.get it "repo" = VStr repo /\
             Py.get it "pr_number" = VInt pr /\ Py.get it "issue_number" = VInt issue /\
             is_Some (split_once repo).
Proof.
  unfold entry_of. destruct v as [| | | | |it]; try discriminate.
  destruct (Py.get it "repo") as [| | |r| |] eqn:Hr; try discriminate.
  destruct (Py.get it "pr_number") as [| |p| | |] eqn:Hp; try discriminate.
  destruct (Py.get it "issue_number") as [| |i| | |] eqn:Hi; try discriminate.
  destruct (split_once r) as [x|] eqn:E; [|discriminate].
  intros [= -> -> ->]. exists it.
  split; [reflexivity|]. split; [exact Hr|]. split; [exact Hp|]. split; [exact Hi|].
  exists x. exact E.
Qed.

(** On a valid map the first loop is the grouping of its entries. *)
Lemma collect_valid items g :
  forallb valid_item items = true ->
  collect int_of_text items g = Ok (grouped_from g (entries items)).
Proof.
  revert g. induction items as [|v items IH]; intros g Hvalid; [reflexivity|].
  cbn [forallb] in Hvalid. apply andb_prop in Hvalid as [Hv Hrest].
  unfold valid_item in Hv. destruct (entry_of v) as [[[repo pr] issue]|] eqn:E;
    [|discriminate Hv].
  unfold entries. cbn [omap list_omap]. rewrite E.
  change (omap entry_of items) with (entries items). rewrite grouped_from_cons.
  apply entry_of_inv in E as (it & -> & Hrepo & Hpr & Hissue & Hsplit).
  cbn [collect]. rewrite Hrepo, Hpr, Hissue, (split_once_nonempty _ Hsplit).
  cbn [negb orb py_int Report.rbind Py.str]. apply IH. exact Hrest.
Qed.

(** The records of one file. *)
Lemma records_spec (g : groups) (r : string) (es : list (string * Z * Z)) :
  g = grouped_from [] es ->
  let recs := pull2issue_records (pr_map_of g r) in
  StronglySorted Z.lt (map fst recs) /\
  (forall pr, pr ∈ map fst recs <-> exists i, (r, pr, i) ∈ es) /\
  Forall (fun rec => StronglySorted Z.lt (snd rec) /\
                     forall i, i ∈ snd rec <-> (r, fst rec, i) ∈ es) recs.
Proof.
  intros -> recs. subst recs. unfold pull2issue_records.
  assert (Hwf : wf (grouped_from [] es)) by (apply wf_grouped, wf_nil).
  destruct Hwf as [_ Hnd]. specialize (Hnd r).
  rewrite map_map. cbn [fst]. rewrite map_id.
  split; [apply merge_sort_strict; exact Hnd|]. split.
  - intros pr. rewrite merge_sort_Permutation, pr_keys_grouped.
    split; [intros [H|H]; [apply elem_of_nil in H; contradiction | exact H] | auto].
  - apply Forall_map. apply Forall_forall. intros pr _. cbn [fst snd].
    split.
    + apply merge_sort_strict. apply NoDup_elements.
    + intros i. rewrite merge_sort_Permutation, elem_of_elements, elem_of_list_to_set.
      change (default [] (al_get Z.eqb pr (pr_map_of (grouped_from [] es) r)))
        with (issues_at (grouped_from [] es) r pr).
      rewrite issues_at_grouped. change (issues_at [] r pr) with (@nil Z).
      cbn [app]. apply elem_of_issues_of.
Qed.

(** Permuting the entries changes no file. *)
Lemma records_perm (es es' : list (string * Z * Z)) (r : string) :
  es' ≡ₚ es ->
  pull2issue_records (pr_map_of (grouped_from [] es') r)
  = pull2issue_records (pr_map_of (grouped_from [] es) r).
Proof.
  intros Hperm. unfold pull2issue_records.
  assert (Hkeys : map fst (pr_map_of (grouped_from [] es') r)
                  ≡ₚ map fst (pr_map_of (grouped_from [] es) r)).
  { apply NoDup_Permutation.
    - apply (wf_grouped [] es' wf_nil).
    - apply (wf_grouped [] es wf_nil).
    - intros pr. rewrite !pr_keys_grouped.
      split; intros [H|[i H]]; try (apply elem_of_nil in H; contradiction);
        right; exists i; [rewrite <- Hperm | rewrite Hperm]; exact H. }
  rewrite (merge_sort_perm Z.le _ _ Hkeys).
  apply map_ext. intros pr.
  change (default [] (al_get Z.eqb pr (pr_map_of (grouped_from [] es') r)))
    with (issues_at (grouped_from [] es') r pr).
  change (default [] (al_get Z.eqb pr (pr_map_of (grouped_from [] es) r)))
    with (issues_at (grouped_from [] es) r pr).
  assert (Hset : (list_to_set (issues_at (grouped_from [] es') r pr) : gset Z)
                 = list_to_set (issues_at (grouped_from [] es) r pr)).
  { rewrite !issues_at_grouped. apply list_to_set_perm_L.
    apply Permutation_app; [reflexivity|]. unfold issues_of. rewrite Hperm. reflexivity. }
  rewrite Hset. reflexivity.
Qed.

Lemma repos_perm (es es' : list (string * Z * Z)) :
  es' ≡ₚ es ->
  merge_sort str_le (map fst (grouped_from [] es'))
  = merge_sort str_le (map fst (grouped_from [] es)).
Proof.
  intros Hperm. apply (merge_sort_perm str_le). apply NoDup_Permutation.
  - apply (wf_grouped [] es' wf_nil).
  - apply (wf_grouped [] es wf_nil).
  - intros x. rewrite !repo_keys_grouped.
    split; intros [H|(pr & i & H)]; try (apply elem_of_nil in H; contradiction);
      right; exists pr, i; [rewrite <- Hperm | rewrite Hperm]; exact H.
Qed.

Lemma forallb_perm {A} (f : A -> bool) (l l' : list A) :
  l' ≡ₚ l -> forallb f l = true -> forallb f l' = true.
Proof.
  intros Hperm. rewrite !forallb_forall. intros H x Hx. apply H.
  apply list_elem_of_In. rewrite <- Hperm. apply list_elem_of_In. exact Hx.
Qed.

End Pull2IssueTheorems.

(** ** The error path of the evaluator *)

Section ErrorPath.

Context {R : Runtime}.

(** When the [try] block raises an [Exception] and the handler can make
    the instance directory and write into it, the evaluation returns
    [error] with the kind and the message of the exception, and
    [error.txt] holds the same text and a line feed. The handler has no
    [try] of its own: when it cannot write, its exception leaves
    [_run_one] (the sample run on a blocked directory shows it). *)
Lemma run_one_error_artifact (instance : pydict) (plat : platform) (out_dir : path)
    (timeout_s : Z) (overwrite : bool) (w w1 : world R) (e : exn) (fs1 : FS.t) :
  first_blank instance = None ->
  skip_error overwrite (w_fs w) out_dir instance = None ->
  skip_applies overwrite (w_fs w) out_dir instance = false ->
  run_both R instance plat out_dir timeout_s w = (w1, Raise e) ->
  exn_is_exception e = true ->
  FS.mkdir_parents (instance_dir out_dir instance) (w_fs w1) = (fs1, Ok tt) ->
  is_dir fs1 (error_path_of out_dir instance) = false ->
  exists w',
    _run_one R instance plat out_dir timeout_s overwrite w
    = (w', Ok ("error", Some (error_text e))) /\
    w_fs w' !! error_path_of out_dir instance = Some (File (error_text e +:+ nl)) /\
    w_trace w' = w_trace w1.
Proof.
  intros Hblank Hstat Hskip Hrun Hexc Hmk Hdir.
  destruct (artifact_paths out_dir instance) as (_ & _ & Ee).
  rewrite run_one_cascade, !(first_blank_none _ _ Hblank), Hstat, Hskip.
  unfold try_except. rewrite Hrun, Hexc.
  unfold on_error, bind at 1, fs_step. rewrite Hmk. cbn [w_fs w_env w_seen w_trace].
  unfold bind. rewrite Ee in Hdir |- *.
  rewrite (write_text_steps (instance_dir out_dir instance) "error.txt" _ _ fs1);
    [| apply mkdir_parents_done; apply (mkdir_parents_is_dir _ _ _ Hmk) | reflexivity
     | exact Hdir].
  eexists. split; [reflexivity|]. cbn [w_fs w_trace]. split; [|reflexivity].
  apply lookup_insert_eq.
Qed.

End ErrorPath.

Example run_one_error_sample :
  let run := _run_one Mock.runtime Mock.bad_patch_instance Linux Mock.out 60 false
               (Mock.world0 ∅) in
  snd run = Ok ("error", Some "PatchApplyFailed: patch does not apply") /\
  w_fs (fst run) !! ["out"; "repo__2"; "error.txt"]
  = Some (File ("PatchApplyFailed: patch does not apply" +:+ nl)) /\
  released (w_trace (fst run)) = 1 /\ acquired (w_trace (fst run)) = 1.
Proof. vm_compute. repeat split; reflexivity. Qed.

(** A teardown that raises an [Exception] is swallowed: the run of the image
    [flaky] still returns its output, and when its patch does not apply the
    error that reaches the caller is that of the patch. In both runs the
    session is released once. *)
Example flaky_cleanup_is_swallowed :
  let ok_run :=
    run_variant Mock.runtime (VStr "flaky") "repo__5" Linux 60 "diff" EmptyString
      EmptyString "pytest -q" "cat log" (VStr "pytest") "prev" false (Mock.world0 ∅) in
  let bad_run :=
    run_variant Mock.runtime (VStr "flaky") "repo__5" Linux 60 "bad diff" EmptyString
      EmptyString "pytest -q" "cat log" (VStr "pytest") "prev" false (Mock.world0 ∅) in
  snd ok_run = Ok ("$ cat log" +:+ nl +:+ "echo OMNIGRIL_EXIT_CODE=0" +:+ nl) /\
  snd bad_run = Raise (mk_exn true "PatchApplyFailed" "patch does not apply") /\
  released (w_trace (fst ok_run)) = 1 /\ acquired (w_trace (fst ok_run)) = 1 /\
  w_trace (fst bad_run)
  = [EvAcquire (VStr "flaky") "repo__5" (Some "flaky"); EvApplyPatch "flaky" "bad diff";
     EvCleanup "flaky"].
Proof. vm_compute. repeat split; reflexivity. Qed.

(** * Further properties *)

(** ** Sessions of an evaluation *)

Section SessionFacts.

Context {R : Runtime}.

Lemma sessions_ret {A} n (a : A) : sessions n (ret R a).
Proof. intros w. exists []. simpl. rewrite app_nil_r. repeat split; lia. Qed.

Lemma sessions_fs_step {A : Type} (n : nat) (f : FS.t -> FS.t * result A) :
  sessions n (fs_step R f).
Proof.
  intros w. exists []. unfold fs_step. destruct (f (w_fs w)). simpl.
  rewrite app_nil_r. repeat split; lia.
Qed.

Lemma sessions_bind {A B} n1 n2 (m : M R A) (k : A -> M R B) :
  sessions n1 m -> (forall a, sessions n2 (k a)) -> sessions (n1 + n2) (bind R m k).
Proof.
  intros Hm Hk w. unfold bind.
  destruct (Hm w) as (new1 & Ht1 & Hb1 & Hn1).
  destruct (m w) as [w1 [a|e]]; simpl in Ht1.
  - destruct (Hk a w1) as (new2 & Ht2 & Hb2 & Hn2).
    exists (new1 ++ new2). rewrite Ht2, Ht1, app_assoc, acquired_app, released_app.
    repeat split; lia.
  - exists new1. simpl. repeat split; [exact Ht1 | exact Hb1 | lia].
Qed.

Lemma sessions_try_except {A} n1 n2 (m : M R A) (h : exn -> M R A) :
  sessions n1 m -> (forall e, sessions n2 (h e)) -> sessions (n1 + n2) (try_except R m h).
Proof.
  intros Hm Hh w. unfold try_except.
  destruct (Hm w) as (new1 & Ht1 & Hb1 & Hn1).
  destruct (m w) as [w1 [a|e]]; simpl in Ht1.
  - exists new1. simpl. repeat split; [exact Ht1 | exact Hb1 | lia].
  - destruct (exn_is_exception e).
    + destruct (Hh e w1) as (new2 & Ht2 & Hb2 & Hn2).
      exists (new1 ++ new2). rewrite Ht2, Ht1, app_assoc, acquired_app, released_app.
      repeat split; lia.
    + exists new1. simpl. repeat split; [exact Ht1 | exact Hb1 | lia].
Qed.

Lemma sessions_write_text (p : path) (text : string) : sessions 0 (_write_text R p text).
Proof.
  unfold _write_text.
  apply (sessions_bind 0 0); [apply sessions_fs_step|]. intros _.
  apply (sessions_bind 0 0); [apply sessions_fs_step|]. intros _.
  apply sessions_fs_step.
Qed.

(** One variant run: at most one session, released when acquired. *)
Lemma sessions_variant image iid plat t tp p rc tc pc parser label apply_solution :
  sessions 1 (run_variant R image iid plat t tp p rc tc pc parser label apply_solution).
Proof.
  intros w. unfold run_variant, bind, acquire. rewrite call_spec.
  destruct (snd (from_launch_image R image iid plat t (w_env w))) as [c|e] eqn:Hacq.
  - set (w1 := mk_world _ _ _ _).
    destruct (quiet_variant_body tp p rc tc pc parser c apply_solution w1)
      as (mid & Hmid & Ha & Hr).
    unfold try_finally, try_except, do_cleanup.
    destruct (variant_body R tp p rc tc pc parser c apply_solution w1) as [w2 rb].
    simpl in Hmid. rewrite call_spec.
    exists ([EvAcquire image iid (Some c)] ++ mid ++ [EvCleanup c]).
    split; [|rewrite !released_app, !acquired_app; simpl; lia].
    assert (Ht : w_trace w2 ++ [EvCleanup c]
                 = w_trace w ++ [EvAcquire image iid (Some c)] ++ mid ++ [EvCleanup c]).
    { rewrite Hmid. subst w1. simpl. rewrite <- !app_assoc. reflexivity. }
    destruct (snd (cleanup R c (w_env w2))) as [[]|b]; [|destruct (exn_is_exception b)];
      exact Ht.
  - exists [EvAcquire image iid None]. simpl. repeat split; lia.
Qed.

(** X1. Whatever an evaluation does and however it ends, it acquires at most
    two sessions and releases each of them: in the calls it adds to the
    trace there are as many cleanups as successful acquires. *)
Theorem run_one_sessions_balanced (instance : pydict) (plat : platform) (out_dir : path)
    (timeout_s : Z) (overwrite : bool) (w : world R) :
  exists new,
    w_trace (fst (_run_one R instance plat out_dir timeout_s overwrite w)) = w_trace w ++ new /\
    released new = acquired new /\ acquired new <= 2.
Proof.
  rewrite run_one_cascade.
  assert (Hnone : exists new : list (event (container R)),
             w_trace w = w_trace w ++ new /\ released new = acquired new /\ acquired new <= 2).
  { exists []. rewrite app_nil_r. repeat split. simpl. lia. }
  destruct (blank FInstanceId instance); [exact Hnone|].
  destruct (skip_error overwrite (w_fs w) out_dir instance); [exact Hnone|].
  destruct (skip_applies overwrite (w_fs w) out_dir instance); [exact Hnone|].
  destruct (blank FImage instance); [exact Hnone|].
  destruct (blank FTestCmds instance); [exact Hnone|].
  destruct (blank FPrintCmds instance); [exact Hnone|].
  destruct (blank FParser instance); [exact Hnone|].
  assert (Htry : sessions (2 + 0)
                   (try_except R (run_both R instance plat out_dir timeout_s)
                      (on_error R instance out_dir))).
  { apply sessions_try_except.
    - unfold run_both, variant_of.
      apply (sessions_bind 1 1); [apply sessions_variant|]. intros prev_out.
      apply (sessions_bind 1 0); [apply sessions_variant|]. intros after_out.
      apply (sessions_bind 0 0); [apply sessions_write_text|]. intros _.
      apply (sessions_bind 0 0); [apply sessions_write_text|]. intros _.
      apply sessions_ret.
    - intros e. unfold on_error.
      apply (sessions_bind 0 0); [apply sessions_fs_step|]. intros _.
      apply (sessions_bind 0 0); [apply sessions_write_text|]. intros _.
      apply sessions_ret. }
  apply Htry.
Qed.

End SessionFacts.

(** ** The order of the calls of a variant run *)

Section PlanFacts.

Context {R : Runtime}.

Lemma follows_ret {A} (a : A) : follows [] (ret R a).
Proof. intros w. exists []. simpl. rewrite app_nil_r. split; reflexivity. Qed.

Lemma follows_raise {A} e : follows [] (@raise R A e).
Proof. intros w. exists []. simpl. rewrite app_nil_r. split; reflexivity. Qed.

Lemma follows_call {A} (f : Env R -> Env R * result A) log k :
  (forall r, kind_of (log r) = Some k) -> follows [k] (call R f log).
Proof.
  intros Hk w. rewrite call_spec. simpl.
  exists [log (snd (f (w_env w)))]. split; [reflexivity|].
  assert (Hone : omap kind_of [log (snd (f (w_env w)))] = [k]).
  { cbn. rewrite Hk. reflexivity. }
  rewrite Hone. destruct (snd (f (w_env w))); reflexivity.
Qed.

Lemma follows_bind {A B} p1 p2 (m : M R A) (k : A -> M R B) :
  follows p1 m -> (forall a, follows p2 (k a)) -> follows (p1 ++ p2) (bind R m k).
Proof.
  intros Hm Hk w. unfold bind.
  destruct (Hm w) as (mid1 & Ht1 & Hp1).
  destruct (m w) as [w1 [a|e]]; simpl in Ht1, Hp1.
  - destruct (Hk a w1) as (mid2 & Ht2 & Hp2).
    exists (mid1 ++ mid2). rewrite Ht2, Ht1, app_assoc. split; [reflexivity|].
    rewrite omap_app, Hp1.
    destruct (snd (k a w1)); [rewrite Hp2; reflexivity | apply prefix_app; exact Hp2].
  - exists mid1. simpl. split; [exact Ht1 | apply prefix_app_r; exact Hp1].
Qed.

Lemma follows_when {A} (b : bool) p (m : M R A) (a : A) :
  follows p m -> follows (if b then p else []) (if b then m else ret R a).
Proof. destruct b; [auto | intros _; apply follows_ret]. Qed.

Lemma follows_rstrip raw : follows [] (py_rstrip R raw).
Proof. destruct raw; simpl; first [apply follows_ret | apply follows_raise]. Qed.

Lemma follows_variant_body tp p rc tc pc parser c apply_solution :
  follows (variant_plan tp p rc tc pc parser apply_solution)
          (variant_body R tp p rc tc pc parser c apply_solution).
Proof.
  unfold variant_body, variant_plan.
  apply follows_bind.
  { apply follows_when. apply follows_call. reflexivity. }
  intros _. apply follows_bind.
  { apply follows_when. apply follows_call. reflexivity. }
  intros _. apply follows_bind.
  { apply (follows_when _ [KSendCommand rc]).
    apply (follows_bind [KSendCommand rc] []);
      [apply follows_call; reflexivity | intros _; apply follows_ret]. }
  intros _.
  apply (follows_bind [KSendCommand tc] [KSendCommand pc; KRunParser (Py.str parser)]);
    [apply follows_call; reflexivity|].
  intros _.
  apply (follows_bind [KSendCommand pc] [KRunParser (Py.str parser)]);
    [apply follows_call; reflexivity|].
  intros res.
  apply (follows_bind [KRunParser (Py.str parser)] []); [apply follows_call; reflexivity|].
  intros status_map.
  apply (follows_bind [] []); [apply follows_rstrip|].
  intros stripped. apply follows_ret.
Qed.

(** X2. A variant run only talks to the runtime, and in a fixed order: the
    test patch when it is not blank, the solution patch when it is asked
    for and not blank, the rebuild command when there is one, the test
    command, the print command, the parser. A run that returns has made
    exactly these calls; a run that raises has made a prefix of them. The
    files are not touched. *)
Theorem run_variant_call_order image iid plat t tp p rc tc pc parser label apply_solution
    (w : world R) :
  let run := run_variant R image iid plat t tp p rc tc pc parser label apply_solution w in
  w_fs (fst run) = w_fs w /\
  exists new,
    w_trace (fst run) = w_trace w ++ new /\
    omap kind_of new `prefix_of` variant_plan tp p rc tc pc parser apply_solution /\
    forall out, snd run = Ok out ->
                omap kind_of new = variant_plan tp p rc tc pc parser apply_solution.
Proof.
  intros run. subst run. split.
  { apply fs_neutral_variant. }
  unfold run_variant, bind, acquire. rewrite call_spec.
  destruct (snd (from_launch_image R image iid plat t (w_env w))) as [c|e] eqn:Hacq.
  - set (w1 := mk_world _ _ _ _).
    destruct (follows_variant_body tp p rc tc pc parser c apply_solution w1)
      as (mid & Hmid & Hplan).
    unfold try_finally, try_except, do_cleanup.
    destruct (variant_body R tp p rc tc pc parser c apply_solution w1) as [w2 rb].
    simpl in Hmid, Hplan. rewrite call_spec.
    exists ([EvAcquire image iid (Some c)] ++ mid ++ [EvCleanup c]).
    assert (Hkinds : omap kind_of ([EvAcquire image iid (Some c)] ++ mid ++ [EvCleanup c])
                     = omap kind_of mid).
    { rewrite !omap_app. cbn. rewrite app_nil_r. reflexivity. }
    rewrite Hkinds.
    assert (Ht : w_trace w2 ++ [EvCleanup c]
                 = w_trace w ++ [EvAcquire image iid (Some c)] ++ mid ++ [EvCleanup c]).
    { rewrite Hmid. subst w1. simpl. rewrite <- !app_assoc. reflexivity. }
    assert (Hpre : omap kind_of mid
                   `prefix_of` variant_plan tp p rc tc pc parser apply_solution).
    { destruct rb; [rewrite Hplan; reflexivity | exact Hplan]. }
    destruct (snd (cleanup R c (w_env w2))) as [[]|b]; [|destruct (exn_is_exception b)];
      simpl; (split; [exact Ht|]); (split; [exact Hpre|]); intros out Hout;
      solve [ subst rb; exact Hplan | discriminate Hout ].
  - exists [EvAcquire image iid None]. simpl. split; [reflexivity|].
    split; [apply prefix_nil | intros out Hout; discriminate Hout].
Qed.

End PlanFacts.

(** ** The files an evaluation touches *)

Lemma fs_grows_refl (inst : path) (allowed : list path) (fs : FS.t) :
  fs_grows inst allowed fs fs.
Proof. intros q. left. reflexivity. Qed.

Lemma fs_grows_trans (inst : path) (allowed : list path) (fs1 fs2 fs3 : FS.t) :
  fs_grows inst allowed fs1 fs2 -> fs_grows inst allowed fs2 fs3 ->
  fs_grows inst allowed fs1 fs3.
Proof.
  intros H12 H23 q.
  destruct (H23 q) as [E23|[(Hpre & Hnone & Hdir)|Hin]]; [| |right; right; exact Hin].
  - rewrite E23. apply H12.
  - destruct (H12 q) as [E12|[(_ & _ & Hdir2)|Hin]]; [| |right; right; exact Hin].
    + right. left. rewrite <- E12. auto.
    + congruence.
Qed.

Lemma fs_grows_mono (inst inst' : path) (allowed allowed' : list path) (fs fs' : FS.t) :
  inst `prefix_of` inst' -> allowed ⊆ allowed' ->
  fs_grows inst allowed fs fs' -> fs_grows inst' allowed' fs fs'.
Proof.
  intros Hpre Hsub H q.
  destruct (H q) as [E|[(Hq & Hnone & Hdir)|Hin]]; [left; exact E | | right; right; auto].
  right. left. split; [|auto]. etrans; eassumption.
Qed.

Lemma node_at_None (fs : FS.t) (p : path) :
  FS.node_at fs p = None -> p <> [] /\ fs !! p = None.
Proof. destruct p; [discriminate | intros H; split; [discriminate | exact H]]. Qed.

Lemma fs_grows_mkdir_here (p : path) (fs : FS.t) :
  FS.node_at fs p = None -> fs_grows p [] fs (<[p := Dir]> fs).
Proof.
  intros Hnone q. apply node_at_None in Hnone as [_ Hnone].
  destruct (decide (q = p)) as [->|Hne].
  - right. left. split; [reflexivity|]. split; [exact Hnone | apply lookup_insert_eq].
  - left. apply lookup_insert_ne. intros Heq. apply Hne. symmetry. exact Heq.
Qed.

(** Making a directory creates missing ancestors and nothing else. *)
Lemma mkdir_rev_grows (rp : list string) (fs : FS.t) :
  fs_grows (rev rp) [] fs (fst (FS.mkdir_rev rp fs)).
Proof.
  revert fs. induction rp as [|x rp IH]; intros fs.
  - simpl. apply fs_grows_refl.
  - cbn [FS.mkdir_rev].
    destruct (FS.node_at fs (rev (x :: rp))) as [[|t]|] eqn:Hnode;
      [apply fs_grows_refl | apply fs_grows_refl |].
    destruct (FS.refused_rev fs (x :: rp)); [apply fs_grows_refl|].
    destruct (FS.node_at fs (rev rp)) as [[|t]|] eqn:Hparent.
    + apply fs_grows_mkdir_here. exact Hnode.
    + apply fs_grows_refl.
    + specialize (IH fs). destruct (FS.mkdir_rev rp fs) as [fs1 [[]|e]]; simpl in IH |- *.
      * destruct (FS.too_long x); cbn [fst].
        { apply (fs_grows_mono (rev rp) _ [] []); [|reflexivity | exact IH].
          apply prefix_app_r. reflexivity. }
        intros q. apply node_at_None in Hnode as [_ Hnode].
        destruct (decide (q = rev (x :: rp))) as [->|Hne].
        -- right. left. split; [reflexivity|]. split; [exact Hnode | apply lookup_insert_eq].
        -- rewrite lookup_insert_ne by (intros Heq; apply Hne; symmetry; exact Heq).
           destruct (IH q) as [E|[(Hq & Hn & Hd)|Hin]];
             [left; exact E | | apply elem_of_nil in Hin; contradiction].
           right. left. split; [|auto]. simpl. apply prefix_app_r. exact Hq.
      * apply (fs_grows_mono (rev rp) _ [] []); [|reflexivity | exact IH].
        simpl. apply prefix_app_r. reflexivity.
Qed.

Lemma mkdir_parents_grows (p : path) (fs : FS.t) :
  fs_grows p [] fs (fst (FS.mkdir_parents p fs)).
Proof.
  unfold FS.mkdir_parents. pose proof (mkdir_rev_grows (rev p) fs) as H.
  rewrite rev_involutive in H. exact H.
Qed.

Lemma fs_grows_write (inst p : path) (n : node) (fs : FS.t) :
  fs_grows inst [p] fs (<[p := n]> fs).
Proof.
  intros q. destruct (decide (q = p)) as [->|Hne].
  - right. right. apply list_elem_of_here.
  - left. apply lookup_insert_ne. intros Heq. apply Hne. symmetry. exact Heq.
Qed.

Lemma open_w_grows (inst p : path) (fs : FS.t) :
  fs_grows inst [p] fs (fst (FS.open_w p fs)).
Proof.
  unfold FS.open_w.
  destruct (FS.node_at fs p) as [[|t]|];
    [apply fs_grows_refl | apply fs_grows_write |].
  destruct (FS.stat_error fs p); [apply fs_grows_refl|].
  destruct (FS.node_at fs (Pathlib.parent p)) as [[|t]|];
    [apply fs_grows_write | apply fs_grows_refl | apply fs_grows_refl].
Qed.

Section ConfinedFacts.

Context {R : Runtime}.
Variables (inst : path) (allowed : list path).

Lemma confined_ret {A} (a : A) : confined inst allowed (ret R a).
Proof. intros w. apply fs_grows_refl. Qed.

Lemma confined_bind {A B} (m : M R A) (k : A -> M R B) :
  confined inst allowed m -> (forall a, confined inst allowed (k a)) ->
  confined inst allowed (bind R m k).
Proof.
  intros Hm Hk w. unfold bind. specialize (Hm w).
  destruct (m w) as [w1 [a|e]]; simpl in Hm; [|exact Hm].
  eapply fs_grows_trans; [exact Hm | apply Hk].
Qed.

Lemma confined_try_except {A} (m : M R A) (h : exn -> M R A) :
  confined inst allowed m -> (forall e, confined inst allowed (h e)) ->
  confined inst allowed (try_except R m h).
Proof.
  intros Hm Hh w. unfold try_except. specialize (Hm w).
  destruct (m w) as [w1 [a|e]]; simpl in Hm; [exact Hm|].
  destruct (exn_is_exception e); [|exact Hm].
  eapply fs_grows_trans; [exact Hm | apply Hh].
Qed.

Lemma confined_fs_step {A : Type} (f : FS.t -> FS.t * result A) :
  (forall fs : FS.t, fs_grows inst allowed fs (fst (f fs))) ->
  confined inst allowed (fs_step R f).
Proof.
  intros Hf w. unfold fs_step. specialize (Hf (w_fs w)).
  destruct (f (w_fs w)) as [fs' r]. exact Hf.
Qed.

Lemma confined_neutral {A} (m : M R A) : fs_neutral m -> confined inst allowed m.
Proof. intros Hm w. destruct (Hm w) as [-> _]. apply fs_grows_refl. Qed.

Lemma confined_write_text (x text : string) :
  inst ++ [x] ∈ allowed -> confined inst allowed (_write_text R (inst ++ [x]) text).
Proof.
  intros Hin. unfold _write_text, Pathlib.parent. rewrite removelast_last.
  assert (Hsub : [inst ++ [x]] ⊆ allowed).
  { intros q Hq. apply list_elem_of_singleton in Hq. subst q. exact Hin. }
  apply confined_bind.
  { apply confined_fs_step. intros fs.
    apply (fs_grows_mono inst inst [] allowed); [reflexivity | | apply mkdir_parents_grows].
    intros q Hq. apply elem_of_nil in Hq. contradiction. }
  intros _. apply confined_bind.
  { apply confined_fs_step. intros fs.
    apply (fs_grows_mono inst inst [inst ++ [x]] allowed);
      [reflexivity | exact Hsub | apply open_w_grows]. }
  intros _. apply confined_fs_step. intros fs. simpl. unfold FS.write_close.
  apply (fs_grows_mono inst inst [inst ++ [x]] allowed);
    [reflexivity | exact Hsub | apply fs_grows_write].
Qed.

End ConfinedFacts.

(** X3. An evaluation whose instance directory has no [..] component
    touches nothing outside that directory. Every path without a [..]
    component is left as it was, except that missing ancestors of the
    instance directory (and the directory itself) may have been created as
    directories, and that the two artifacts and [error.txt] may have been
    written. This holds however the evaluation ends. (An [instance_id]
    with a [..] component leads out of the output directory.) *)
Theorem run_one_confined {R : Runtime} (instance : pydict) (plat : platform)
    (out_dir : path) (timeout_s : Z) (overwrite : bool) (w : world R) (q : path) :
  no_dotdot (instance_dir out_dir instance) = true ->
  no_dotdot q = true ->
  let fs' := w_fs (fst (_run_one R instance plat out_dir timeout_s overwrite w)) in
  fs' !! q = w_fs w !! q
  \/ (q `prefix_of` instance_dir out_dir instance /\ w_fs w !! q = None /\ fs' !! q = Some Dir)
  \/ q ∈ [prev_path_of out_dir instance; after_path_of out_dir instance;
          error_path_of out_dir instance].
Proof.
  intros _ _ fs'. subst fs'. revert q.
  change (fs_grows (instance_dir out_dir instance)
            [prev_path_of out_dir instance; after_path_of out_dir instance;
             error_path_of out_dir instance]
            (w_fs w) (w_fs (fst (_run_one R instance plat out_dir timeout_s overwrite w)))).
  rewrite run_one_cascade.
  destruct (blank FInstanceId instance); [apply fs_grows_refl|].
  destruct (skip_error overwrite (w_fs w) out_dir instance); [apply fs_grows_refl|].
  destruct (skip_applies overwrite (w_fs w) out_dir instance); [apply fs_grows_refl|].
  destruct (blank FImage instance); [apply fs_grows_refl|].
  destruct (blank FTestCmds instance); [apply fs_grows_refl|].
  destruct (blank FPrintCmds instance); [apply fs_grows_refl|].
  destruct (blank FParser instance); [apply fs_grows_refl|].
  destruct (artifact_paths out_dir instance) as (Ep & Ea & Ee).
  rewrite Ep, Ea, Ee.
  apply confined_try_except.
  - unfold run_both, variant_of. rewrite Ep, Ea.
    apply confined_bind; [apply confined_neutral, fs_neutral_variant|]. intros prev_out.
    apply confined_bind; [apply confined_neutral, fs_neutral_variant|]. intros after_out.
    apply confined_bind; [apply confined_write_text; set_solver|]. intros _.
    apply confined_bind; [apply confined_write_text; set_solver|]. intros _.
    apply confined_ret.
  - intros e. unfold on_error. rewrite Ee.
    apply confined_bind.
    { apply confined_fs_step. intros fs.
      apply (fs_grows_mono (instance_dir out_dir instance) _ [] _);
        [reflexivity | | apply mkdir_parents_grows].
      intros p Hp. apply elem_of_nil in Hp. contradiction. }
    intros _. apply confined_bind; [apply confined_write_text; set_solver|]. intros _.
    apply confined_ret.
Qed.

Lemma run_one_confined_witness :
  let fs0 : FS.t := <[ ["out"; "other"] := File "keep" ]> (<[ ["out"] := Dir ]> ∅) in
  let run := _run_one Mock.runtime Mock.good_instance Linux Mock.out 60 false (Mock.world0 fs0) in
  (no_dotdot (instance_dir Mock.out Mock.good_instance) = true /\
   no_dotdot ["out"; "other"] = true) /\
  snd run = Ok ("ok", None) /\
  w_fs (fst run) !! ["out"; "other"] = Some (File "keep").
Proof.
  intros fs0 run.
  assert (H1 : no_dotdot (instance_dir Mock.out Mock.good_instance) = true) by reflexivity.
  assert (H2 : no_dotdot ["out"; "other"] = true) by reflexivity.
  split; [split; [exact H1 | exact H2]|]. split; [vm_compute; reflexivity|].
  destruct (run_one_confined (R := Mock.runtime) Mock.good_instance Linux Mock.out 60 false
              (Mock.world0 fs0) ["out"; "other"] H1 H2) as [Hsame|[(Hpre & _)|Hin]].
  - etrans; [exact Hsame | vm_compute; reflexivity].
  - exfalso. destruct Hpre as [k Hk]. vm_compute in Hk. discriminate Hk.
  - exfalso. repeat (apply elem_of_cons in Hin as [Hin|Hin]; [vm_compute in Hin; discriminate Hin|]).
    apply elem_of_nil in Hin. exact Hin.
Defined.

(** ** What the result of an evaluation tells *)

Lemma rstrip_idem (s : string) : PyStr.rstrip (PyStr.rstrip s) = PyStr.rstrip s.
Proof.
  induction s as [|c s IH]; [reflexivity|].
  cbn [PyStr.rstrip]. destruct (PyStr.rstrip s) as [|c' r] eqn:E.
  - destruct (PyStr.isspace c) eqn:Hc; [reflexivity|].
    cbn [PyStr.rstrip]. rewrite Hc. reflexivity.
  - change (PyStr.rstrip (String c (String c' r)))
      with (match PyStr.rstrip (String c' r) with
            | EmptyString => if PyStr.isspace c then EmptyString else String c EmptyString
            | r' => String c r'
            end).
    rewrite IH. reflexivity.
Qed.

Section ResultFacts.

Context {R : Runtime}.

Lemma try_finally_ok_inv {A} (body : M R A) (fin : M R unit) w w' (a : A) :
  try_finally R body fin w = (w', Ok a) -> exists w1, body w = (w1, Ok a).
Proof.
  unfold try_finally. destruct (body w) as [w1 r].
  destruct (fin w1) as [w2 [[]|e]]; intros [= <- ->]. exists w1. reflexivity.
Qed.

(** What a variant run returns is an artifact text. *)
Lemma variant_ok_output image iid plat t tp p rc tc pc parser label apply_solution
    (w w' : world R) out :
  run_variant R image iid plat t tp p rc tc pc parser label apply_solution w = (w', Ok out) ->
  judge_output out.
Proof.
  unfold run_variant. intros H.
  apply bind_ok_inv in H as (w1 & c & _ & H).
  apply try_finally_ok_inv in H as (w2 & H).
  apply variant_body_returns in H as (_ & _ & _ & _ & raw & sm & _ & _ & _ & _ & ->).
  exists (PyStr.rstrip raw), (has_fail sm). split; [|apply rstrip_idem].
  unfold marker_line. destruct (has_fail sm); reflexivity.
Qed.

Lemma write_text_grows (p : path) (text : string) (w : world R) :
  fs_grows (Pathlib.parent p) [p] (w_fs w) (w_fs (fst (_write_text R p text w))).
Proof.
  unfold _write_text, bind, fs_step.
  pose proof (mkdir_parents_grows (Pathlib.parent p) (w_fs w)) as H1.
  destruct (FS.mkdir_parents (Pathlib.parent p) (w_fs w)) as [fs1 [[]|e]];
    cbn [fst w_fs] in H1 |- *;
    (assert (H1' : fs_grows (Pathlib.parent p) [p] (w_fs w) fs1);
     [apply (fs_grows_mono (Pathlib.parent p) _ [] _ _ _ (reflexivity _)); [|exact H1];
      intros q Hq; apply elem_of_nil in Hq; contradiction|]);
    [|exact H1'].
  pose proof (open_w_grows (Pathlib.parent p) p fs1) as H2.
  destruct (FS.open_w p fs1) as [fs2 [[]|e]]; cbn [fst w_fs] in H2 |- *.
  - eapply fs_grows_trans; [exact H1'|]. eapply fs_grows_trans; [exact H2|].
    unfold FS.write_close. apply fs_grows_write.
  - eapply fs_grows_trans; [exact H1' | exact H2].
Qed.

(** A write that returns has left the text in the file, has kept every
    other node that was there, and has made no call. *)
Lemma write_text_ok_inv (p : path) (text : string) (w w' : world R) :
  _write_text R p text w = (w', Ok tt) ->
  p <> [] /\ w_fs w' !! p = Some (File text) /\ w_trace w' = w_trace w /\
  forall (q : path) (n : node), q <> p -> w_fs w !! q = Some n -> w_fs w' !! q = Some n.
Proof.
  intros H. pose proof (write_text_grows p text w) as Hg. rewrite H in Hg. cbn [fst] in Hg.
  revert H. unfold _write_text, bind, fs_step.
  destruct (FS.mkdir_parents (Pathlib.parent p) (w_fs w)) as [fs1 [[]|e]]; [|discriminate].
  cbn [w_fs w_env w_seen w_trace].
  destruct (FS.open_w p fs1) as [fs2 [[]|e]] eqn:Hopen; [|discriminate].
  cbn [w_fs w_env w_seen w_trace]. intros [= <-]. cbn [w_fs w_trace].
  split; [|split; [apply lookup_insert_eq | split; [reflexivity|]]].
  - intros ->. unfold FS.open_w in Hopen. simpl in Hopen. discriminate Hopen.
  - intros q n Hne Hq. destruct (Hg q) as [E|[(_ & Hnone & _)|Hin]].
    + cbn [w_fs] in E. rewrite E. exact Hq.
    + congruence.
    + apply list_elem_of_singleton in Hin. contradiction.
Qed.

(** The [try] block returns [ok] only. *)
Lemma run_both_ok_inv instance plat out_dir timeout_s (w w' : world R) res :
  run_both R instance plat out_dir timeout_s w = (w', Ok res) ->
  res = ("ok", None) /\
  exists w1 w2 w3 prev_out after_out,
    variant_of R instance plat timeout_s "prev" false w = (w1, Ok prev_out) /\
    variant_of R instance plat timeout_s "after" true w1 = (w2, Ok after_out) /\
    _write_text R (prev_path_of out_dir instance) prev_out w2 = (w3, Ok tt) /\
    _write_text R (after_path_of out_dir instance) after_out w3 = (w', Ok tt).
Proof.
  unfold run_both. intros H.
  apply bind_ok_inv in H as (w1 & prev_out & Hprev & H).
  apply bind_ok_inv in H as (w2 & after_out & Hafter & H).
  apply bind_ok_inv in H as (w3 & [] & Hw1 & H).
  apply bind_ok_inv in H as (w4 & [] & Hw2 & H).
  unfold ret in H. injection H as <- <-.
  split; [reflexivity|]. exists w1, w2, w3, prev_out, after_out. auto.
Qed.

(** The handler returns [error] only, after it has written [error.txt]. *)
Lemma on_error_ok_inv instance out_dir e (w w' : world R) res :
  on_error R instance out_dir e w = (w', Ok res) ->
  res = ("error", Some (error_text e)) /\
  w_fs w' !! error_path_of out_dir instance = Some (File (error_text e +:+ nl)).
Proof.
  unfold on_error. intros H.
  apply bind_ok_inv in H as (w1 & [] & _ & H).
  apply bind_ok_inv in H as (w2 & [] & Hw & H).
  unfold ret in H. injection H as <- <-.
  split; [reflexivity|]. apply write_text_ok_inv in Hw as (_ & Hfile & _). exact Hfile.
Qed.

(** The ways [_run_one] can return. *)
Lemma run_one_returns instance plat out_dir timeout_s overwrite (w w' : world R) res :
  _run_one R instance plat out_dir timeout_s overwrite w = (w', Ok res) ->
  (exists f, first_blank instance = Some f /\ res = ("error", Some (message_of f)) /\ w' = w
             /\ (f = FInstanceId
                 \/ skip_applies overwrite (w_fs w) out_dir instance = false))
  \/ (blank FInstanceId instance = false /\
      skip_applies overwrite (w_fs w) out_dir instance = true /\
      res = ("skip", None) /\ w' = w)
  \/ (first_blank instance = None /\
      skip_applies overwrite (w_fs w) out_dir instance = false /\
      ((run_both R instance plat out_dir timeout_s w = (w', Ok res) /\ res = ("ok", None))
       \/ exists e w1,
            run_both R instance plat out_dir timeout_s w = (w1, Raise e) /\
            exn_is_exception e = true /\
            on_error R instance out_dir e w1 = (w', Ok res))).
Proof.
  rewrite run_one_cascade. unfold first_blank, all_fields. cbn [first_blank_in].
  destruct (blank FInstanceId instance).
  { intros [= <- <-]. left. exists FInstanceId. auto. }
  destruct (skip_error overwrite (w_fs w) out_dir instance); [discriminate|].
  destruct (skip_applies overwrite (w_fs w) out_dir instance).
  { intros [= <- <-]. right. left. auto. }
  destruct (blank FImage instance).
  { intros [= <- <-]. left. exists FImage. auto. }
  destruct (blank FTestCmds instance).
  { intros [= <- <-]. left. exists FTestCmds. auto. }
  destruct (blank FPrintCmds instance).
  { intros [= <- <-]. left. exists FPrintCmds. auto. }
  destruct (blank FParser instance).
  { intros [= <- <-]. left. exists FParser. auto. }
  unfold try_except.
  destruct (run_both R instance plat out_dir timeout_s w) as [w1 [a|e]] eqn:Hrun.
  - intros [= <- <-]. right. right. split; [reflexivity|]. split; [reflexivity|].
    left. split; [reflexivity|]. apply run_both_ok_inv in Hrun as [-> _]. reflexivity.
  - destruct (exn_is_exception e) eqn:He; [|discriminate].
    intros H. right. right. split; [reflexivity|]. split; [reflexivity|].
    right. exists e, w1. auto.
Qed.

End ResultFacts.

Section ResultTheorems.

Context {R : Runtime}.

(** After [ok]: the two runs that returned and the files that hold what they
    returned. *)
Lemma run_one_ok_files instance plat out_dir timeout_s overwrite (w w' : world R) m :
  _run_one R instance plat out_dir timeout_s overwrite w = (w', Ok ("ok", m)) ->
  blank FInstanceId instance = false /\
  exists w1 w2 prev_out after_out,
    variant_of R instance plat timeout_s "prev" false w = (w1, Ok prev_out) /\
    variant_of R instance plat timeout_s "after" true w1 = (w2, Ok after_out) /\
    w_fs w' !! prev_path_of out_dir instance = Some (File prev_out) /\
    w_fs w' !! after_path_of out_dir instance = Some (File after_out).
Proof.
  intros H. apply run_one_returns in H as [(f & _ & [= ] & _)|[(_ & _ & [= ] & _)|H]].
  destruct H as (Hblank & _ & [[Hrun _]|(e & w1 & _ & _ & Herr)]).
  - split; [apply (first_blank_none _ _ Hblank)|].
    apply run_both_ok_inv in Hrun
      as (_ & w1 & w2 & w3 & prev_out & after_out & Hprev & Hafter & Hw1 & Hw2).
    exists w1, w2, prev_out, after_out. split; [exact Hprev|]. split; [exact Hafter|].
    apply write_text_ok_inv in Hw1 as (_ & Hfile1 & _).
    apply write_text_ok_inv in Hw2 as (_ & Hfile2 & _ & Hkeep).
    split; [|exact Hfile2]. apply Hkeep; [|exact Hfile1].
    destruct (artifact_paths out_dir instance) as (Ep & Ea & _). rewrite Ep, Ea.
    intros Heq. apply app_inv_head in Heq. discriminate Heq.
  - apply on_error_ok_inv in Herr as [[= ] _].
Qed.

(** X4. The dispositions of an evaluation that returns are [ok], [skip] and
    [error]; a message comes with [error] and only with it. It is [skip]
    only when overwrite is off and both artifacts were there, and then the
    world is as it was. *)
Theorem run_one_dispositions (instance : pydict) (plat : platform) (out_dir : path)
    (timeout_s : Z) (overwrite : bool) (w w' : world R) (d : string) (m : option string) :
  _run_one R instance plat out_dir timeout_s overwrite w = (w', Ok (d, m)) ->
  (d = "ok" /\ m = None)
  \/ (d = "skip" /\ m = None /\ overwrite = false /\
      FS.exists_ (w_fs w) (prev_path_of out_dir instance) = true /\
      FS.exists_ (w_fs w) (after_path_of out_dir instance) = true /\ w' = w)
  \/ (d = "error" /\ exists msg, m = Some msg).
Proof.
  intros H. apply run_one_returns in H as [(f & _ & [= -> ->] & _)|[H|H]].
  - right. right. split; [reflexivity|]. eauto.
  - destruct H as (_ & Hskip & [= -> ->] & ->). right. left.
    unfold skip_applies in Hskip.
    apply andb_prop in Hskip as [Hskip Hafter]. apply andb_prop in Hskip as [Hover Hprev].
    destruct overwrite; [discriminate Hover|]. auto 10.
  - destruct H as (_ & _ & [[_ [= -> ->]]|(e & w1 & _ & _ & Herr)]).
    + left. auto.
    + apply on_error_ok_inv in Herr as [[= -> ->] _]. right. right. eauto.
Qed.

(** X5. An evaluation that returned [ok] need not be repeated: evaluated
    again on the world it left, without overwrite, the same record is
    skipped and the world stays as it is. *)
Theorem run_one_idempotent (instance : pydict) (plat plat' : platform) (out_dir : path)
    (timeout_s timeout_s' : Z) (overwrite : bool) (w w' : world R) (m : option string) :
  _run_one R instance plat out_dir timeout_s overwrite w = (w', Ok ("ok", m)) ->
  _run_one R instance plat' out_dir timeout_s' false w' = (w', Ok ("skip", None)).
Proof.
  intros H.
  apply run_one_ok_files in H as (Hid & w1 & w2 & prev_out & after_out & _ & _ & Hp & Ha).
  rewrite run_one_cascade, Hid. unfold skip_error, skip_applies, FS.exists_, FS.node_at.
  destruct (artifact_paths out_dir instance) as (Ep & Ea & _).
  destruct (prev_path_of out_dir instance) as [|x1 p1] eqn:E1.
  { symmetry in Ep. apply app_eq_nil in Ep as [_ Ep]. discriminate Ep. }
  destruct (after_path_of out_dir instance) as [|x2 p2] eqn:E2.
  { symmetry in Ea. apply app_eq_nil in Ea as [_ Ea]. discriminate Ea. }
  rewrite Hp, Ha. reflexivity.
Qed.

(** X6. After [ok] both artifacts are regular files, and each holds a log
    without trailing whitespace, a line feed and one of the two marker
    lines. *)
Theorem run_one_ok_artifacts (instance : pydict) (plat : platform) (out_dir : path)
    (timeout_s : Z) (overwrite : bool) (w w' : world R) (m : option string) :
  _run_one R instance plat out_dir timeout_s overwrite w = (w', Ok ("ok", m)) ->
  exists prev_text after_text,
    w_fs w' !! prev_path_of out_dir instance = Some (File prev_text) /\
    w_fs w' !! after_path_of out_dir instance = Some (File after_text) /\
    judge_output prev_text /\ judge_output after_text.
Proof.
  intros H.
  apply run_one_ok_files in H as (_ & w1 & w2 & prev_out & after_out & Hprev & Hafter & Hp & Ha).
  exists prev_out, after_out. split; [exact Hp|]. split; [exact Ha|].
  unfold variant_of in Hprev, Hafter.
  split; [apply (variant_ok_output _ _ _ _ _ _ _ _ _ _ _ _ _ _ _ Hprev)
         | apply (variant_ok_output _ _ _ _ _ _ _ _ _ _ _ _ _ _ _ Hafter)].
Qed.

(** X7. An [error] is of one of two kinds. Either a required field failed
    its test: the message names the first such field and nothing was done.
    Or the record was complete and an [Exception] was raised while running
    or writing: then [error.txt] holds exactly the reported message and a
    line feed. *)
Theorem run_one_error_reported (instance : pydict) (plat : platform) (out_dir : path)
    (timeout_s : Z) (overwrite : bool) (w w' : world R) (msg : string) :
  _run_one R instance plat out_dir timeout_s overwrite w = (w', Ok ("error", Some msg)) ->
  (exists f, first_blank instance = Some f /\ msg = message_of f /\ w' = w)
  \/ (first_blank instance = None /\
      w_fs w' !! error_path_of out_dir instance = Some (File (msg +:+ nl))).
Proof.
  intros H. apply run_one_returns in H as [(f & Hf & [= ->] & -> & _)|[(_ & _ & [= ] & _)|H]].
  - left. exists f. auto.
  - destruct H as (Hblank & _ & [[_ [= ]]|(e & w1 & _ & _ & Herr)]).
    apply on_error_ok_inv in Herr as [[= ->] Hfile]. right. auto.
Qed.

End ResultTheorems.

Lemma run_one_dispositions_witness :
  let instance := [("instance_id", VStr "repo__3")] in
  let w := Mock.world0 Mock.done_fs in
  let w' := fst (_run_one Mock.runtime instance Windows Mock.out 5 false w) in
  _run_one Mock.runtime instance Windows Mock.out 5 false w = (w', Ok ("skip", None)) /\
  (("skip" = "ok" /\ @None string = None)
   \/ ("skip" = "skip" /\ @None string = None /\ false = false /\
       FS.exists_ (w_fs w) (prev_path_of Mock.out instance) = true /\
       FS.exists_ (w_fs w) (after_path_of Mock.out instance) = true /\ w' = w)
   \/ ("skip" = "error" /\ exists msg, @None string = Some msg)).
Proof.
  assert (Hrun : _run_one Mock.runtime [("instance_id", VStr "repo__3")] Windows Mock.out 5
                   false (Mock.world0 Mock.done_fs)
                 = (fst (_run_one Mock.runtime [("instance_id", VStr "repo__3")] Windows
                           Mock.out 5 false (Mock.world0 Mock.done_fs)),
                    Ok ("skip", None))).
  { apply pair_snd_eq. vm_compute. reflexivity. }
  split; [exact Hrun|].
  exact (run_one_dispositions _ _ _ _ _ _ _ _ _ Hrun).
Defined.

Lemma run_one_idempotent_witness :
  let w := Mock.world0 ∅ in
  let w' := fst (_run_one Mock.runtime Mock.good_instance Linux Mock.out 60 true w) in
  _run_one Mock.runtime Mock.good_instance Linux Mock.out 60 true w = (w', Ok ("ok", None)) /\
  _run_one Mock.runtime Mock.good_instance Windows Mock.out 5 false w'
  = (w', Ok ("skip", None)).
Proof.
  assert (Hrun : _run_one Mock.runtime Mock.good_instance Linux Mock.out 60 true
                   (Mock.world0 ∅)
                 = (fst (_run_one Mock.runtime Mock.good_instance Linux Mock.out 60 true
                           (Mock.world0 ∅)),
                    Ok ("ok", None))).
  { apply pair_snd_eq. vm_compute. reflexivity. }
  split; [exact Hrun|].
  exact (run_one_idempotent _ _ Windows _ _ 5%Z _ _ _ _ Hrun).
Defined.

Lemma run_one_ok_artifacts_witness :
  let w := Mock.world0 ∅ in
  let w' := fst (_run_one Mock.runtime Mock.good_instance Linux Mock.out 60 false w) in
  _run_one Mock.runtime Mock.good_instance Linux Mock.out 60 false w = (w', Ok ("ok", None)) /\
  exists prev_text after_text,
    w_fs w' !! prev_path_of Mock.out Mock.good_instance = Some (File prev_text) /\
    w_fs w' !! after_path_of Mock.out Mock.good_instance = Some (File after_text) /\
    judge_output prev_text /\ judge_output after_text.
Proof.
  assert (Hrun : _run_one Mock.runtime Mock.good_instance Linux Mock.out 60 false
                   (Mock.world0 ∅)
                 = (fst (_run_one Mock.runtime Mock.good_instance Linux Mock.out 60 false
                           (Mock.world0 ∅)),
                    Ok ("ok", None))).
  { apply pair_snd_eq. vm_compute. reflexivity. }
  split; [exact Hrun|].
  exact (run_one_ok_artifacts _ _ _ _ _ _ _ _ Hrun).
Defined.

Lemma run_one_error_reported_witness :
  let w := Mock.world0 ∅ in
  let msg := "PatchApplyFailed: patch does not apply" in
  let w' := fst (_run_one Mock.runtime Mock.bad_patch_instance Linux Mock.out 60 false w) in
  _run_one Mock.runtime Mock.bad_patch_instance Linux Mock.out 60 false w
  = (w', Ok ("error", Some msg)) /\
  ((exists f, first_blank Mock.bad_patch_instance = Some f /\ msg = message_of f /\ w' = w)
   \/ (first_blank Mock.bad_patch_instance = None /\
       w_fs w' !! error_path_of Mock.out Mock.bad_patch_instance = Some (File (msg +:+ nl)))).
Proof.
  assert (Hrun : _run_one Mock.runtime Mock.bad_patch_instance Linux Mock.out 60 false
                   (Mock.world0 ∅)
                 = (fst (_run_one Mock.runtime Mock.bad_patch_instance Linux Mock.out 60 false
                           (Mock.world0 ∅)),
                    Ok ("error", Some "PatchApplyFailed: patch does not apply"))).
  { apply pair_snd_eq. vm_compute. reflexivity. }
  split; [exact Hrun|].
  exact (run_one_error_reported _ _ _ _ _ _ _ _ Hrun).
Defined.

(** ** Stripping and joining *)

Lemma append_assoc (a b c : string) : (a +:+ b) +:+ c = a +:+ (b +:+ c).
Proof.
  induction a as [|x a IH]; [reflexivity|].
  change (String x ((a +:+ b) +:+ c) = String x (a +:+ (b +:+ c))).
  rewrite IH. reflexivity.
Qed.

Lemma lstrip_length (s : string) : String.length (PyStr.lstrip s) <= String.length s.
Proof.
  induction s as [|c s IH]; simpl; [lia|]. destruct (PyStr.isspace c); simpl; lia.
Qed.

Lemma lstrip_fixed_head (c : ascii) (s : string) :
  PyStr.lstrip (String c s) = String c s -> PyStr.isspace c = false.
Proof.
  simpl. destruct (PyStr.isspace c); [|reflexivity]. intros H.
  pose proof (lstrip_length s) as Hlen. rewrite H in Hlen. simpl in Hlen. lia.
Qed.

Lemma lstrip_idem (s : string) : PyStr.lstrip (PyStr.lstrip s) = PyStr.lstrip s.
Proof.
  induction s as [|c s IH]; [reflexivity|]. simpl.
  destruct (PyStr.isspace c) eqn:Hc; [exact IH|]. simpl. rewrite Hc. reflexivity.
Qed.

Lemma lstrip_app (a b : string) :
  a <> EmptyString -> PyStr.lstrip a = a -> PyStr.lstrip (a +:+ b) = a +:+ b.
Proof.
  destruct a as [|c a]; [congruence|]. intros _ H.
  apply lstrip_fixed_head in H. simpl. rewrite H. reflexivity.
Qed.

Lemma rstrip_cons (c : ascii) (s : string) :
  PyStr.rstrip (String c s)
  = match PyStr.rstrip s with
    | EmptyString => if PyStr.isspace c then EmptyString else String c EmptyString
    | r => String c r
    end.
Proof. reflexivity. Qed.

Lemma rstrip_app (a b : string) :
  PyStr.rstrip b <> EmptyString -> PyStr.rstrip (a +:+ b) = a +:+ PyStr.rstrip b.
Proof.
  intros Hb. induction a as [|c a IH]; [reflexivity|].
  change (String c a +:+ b) with (String c (a +:+ b)).
  rewrite rstrip_cons, IH.
  change (String c a +:+ PyStr.rstrip b) with (String c (a +:+ PyStr.rstrip b)).
  destruct (a +:+ PyStr.rstrip b) as [|x r] eqn:E; [|reflexivity].
  destruct a; simpl in E; [contradiction | discriminate E].
Qed.

Lemma rstrip_fixed_tail (c : ascii) (s : string) :
  s <> EmptyString -> PyStr.rstrip (String c s) = String c s -> PyStr.rstrip s = s.
Proof.
  intros Hs. rewrite rstrip_cons. destruct (PyStr.rstrip s) as [|x r].
  - destruct (PyStr.isspace c); intros H; [discriminate H|].
    injection H as H. congruence.
  - intros H. injection H as H. exact H.
Qed.

Lemma rstrip_lstrip (t : string) :
  PyStr.rstrip t = t -> PyStr.rstrip (PyStr.lstrip t) = PyStr.lstrip t.
Proof.
  induction t as [|c t IH]; [reflexivity|]. intros H. simpl.
  destruct (PyStr.isspace c) eqn:Hc; [|exact H].
  destruct t as [|x t']; [reflexivity|]. apply IH.
  apply (rstrip_fixed_tail c); [discriminate | exact H].
Qed.

Lemma strip_trimmed (s : string) : trimmed (PyStr.strip s).
Proof.
  unfold trimmed, PyStr.strip. split; [apply lstrip_idem|].
  apply rstrip_lstrip. apply rstrip_idem.
Qed.

Lemma trimmed_strip (s : string) : trimmed s -> PyStr.strip s = s.
Proof. intros [Hl Hr]. unfold PyStr.strip. rewrite Hr. exact Hl. Qed.

Lemma trimmed_app (a sep b : string) :
  a <> EmptyString -> b <> EmptyString -> trimmed a -> trimmed b ->
  trimmed (a +:+ sep +:+ b) /\ a +:+ sep +:+ b <> EmptyString.
Proof.
  intros Ha Hb [Hla _] [_ Hrb]. split; [split|].
  - apply lstrip_app; assumption.
  - rewrite <- append_assoc, rstrip_app by (rewrite Hrb; exact Hb).
    rewrite Hrb. reflexivity.
  - destruct a; [congruence | discriminate].
Qed.

Lemma join_trimmed (sep : string) (parts : list string) :
  Forall (fun p => trimmed p /\ p <> EmptyString) parts ->
  trimmed (PyStr.join sep parts) /\ (parts <> [] -> PyStr.join sep parts <> EmptyString).
Proof.
  induction parts as [|p rest IH]; intros Hparts.
  - split; [split; reflexivity | congruence].
  - apply Forall_cons in Hparts as [[Hp Hne] Hrest]. specialize (IH Hrest).
    destruct rest as [|q rest'].
    + simpl. split; [exact Hp | intros _; exact Hne].
    + change (PyStr.join sep (p :: q :: rest'))
        with (p +:+ sep +:+ PyStr.join sep (q :: rest')).
      destruct IH as [Ht Hn].
      destruct (trimmed_app p sep (PyStr.join sep (q :: rest')) Hne
                  (Hn ltac:(discriminate)) Hp Ht) as [H1 H2].
      split; [exact H1 | intros _; exact H2].
Qed.

Lemma join_parts_clean (l : list pyval) :
  Forall (fun p => trimmed p /\ p <> EmptyString) (join_parts l).
Proof.
  induction l as [|c l IH]; [constructor|].
  assert (Hstep : forall v, v = c ->
             Forall (fun p => trimmed p /\ p <> EmptyString)
                    (if nonempty (PyStr.strip (Py.str v))
                     then PyStr.strip (Py.str v) :: join_parts l else join_parts l)).
  { intros v _. destruct (nonempty (PyStr.strip (Py.str v))) eqn:E; [|exact IH].
    constructor; [|exact IH]. split; [apply strip_trimmed|].
    intros Heq. rewrite Heq in E. discriminate E. }
  destruct c; try exact (Hstep _ eq_refl). exact IH.
Qed.

(** X8. The command text that [_join_cmds] makes never has whitespace at
    either end, whatever it is given: stripping it again changes
    nothing. *)
Theorem join_cmds_trimmed (cmds : pyval) : PyStr.strip (_join_cmds cmds) = _join_cmds cmds.
Proof.
  apply trimmed_strip.
  destruct cmds as [|b|z|s|l|d]; cbn [_join_cmds]; try apply strip_trimmed.
  - split; reflexivity.
  - apply join_trimmed. apply join_parts_clean.
Qed.

Lemma join_parts_app (l1 l2 : list pyval) :
  join_parts (l1 ++ l2) = join_parts l1 ++ join_parts l2.
Proof.
  induction l1 as [|c l1 IH]; [reflexivity|].
  destruct c; cbn [app join_parts]; rewrite ?IH; try reflexivity;
    match goal with |- context [if ?b then _ else _] => destruct b end; reflexivity.
Qed.

Lemma join_parts_ignorable (c : pyval) (l : list pyval) :
  ignorable c -> join_parts (c :: l) = join_parts l.
Proof.
  intros [->|Hblank]; [reflexivity|].
  destruct c; cbn [join_parts]; try reflexivity; rewrite Hblank; reflexivity.
Qed.

Lemma join_parts_nil (l : list pyval) : join_parts l = [] <-> Forall ignorable l.
Proof.
  induction l as [|c l IH].
  - split; [constructor | reflexivity].
  - rewrite Forall_cons, <- IH. split.
    + intros H. destruct c; cbn [join_parts] in H;
        try (destruct (nonempty (PyStr.strip (Py.str _))) eqn:E; [discriminate H|];
             split; [right|exact H];
             unfold nonempty in E; apply negb_false_iff, String.eqb_eq in E; exact E).
      split; [left; reflexivity | exact H].
    + intros [Hc Hl]. rewrite (join_parts_ignorable _ _ Hc). exact Hl.
Qed.

(** X9. In a list of commands, [None] entries and entries whose text is
    blank count for nothing: dropping one anywhere gives the same command,
    and the command is empty exactly when every entry is of that kind. *)
Theorem join_cmds_ignores_blanks (l1 l2 : list pyval) (c : pyval) :
  (ignorable c -> _join_cmds (VList (l1 ++ c :: l2)) = _join_cmds (VList (l1 ++ l2))) /\
  (_join_cmds (VList l1) = EmptyString <-> Forall ignorable l1).
Proof.
  split.
  - intros Hc. cbn [_join_cmds]. rewrite !join_parts_app, (join_parts_ignorable _ _ Hc).
    reflexivity.
  - cbn [_join_cmds]. rewrite <- join_parts_nil. split.
    + intros Hjoin. destruct (join_parts l1) as [|p rest] eqn:E; [reflexivity|].
      exfalso. pose proof (join_parts_clean l1) as Hclean. rewrite E in Hclean.
      apply (proj2 (join_trimmed " ; " _ Hclean)); [discriminate | exact Hjoin].
    + intros ->. reflexivity.
Qed.

(** ** The report, field by field *)

Section SortedFacts.

Context {A : Type} (lt : A -> A -> bool).
Hypothesis lt_asym : forall x y, lt x y = true -> lt y x = false.

Lemma insert_sorted_perm (x : A) (l : list A) : Report.insert_sorted lt x l ≡ₚ x :: l.
Proof.
  induction l as [|y l IH]; [reflexivity|]. simpl.
  destruct (lt y x); [|reflexivity].
  rewrite IH. apply perm_swap.
Qed.

Lemma py_sorted_perm (l : list A) : Report.py_sorted lt l ≡ₚ l.
Proof.
  induction l as [|x l IH]; [reflexivity|]. simpl.
  rewrite insert_sorted_perm, IH. reflexivity.
Qed.

Lemma insert_sorted_hd (y x : A) (l : list A) :
  HdRel (fun a b => lt b a = false) y l -> lt x y = false ->
  HdRel (fun a b => lt b a = false) y (Report.insert_sorted lt x l).
Proof.
  intros Hhd Hyx. destruct l as [|z l]; simpl.
  - constructor. exact Hyx.
  - destruct (lt z x); constructor; [|exact Hyx].
    apply HdRel_inv in Hhd. exact Hhd.
Qed.

Lemma insert_sorted_sorted (x : A) (l : list A) :
  Sorted (fun a b => lt b a = false) l ->
  Sorted (fun a b => lt b a = false) (Report.insert_sorted lt x l).
Proof.
  induction l as [|y l IH]; intros Hs; simpl.
  - repeat constructor.
  - apply Sorted_inv in Hs as [Hs Hhd]. destruct (lt y x) eqn:E.
    + constructor; [apply IH; exact Hs|].
      apply insert_sorted_hd; [exact Hhd | apply lt_asym; exact E].
    + constructor; [constructor; assumption|]. constructor. exact E.
Qed.

Lemma py_sorted_sorted (l : list A) :
  Sorted (fun a b => lt b a = false) (Report.py_sorted lt l).
Proof.
  induction l as [|x l IH]; simpl; [constructor|].
  apply insert_sorted_sorted. exact IH.
Qed.

End SortedFacts.

Section NatCounter.

Lemma ncounter_get_add (k n k' : nat) (c : list (nat * nat)) :
  counter_get Nat.eqb k' (counter_add Nat.eqb k n c)
  = counter_get Nat.eqb k' c + (if k =? k' then n else 0).
Proof.
  induction c as [|[k0 m] c IH]; simpl.
  - destruct (k =? k'); lia.
  - destruct (k0 =? k) eqn:E0; simpl.
    + apply Nat.eqb_eq in E0. subst k0. destruct (k =? k'); lia.
    + destruct (k0 =? k') eqn:E1; [|exact IH].
      apply Nat.eqb_eq in E1. subst k0. rewrite Nat.eqb_sym, E0. lia.
Qed.

Lemma ncounter_add_keys (k n : nat) (c : list (nat * nat)) (x : nat) :
  x ∈ map fst (counter_add Nat.eqb k n c) <-> x = k \/ x ∈ map fst c.
Proof.
  induction c as [|[k0 m] c IH]; simpl.
  - rewrite list_elem_of_singleton, elem_of_nil. tauto.
  - destruct (k0 =? k) eqn:E0; simpl.
    + apply Nat.eqb_eq in E0. subst k0. rewrite !elem_of_cons. tauto.
    + rewrite !elem_of_cons, IH. tauto.
Qed.

Lemma ncounter_add_NoDup (k n : nat) (c : list (nat * nat)) :
  NoDup (map fst c) -> NoDup (map fst (counter_add Nat.eqb k n c)).
Proof.
  induction c as [|[k0 m] c IH]; simpl; intros Hnd.
  - apply NoDup_singleton.
  - apply NoDup_cons in Hnd as [Hnotin Hnd].
    destruct (k0 =? k) eqn:E0; simpl.
    + apply NoDup_cons. split; assumption.
    + apply NoDup_cons. split; [|apply IH; exact Hnd].
      rewrite ncounter_add_keys. intros [->|Hin]; [|contradiction].
      rewrite Nat.eqb_refl in E0. discriminate E0.
Qed.

Lemma ncounter_add_positive (k n : nat) (c : list (nat * nat)) :
  0 < n -> Forall (fun kv => 0 < snd kv) c ->
  Forall (fun kv => 0 < snd kv) (counter_add Nat.eqb k n c).
Proof.
  intros Hn. induction c as [|[k0 m] c IH]; simpl; intros Hc.
  - repeat constructor. exact Hn.
  - apply Forall_cons in Hc as [Hm Hc]. simpl in Hm.
    destruct (k0 =? k); constructor; simpl; try lia; try assumption.
    apply IH. exact Hc.
Qed.

Lemma ncounter_get_item (k m : nat) (c : list (nat * nat)) :
  NoDup (map fst c) -> (k, m) ∈ c -> counter_get Nat.eqb k c = m.
Proof.
  induction c as [|[k0 m0] c IH]; simpl; intros Hnd Hin.
  - apply elem_of_nil in Hin. contradiction.
  - apply NoDup_cons in Hnd as [Hnotin Hnd].
    apply elem_of_cons in Hin as [[= -> ->]|Hin].
    + rewrite Nat.eqb_refl. reflexivity.
    + destruct (k0 =? k) eqn:E0; [|apply IH; assumption].
      apply Nat.eqb_eq in E0. subst k0. exfalso. apply Hnotin.
      apply list_elem_of_fmap. exists (k, m). split; [reflexivity | exact Hin].
Qed.

Lemma ncounter_item_get (k m : nat) (c : list (nat * nat)) :
  counter_get Nat.eqb k c = m -> 0 < m -> (k, m) ∈ c.
Proof.
  induction c as [|[k0 m0] c IH]; simpl; intros Hget Hm; [lia|].
  destruct (k0 =? k) eqn:E0.
  - apply Nat.eqb_eq in E0. subst. apply list_elem_of_here.
  - apply list_elem_of_further. apply IH; assumption.
Qed.

Lemma counter_of_spec (l : list nat) (c : list (nat * nat)) :
  NoDup (map fst c) -> Forall (fun kv => 0 < snd kv) c ->
  NoDup (map fst (Report.counter_of l c)) /\
  Forall (fun kv => 0 < snd kv) (Report.counter_of l c) /\
  forall k, counter_get Nat.eqb k (Report.counter_of l c)
            = counter_get Nat.eqb k c + count_occ Nat.eq_dec l k.
Proof.
  revert c. induction l as [|x l IH]; intros c Hnd Hpos.
  - simpl. split; [exact Hnd|]. split; [exact Hpos|]. intros k. lia.
  - cbn [Report.counter_of].
    destruct (IH (counter_add Nat.eqb x 1 c)) as (H1 & H2 & H3).
    + apply ncounter_add_NoDup. exact Hnd.
    + apply ncounter_add_positive; [lia | exact Hpos].
    + split; [exact H1|]. split; [exact H2|]. intros k.
      rewrite H3, ncounter_get_add. cbn [count_occ].
      destruct (Nat.eq_dec x k) as [->|Hne].
      * rewrite Nat.eqb_refl. lia.
      * apply Nat.eqb_neq in Hne. rewrite Hne. lia.
Qed.

Lemma counter_of_items (l : list nat) (k n : nat) :
  (k, n) ∈ Report.counter_of l [] <-> 0 < n /\ n = count_occ Nat.eq_dec l k.
Proof.
  destruct (counter_of_spec l []) as (Hnd & Hpos & Hget); [constructor | constructor |].
  split.
  - intros Hin. split.
    + rewrite Forall_forall in Hpos. apply (Hpos _ Hin).
    + rewrite <- (ncounter_get_item _ _ _ Hnd Hin), Hget. reflexivity.
  - intros [Hn ->]. apply ncounter_item_get; [|exact Hn]. rewrite Hget. reflexivity.
Qed.

Lemma counter_of_sum (l : list nat) (c : list (nat * nat)) :
  sum_list (map snd (Report.counter_of l c)) = sum_list (map snd c) + length l.
Proof.
  revert c. induction l as [|x l IH]; intros c; [simpl; lia|].
  cbn [Report.counter_of length]. rewrite IH.
  assert (Hadd : forall k n d, sum_list (map snd (counter_add Nat.eqb k n d))
                               = sum_list (map snd d) + n).
  { intros k n d. induction d as [|[k0 m] d IHd]; simpl; [lia|].
    destruct (k0 =? k); simpl; [lia | rewrite IHd; lia]. }
  rewrite Hadd. lia.
Qed.

End NatCounter.

Lemma fold_min_spec (l : list nat) (x : nat) :
  fold_left Nat.min l x ∈ x :: l /\ forall y, y ∈ x :: l -> fold_left Nat.min l x <= y.
Proof.
  revert x. induction l as [|z l IH]; intros x; simpl.
  - split; [apply list_elem_of_here|]. intros y Hy.
    apply list_elem_of_singleton in Hy. lia.
  - destruct (IH (Nat.min x z)) as [Hin Hle]. split.
    + apply elem_of_cons in Hin as [Heq|Hin].
      * rewrite Heq. destruct (Nat.min_spec x z) as [[_ ->]|[_ ->]].
        -- apply list_elem_of_here.
        -- apply list_elem_of_further, list_elem_of_here.
      * do 2 apply list_elem_of_further. exact Hin.
    + intros y Hy. pose proof (Hle (Nat.min x z) (list_elem_of_here _ _)) as Hxz.
      apply elem_of_cons in Hy as [->|Hy]; [lia|].
      apply elem_of_cons in Hy as [->|Hy]; [lia|].
      apply Hle. apply list_elem_of_further. exact Hy.
Qed.

Lemma fold_max_spec (l : list nat) (x : nat) :
  fold_left Nat.max l x ∈ x :: l /\ forall y, y ∈ x :: l -> y <= fold_left Nat.max l x.
Proof.
  revert x. induction l as [|z l IH]; intros x; simpl.
  - split; [apply list_elem_of_here|]. intros y Hy.
    apply list_elem_of_singleton in Hy. lia.
  - destruct (IH (Nat.max x z)) as [Hin Hle]. split.
    + apply elem_of_cons in Hin as [Heq|Hin].
      * rewrite Heq. destruct (Nat.max_spec x z) as [[_ ->]|[_ ->]].
        -- apply list_elem_of_further, list_elem_of_here.
        -- apply list_elem_of_here.
      * do 2 apply list_elem_of_further. exact Hin.
    + intros y Hy. pose proof (Hle (Nat.max x z) (list_elem_of_here _ _)) as Hxz.
      apply elem_of_cons in Hy as [->|Hy]; [lia|].
      apply elem_of_cons in Hy as [->|Hy]; [lia|].
      apply Hle. apply list_elem_of_further. exact Hy.
Qed.

(** The report of a list of rows that is not empty. *)
Lemma build_report_cons (row : Report.Row) (rows : list Report.Row) (top_n : Z) :
  Report.build_report (row :: rows) top_n
  = Ok (Report.mk_report
          (S (length rows))
          (length (ReportSpec.f2p_rows (row :: rows)))
          (Z.of_nat (length (ReportSpec.f2p_rows (row :: rows))) # Pos.of_nat (S (length rows)))
          (Report.py_sorted (fun a b => fst a <? fst b)
             (Report.counter_of
                (map (fun r => length (Report.fail_to_pass r))
                     (ReportSpec.f2p_rows (row :: rows))) []))
          (firstn (Z.to_nat (Z.max 0 top_n))
             (Report.py_sorted Report.top_key_lt
                (map ReportSpec.top_item (ReportSpec.f2p_rows (row :: rows)))))
          (fold_left Nat.min (map ReportSpec.ptp_size rows) (ReportSpec.ptp_size row))
          (fold_left Nat.max (map ReportSpec.ptp_size rows) (ReportSpec.ptp_size row))).
Proof. reflexivity. Qed.

Lemma f2p_rows_length (rows : list Report.Row) :
  length (ReportSpec.f2p_rows rows) <= length rows.
Proof. unfold ReportSpec.f2p_rows. apply length_filter. Qed.

(** X10. The report is always produced, and its counts are consistent: the
    instances with failing-to-passing tests are among the instances, and
    the ratio lies between 0 and 1 and is 0 exactly when no instance has a
    failing-to-passing test (so also for an empty input). *)
Theorem build_report_ratio (rows : list Report.Row) (top_n : Z) :
  exists r, Report.build_report rows top_n = Ok r /\
    Report.total_instances r = length rows /\
    Report.f2p_instances r = length (ReportSpec.f2p_rows rows) /\
    Report.f2p_instances r <= Report.total_instances r /\
    (0 <= Report.f2p_ratio r)%Q /\ (Report.f2p_ratio r <= 1)%Q /\
    ((Report.f2p_ratio r == 0)%Q <-> Report.f2p_instances r = 0).
Proof.
  destruct rows as [|row rows].
  - eexists. split; [reflexivity|]. cbn. repeat split; try lia; try reflexivity.
    + apply Qle_refl.
    + unfold Qle. simpl. lia.
  - rewrite build_report_cons. eexists. split; [reflexivity|].
    cbn [Report.total_instances Report.f2p_instances Report.f2p_ratio length].
    pose proof (f2p_rows_length (row :: rows)) as Hle. cbn [length] in Hle.
    set (f := length (ReportSpec.f2p_rows (row :: rows))) in *.
    assert (Hpos : Z.pos (Pos.of_nat (S (length rows))) = Z.of_nat (S (length rows))).
    { rewrite <- Pos.of_nat_succ, Zpos_P_of_succ_nat. lia. }
    repeat split; try lia.
    + unfold Qle. simpl. lia.
    + unfold Qle. cbn [Qnum Qden]. rewrite Hpos. lia.
    + unfold Qeq. cbn [Qnum Qden]. lia.
    + intros Hf. unfold Qeq. cbn [Qnum Qden]. lia.
Qed.

(** X11. The bounds on passing-to-passing tests are those of the rows:
    every row lies between them, and for an input that is not empty each
    bound is the count of some row. *)
Theorem build_report_ptp_bounds (rows : list Report.Row) (top_n : Z) :
  exists r, Report.build_report rows top_n = Ok r /\
    Forall (fun row => Report.ptp_min r <= ReportSpec.ptp_size row <= Report.ptp_max r) rows /\
    (rows <> [] ->
     Exists (fun row => ReportSpec.ptp_size row = Report.ptp_min r) rows /\
     Exists (fun row => ReportSpec.ptp_size row = Report.ptp_max r) rows).
Proof.
  destruct rows as [|row rows].
  - eexists. split; [reflexivity|]. split; [constructor | congruence].
  - rewrite build_report_cons. eexists. split; [reflexivity|].
    cbn [Report.ptp_min Report.ptp_max].
    destruct (fold_min_spec (map ReportSpec.ptp_size rows) (ReportSpec.ptp_size row))
      as [Hmin_in Hmin].
    destruct (fold_max_spec (map ReportSpec.ptp_size rows) (ReportSpec.ptp_size row))
      as [Hmax_in Hmax].
    change (ReportSpec.ptp_size row :: map ReportSpec.ptp_size rows)
      with (map ReportSpec.ptp_size (row :: rows)) in *.
    split.
    + apply Forall_forall. intros r Hr.
      assert (ReportSpec.ptp_size r ∈ map ReportSpec.ptp_size (row :: rows)).
      { apply list_elem_of_fmap. exists r. split; [reflexivity | exact Hr]. }
      split; [apply Hmin | apply Hmax]; assumption.
    + intros _. split; apply Exists_exists.
      * apply list_elem_of_fmap in Hmin_in as (r & Heq & Hr). exists r. split; [exact Hr | congruence].
      * apply list_elem_of_fmap in Hmax_in as (r & Heq & Hr). exists r. split; [exact Hr | congruence].
Qed.

Lemma str_ltb_leb (a b : string) : String.ltb b a = negb (String.leb a b).
Proof.
  unfold String.ltb, String.leb. rewrite (String.compare_antisym b a).
  destruct (String.compare a b); reflexivity.
Qed.

Lemma top_key_le (x y : string * nat) :
  Report.top_key_lt y x = false <-> ReportSpec.top_le x y.
Proof.
  unfold Report.top_key_lt, ReportSpec.top_le. rewrite str_ltb_leb.
  destruct (Nat.ltb_spec (snd x) (snd y)) as [Hlt|Hge]; cbn [orb].
  - split; [discriminate | lia].
  - destruct (Nat.eqb_spec (snd y) (snd x)) as [Heq|Hne]; cbn [andb].
    + rewrite negb_false_iff. split.
      * intros Hle. right. split; [congruence | exact Hle].
      * intros [Hlt|[_ Hle]]; [lia | exact Hle].
    + split; [intros _; left; lia | reflexivity].
Qed.

Lemma top_key_lt_asym (x y : string * nat) :
  Report.top_key_lt x y = true -> Report.top_key_lt y x = false.
Proof.
  intros Hxy. apply top_key_le. unfold ReportSpec.top_le.
  unfold Report.top_key_lt in Hxy. rewrite str_ltb_leb in Hxy.
  apply orb_true_iff in Hxy as [Hlt|Heq].
  - apply Nat.ltb_lt in Hlt. left. exact Hlt.
  - apply andb_true_iff in Heq as [Heq Hle]. apply Nat.eqb_eq in Heq.
    apply negb_true_iff in Hle. right. split; [exact Heq|].
    destruct (String.leb_total (fst x) (fst y)) as [H|H]; [exact H | congruence].
Qed.

Lemma top_le_trans (x y z : string * nat) :
  ReportSpec.top_le x y -> ReportSpec.top_le y z -> ReportSpec.top_le x z.
Proof.
  unfold ReportSpec.top_le. intros [Hxy|[Hxy Hle1]] [Hyz|[Hyz Hle2]]; try (left; lia).
  right. split; [congruence|]. exact (str_le_trans _ _ _ Hle1 Hle2).
Qed.

Lemma top_le_antisym (x y : string * nat) :
  ReportSpec.top_le x y -> ReportSpec.top_le y x -> x = y.
Proof.
  unfold ReportSpec.top_le. destruct x as [a n], y as [b m]. cbn [fst snd].
  intros [Hxy|[Hxy Hle1]] [Hyx|[Hyx Hle2]]; try lia.
  rewrite (String.leb_antisym _ _ Hle1 Hle2), Hxy. reflexivity.
Qed.

Lemma top_sorted (items : list (string * nat)) :
  StronglySorted ReportSpec.top_le (Report.py_sorted Report.top_key_lt items).
Proof.
  apply Sorted.Sorted_StronglySorted.
  - intros x y z. apply top_le_trans.
  - pose proof (py_sorted_sorted Report.top_key_lt top_key_lt_asym items) as Hs.
    induction Hs as [|x l Hs IH Hhd]; constructor; [exact IH|].
    destruct Hhd; constructor. apply top_key_le. assumption.
Qed.

Lemma top_sorted_unique (l l' : list (string * nat)) :
  l ≡ₚ l' -> Report.py_sorted Report.top_key_lt l = Report.py_sorted Report.top_key_lt l'.
Proof.
  intros Hperm. apply (StronglySorted_unique_strong ReportSpec.top_le).
  - intros x y _ _. apply top_le_antisym.
  - apply top_sorted.
  - apply top_sorted.
  - rewrite !py_sorted_perm. exact Hperm.
Qed.

Lemma key_lt_asym (x y : nat * nat) : (fst x <? fst y) = true -> (fst y <? fst x) = false.
Proof. rewrite Nat.ltb_lt, Nat.ltb_ge. lia. Qed.

Lemma keys_sorted (c : list (nat * nat)) :
  StronglySorted (fun a b => fst a <= fst b) (Report.py_sorted (fun a b => fst a <? fst b) c).
Proof.
  apply Sorted.Sorted_StronglySorted.
  - intros x y z. cbn beta. lia.
  - pose proof (py_sorted_sorted (fun a b : nat * nat => fst a <? fst b) key_lt_asym c) as Hs.
    induction Hs as [|x l Hs IH Hhd]; constructor; [exact IH|].
    destruct Hhd as [|y l' Hy]; constructor. cbn beta in Hy. apply Nat.ltb_ge in Hy. exact Hy.
Qed.

Lemma keys_strict (h : list (nat * nat)) :
  StronglySorted (fun a b => fst a <= fst b) h -> NoDup (map fst h) ->
  StronglySorted lt (map fst h).
Proof.
  induction 1 as [|x h Hs IH Hall]; intros Hnd; [constructor|].
  cbn [map] in *. apply NoDup_cons in Hnd as [Hnotin Hnd].
  constructor; [apply IH; exact Hnd|].
  apply Forall_forall. intros k Hk.
  assert (Hne : k <> fst x) by (intros ->; contradiction).
  apply list_elem_of_fmap in Hk as (y & -> & Hy).
  rewrite Forall_forall in Hall. specialize (Hall y Hy). lia.
Qed.

Lemma sum_list_perm (l l' : list nat) : l ≡ₚ l' -> sum_list l = sum_list l'.
Proof. induction 1; simpl; lia. Qed.

(** The histogram and the top list of a report. *)
Lemma build_report_lists (rows : list Report.Row) (top_n : Z) :
  exists r, Report.build_report rows top_n = Ok r /\
    Report.f2p_instances r = length (ReportSpec.f2p_rows rows) /\
    Report.f2p_size_histogram r
    = Report.py_sorted (fun a b => fst a <? fst b)
        (Report.counter_of
           (map (fun r => length (Report.fail_to_pass r)) (ReportSpec.f2p_rows rows)) []) /\
    Report.top_f2p_instances r
    = firstn (Z.to_nat (Z.max 0 top_n))
        (Report.py_sorted Report.top_key_lt
           (map ReportSpec.top_item (ReportSpec.f2p_rows rows))).
Proof.
  destruct rows as [|row rows].
  - eexists. split; [reflexivity|]. repeat split; reflexivity.
  - rewrite build_report_cons. eexists. split; [reflexivity|]. repeat split; reflexivity.
Qed.

Lemma f2p_sizes_count (k : nat) (rows : list Report.Row) :
  0 < k ->
  count_occ Nat.eq_dec
    (map (fun r => length (Report.fail_to_pass r)) (ReportSpec.f2p_rows rows)) k
  = ReportSpec.rows_of_size k rows.
Proof.
  intros Hk. unfold ReportSpec.f2p_rows, ReportSpec.rows_of_size.
  induction rows as [|r rows IH]; [reflexivity|].
  rewrite filter_cons. cbn [List.filter].
  destruct (decide (Is_true (0 <? length (Report.fail_to_pass r)))) as [Hr|Hr].
  - cbn [map count_occ]. rewrite IH.
    destruct (Nat.eq_dec (length (Report.fail_to_pass r)) k) as [Heq|Hne].
    + rewrite Heq, Nat.eqb_refl. reflexivity.
    + apply Nat.eqb_neq in Hne. rewrite Hne. reflexivity.
  - rewrite IH. rewrite Is_true_true, Nat.ltb_lt in Hr.
    destruct (Nat.eqb_spec (length (Report.fail_to_pass r)) k) as [Heq|Hne]; [lia | reflexivity].
Qed.

Lemma f2p_sizes_positive (rows : list Report.Row) :
  count_occ Nat.eq_dec
    (map (fun r => length (Report.fail_to_pass r)) (ReportSpec.f2p_rows rows)) 0 = 0.
Proof.
  apply count_occ_not_In. intros Hin. apply in_map_iff in Hin as (r & Hlen & Hr).
  apply list_elem_of_In in Hr. unfold ReportSpec.f2p_rows in Hr.
  apply list_elem_of_filter in Hr as [Hr _].
  rewrite Is_true_true, Nat.ltb_lt in Hr. lia.
Qed.

(** X12. The histogram of the report lists the sizes of the
    failing-to-passing sets that occur, in strictly ascending order, each
    with the number of rows of that size; size 0 is never listed, and the
    numbers add up to the number of rows that have such tests. *)
Theorem build_report_histogram (rows : list Report.Row) (top_n : Z) :
  exists r, Report.build_report rows top_n = Ok r /\
    StronglySorted lt (map fst (Report.f2p_size_histogram r)) /\
    (forall k n, (k, n) ∈ Report.f2p_size_histogram r
                 <-> 0 < k /\ 0 < n /\ n = ReportSpec.rows_of_size k rows) /\
    sum_list (map snd (Report.f2p_size_histogram r)) = Report.f2p_instances r.
Proof.
  destruct (build_report_lists rows top_n) as (r & Hr & Hcount & Hhist & _).
  exists r. split; [exact Hr|]. rewrite Hhist, Hcount.
  set (sizes := map (fun r => length (Report.fail_to_pass r)) (ReportSpec.f2p_rows rows)).
  pose proof (py_sorted_perm (fun a b : nat * nat => fst a <? fst b)
                             (Report.counter_of sizes [])) as Hperm.
  destruct (counter_of_spec sizes []) as (Hnd & _ & _); [constructor | constructor |].
  split; [|split].
  - apply keys_strict; [apply keys_sorted|]. rewrite Hperm. exact Hnd.
  - intros k n. rewrite Hperm, counter_of_items. split.
    + intros [Hn Heq]. destruct k as [|k].
      * unfold sizes in Heq. rewrite f2p_sizes_positive in Heq. lia.
      * split; [lia|]. split; [exact Hn|]. rewrite Heq. apply f2p_sizes_count. lia.
    + intros (Hk & Hn & Heq). split; [exact Hn|]. rewrite Heq. symmetry.
      apply f2p_sizes_count. exact Hk.
  - rewrite (sum_list_perm _ _ (Permutation_map snd Hperm)), counter_of_sum.
    unfold sizes. rewrite length_map. reflexivity.
Qed.

(** X13. The top list holds the first [max(0, top_n)] rows that have
    failing-to-passing tests, in the order of more tests first and then of
    the identifier: it is sorted in that order, it has
    [min(max(0, top_n), f2p_instances)] entries, and every such row that is
    left out comes after all those listed. *)
Theorem build_report_top (rows : list Report.Row) (top_n : Z) :
  exists r, Report.build_report rows top_n = Ok r /\
    length (Report.top_f2p_instances r)
    = Nat.min (Z.to_nat (Z.max 0 top_n)) (Report.f2p_instances r) /\
    StronglySorted ReportSpec.top_le (Report.top_f2p_instances r) /\
    exists rest,
      Report.top_f2p_instances r ++ rest
      ≡ₚ map ReportSpec.top_item (ReportSpec.f2p_rows rows) /\
      forall x y, x ∈ Report.top_f2p_instances r -> y ∈ rest -> ReportSpec.top_le x y.
Proof.
  destruct (build_report_lists rows top_n) as (r & Hr & Hcount & _ & Htop).
  exists r. split; [exact Hr|]. rewrite Htop, Hcount.
  set (items := map ReportSpec.top_item (ReportSpec.f2p_rows rows)).
  set (n := Z.to_nat (Z.max 0 top_n)).
  pose proof (top_sorted items) as Hsorted.
  pose proof (py_sorted_perm Report.top_key_lt items) as Hperm.
  rewrite <- (take_drop n) in Hsorted.
  apply StronglySorted_app in Hsorted as (Hcross & Hl & _).
  split; [|split].
  - rewrite length_take, (Permutation_length Hperm). unfold items.
    rewrite length_map. reflexivity.
  - exact Hl.
  - exists (drop n (Report.py_sorted Report.top_key_lt items)). split.
    + rewrite take_drop. exact Hperm.
    + exact Hcross.
Qed.

Lemma histogram_unique (sizes sizes' : list nat) :
  sizes ≡ₚ sizes' ->
  Report.py_sorted (fun a b => fst a <? fst b) (Report.counter_of sizes [])
  = Report.py_sorted (fun a b => fst a <? fst b) (Report.counter_of sizes' []).
Proof.
  intros Hperm.
  destruct (counter_of_spec sizes []) as (Hnd & _ & _); [constructor | constructor |].
  destruct (counter_of_spec sizes' []) as (Hnd' & _ & _); [constructor | constructor |].
  assert (Hc : Report.counter_of sizes [] ≡ₚ Report.counter_of sizes' []).
  { apply NoDup_Permutation.
    - apply (NoDup_fmap_1 fst). exact Hnd.
    - apply (NoDup_fmap_1 fst). exact Hnd'.
    - intros [k n]. rewrite !counter_of_items.
      rewrite (proj1 (Permutation_count_occ Nat.eq_dec sizes sizes') Hperm k). reflexivity. }
  apply (StronglySorted_unique_strong (fun a b : nat * nat => fst a <= fst b)).
  - intros [k n] [k' n'] Hin Hin' Hle Hle'. cbn [fst] in Hle, Hle'.
    assert (k = k') by lia. subst k'.
    rewrite py_sorted_perm in Hin, Hin'. rewrite <- Hc in Hin'.
    rewrite <- (ncounter_get_item _ _ _ Hnd Hin), <- (ncounter_get_item _ _ _ Hnd Hin').
    reflexivity.
  - apply keys_sorted.
  - apply keys_sorted.
  - rewrite !py_sorted_perm. exact Hc.
Qed.

Lemma fold_min_perm (x x' : nat) (l l' : list nat) :
  x :: l ≡ₚ x' :: l' -> fold_left Nat.min l x = fold_left Nat.min l' x'.
Proof.
  intros Hperm.
  destruct (fold_min_spec l x) as [Hin Hle], (fold_min_spec l' x') as [Hin' Hle'].
  rewrite Hperm in Hin. rewrite <- Hperm in Hin'.
  specialize (Hle _ Hin'). specialize (Hle' _ Hin). lia.
Qed.

Lemma fold_max_perm (x x' : nat) (l l' : list nat) :
  x :: l ≡ₚ x' :: l' -> fold_left Nat.max l x = fold_left Nat.max l' x'.
Proof.
  intros Hperm.
  destruct (fold_max_spec l x) as [Hin Hle], (fold_max_spec l' x') as [Hin' Hle'].
  rewrite Hperm in Hin. rewrite <- Hperm in Hin'.
  specialize (Hle _ Hin'). specialize (Hle' _ Hin). lia.
Qed.

(** X14. The report does not depend on the order of the rows: two inputs
    with the same rows in any order give the same report, field by
    field. *)
Theorem build_report_order_independent (rows rows' : list Report.Row) (top_n : Z) :
  rows ≡ₚ rows' -> Report.build_report rows top_n = Report.build_report rows' top_n.
Proof.
  intros Hperm. destruct rows as [|row rows].
  - apply Permutation_nil in Hperm. subst rows'. reflexivity.
  - destruct rows' as [|row' rows'].
    { symmetry in Hperm. apply Permutation_nil_cons in Hperm. contradiction. }
    rewrite !build_report_cons.
    assert (Hlen : length rows = length rows').
    { apply Permutation_length in Hperm. cbn [length] in Hperm. lia. }
    assert (Hf2p : ReportSpec.f2p_rows (row :: rows) ≡ₚ ReportSpec.f2p_rows (row' :: rows')).
    { unfold ReportSpec.f2p_rows. rewrite Hperm. reflexivity. }
    rewrite Hlen, (Permutation_length Hf2p).
    rewrite (histogram_unique _ _ (Permutation_map _ Hf2p)).
    rewrite (top_sorted_unique _ _ (Permutation_map ReportSpec.top_item Hf2p)).
    assert (Hptp : ReportSpec.ptp_size row :: map ReportSpec.ptp_size rows
                   ≡ₚ ReportSpec.ptp_size row' :: map ReportSpec.ptp_size rows').
    { exact (Permutation_map ReportSpec.ptp_size Hperm). }
    rewrite (fold_min_perm _ _ _ _ Hptp), (fold_max_perm _ _ _ _ Hptp).
    reflexivity.
Qed.

Lemma build_report_order_independent_witness :
  let a := Report.mk_row "a" ["t1"; "t2"] ["p"] in
  let b := Report.mk_row "b" [] [] in
  let c := Report.mk_row "c" ["t3"] ["p"; "q"] in
  [a; b; c] ≡ₚ [c; a; b] /\
  Report.build_report [a; b; c] 1 = Report.build_report [c; a; b] 1.
Proof.
  intros a b c.
  assert (Hperm : [a; b; c] ≡ₚ [c; a; b]).
  { apply (Permutation_app_comm [a; b] [c]). }
  split; [exact Hperm|].
  exact (build_report_order_independent _ _ 1 Hperm).
Defined.

(** ** Reading rows *)

Lemma pretty_N_go_nonempty (x : N) (s : string) :
  s <> EmptyString -> pretty_N_go x s <> EmptyString.
Proof.
  revert s. induction (N.lt_wf_0 x) as [x _ IH]. intros s Hs.
  destruct (decide (x = 0%N)) as [->|Hx].
  - rewrite pretty_N_go_0. exact Hs.
  - rewrite pretty_N_go_step by lia. apply IH; [|discriminate].
    apply N.div_lt; lia.
Qed.

Lemma pretty_Z_nonempty (z : Z) : pretty z <> EmptyString.
Proof.
  assert (Hpos : forall p : positive, pretty (N.pos p) <> EmptyString).
  { intros p. unfold pretty, pretty_N.
    destruct (decide (N.pos p = 0%N)) as [H|_]; [discriminate H|].
    rewrite pretty_N_go_step by lia. apply pretty_N_go_nonempty. discriminate. }
  destruct z as [|p|p].
  - discriminate.
  - exact (Hpos p).
  - change (pretty (Z.neg p)) with ("-" +:+ pretty (N.pos p)). discriminate.
Qed.

Lemma truthy_str_nonempty (v : pyval) : Py.truthy v = true -> Py.str v <> EmptyString.
Proof.
  destruct v as [|b|z|s|l|d]; cbn [Py.truthy Py.str]; intros Ht.
  - discriminate Ht.
  - subst b. discriminate.
  - apply pretty_Z_nonempty.
  - apply negb_true_iff, String.eqb_neq in Ht. exact Ht.
  - cbn [Py.repr]. discriminate.
  - cbn [Py.repr]. discriminate.
Qed.

Section RowFacts.

Variable json_loads : string -> pyval + string.

Lemma parse_row_id (obj : pyval) (row : Report.Row) :
  Rows._parse_row obj = Ok row -> Report.instance_id row <> EmptyString.
Proof.
  destruct obj as [|b|z|s|l|d]; try discriminate. cbn [Rows._parse_row].
  destruct (Py.truthy (Py.get d "instance_id")) eqn:Ht; cbn [negb]; [|discriminate].
  intros [= <-]. cbn [Report.instance_id]. apply truthy_str_nonempty. exact Ht.
Qed.

Lemma iter_rows_load (shown : string) (lines : list string) :
  forall (n : nat) (rows0 rows : list Report.Row),
    Rows.iter_rows json_loads shown n lines rows0 = Ok rows <->
    exists objs rows1,
      load_from json_loads shown n lines = Ok objs /\
      Forall2 (fun o r => Rows._parse_row o = Ok r) objs rows1 /\
      rows = rows0 ++ rows1.
Proof.
  induction lines as [|line rest IH]; intros n rows0 rows.
  - cbn [Rows.iter_rows]. split.
    + intros [= <-]. exists [], []. split; [reflexivity|]. split; [constructor|].
      rewrite app_nil_r. reflexivity.
    + intros (objs & rows1 & Hload & Hall & ->). injection Hload as <-.
      apply Forall2_nil_inv_l in Hall. subst rows1. rewrite app_nil_r. reflexivity.
  - cbn [Rows.iter_rows]. rewrite load_from_cons.
    destruct (negb (nonempty (PyStr.strip line))); [apply IH|].
    destruct (json_loads (PyStr.strip line)) as [obj|msg].
    + destruct (Rows._parse_row obj) as [row|e] eqn:Erow.
      * rewrite IH. split.
        -- intros (objs & rows1 & Hload & Hall & ->). exists (obj :: objs), (row :: rows1).
           rewrite Hload. split; [reflexivity|]. split; [constructor; assumption|].
           rewrite <- app_assoc. reflexivity.
        -- intros (objs & rows1 & Hload & Hall & ->).
           destruct (load_from json_loads shown (S n) rest) as [objs'|e]; [|discriminate Hload].
           injection Hload as <-. apply Forall2_cons_inv_l in Hall as (row' & rows1' & Hrow & Hall & ->).
           assert (row' = row) by congruence. subst row'.
           exists objs', rows1'. split; [reflexivity|]. split; [exact Hall|].
           rewrite <- app_assoc. reflexivity.
      * split; [discriminate|].
        intros (objs & rows1 & Hload & Hall & ->).
        destruct (load_from json_loads shown (S n) rest) as [objs'|e']; [|discriminate Hload].
        injection Hload as <-. apply Forall2_cons_inv_l in Hall as (row' & rows1' & Hrow & _).
        congruence.
    + split; [discriminate|]. intros (objs & rows1 & Hload & _). discriminate Hload.
Qed.

(** X15. The count script reads what the loader of the evaluator reads
    and turns each record into a row: reading the rows of a file succeeds
    exactly when the file loads and every record parses as a row, and the
    rows are those of the records in file order. Every row that is read has
    an identifier that is not empty. *)
Theorem read_rows_composes (fs : FS.t) (p : path) (rows : list Report.Row) :
  (Rows.read_rows json_loads fs p = Ok rows <->
   exists objs, _load_jsonl json_loads fs p = Ok objs /\
                Forall2 (fun o r => Rows._parse_row o = Ok r) objs rows) /\
  (Rows.read_rows json_loads fs p = Ok rows ->
   Forall (fun r => Report.instance_id r <> EmptyString) rows).
Proof.
  assert (Hiff : Rows.read_rows json_loads fs p = Ok rows <->
                 exists objs, _load_jsonl json_loads fs p = Ok objs /\
                              Forall2 (fun o r => Rows._parse_row o = Ok r) objs rows).
  { unfold Rows.read_rows, _load_jsonl, FS.stat_exists, FS.open_r.
    destruct (FS.node_at fs p) as [[|text]|];
      [| |destruct (FS.stat_error fs p);
          (split; [discriminate | intros (objs & H & _); discriminate H])].
    - split; [discriminate | intros (objs & H & _); discriminate H].
    - rewrite iter_rows_load, load_lines_from. split.
      + intros (objs & rows1 & Hload & Hall & ->). exists objs. rewrite Hload.
        split; [reflexivity | exact Hall].
      + intros (objs & Hload & Hall).
        destruct (load_from json_loads (Pathlib.to_str p) 1 (file_lines text)) as [objs'|e];
          [|discriminate Hload].
        injection Hload as <-. exists objs', rows. repeat split; [exact Hall]. }
  split; [exact Hiff|]. intros Hread. apply Hiff in Hread as (objs & _ & Hall).
  clear Hiff. induction Hall as [|o r objs rows Hrow _ IH]; constructor; [|exact IH].
  apply (parse_row_id o). exact Hrow.
Qed.

Lemma iter_rows_app (shown : string) (l1 l2 : list string) :
  forall (n : nat) (rows0 rows1 : list Report.Row),
    Rows.iter_rows json_loads shown n l1 rows0 = Ok rows1 ->
    Rows.iter_rows json_loads shown n (l1 ++ l2) rows0
    = Rows.iter_rows json_loads shown (n + length l1) l2 rows1.
Proof.
  induction l1 as [|line l1 IH]; intros n rows0 rows1 H.
  - cbn [Rows.iter_rows] in H. injection H as <-. cbn [app length].
    rewrite Nat.add_0_r. reflexivity.
  - cbn [app length]. cbn [Rows.iter_rows] in H |- *.
    replace (n + S (length l1)) with (S n + length l1) by lia.
    destruct (negb (nonempty (PyStr.strip line))); [apply IH; exact H|].
    destruct (json_loads (PyStr.strip line)) as [obj|msg]; [|discriminate H].
    destruct (Rows._parse_row obj) as [row|e]; [|discriminate H].
    apply IH. exact H.
Qed.

(** X16. Reading stops at the first line that cannot be used, whatever
    comes after it: a line that is not JSON ends the run with [SystemExit]
    and the number of the line in the file (blank lines counted), an object
    without a usable [instance_id] ends it with a [SystemExit] that names no
    line, and a JSON value that is not an object with an
    [AttributeError]. *)
Theorem read_rows_first_error (shown : string) (l1 l2 : list string) (line : string)
    (rows1 : list Report.Row) :
  Rows.iter_rows json_loads shown 1 l1 [] = Ok rows1 ->
  nonempty (PyStr.strip line) = true ->
  let run := Rows.iter_rows json_loads shown 1 (l1 ++ line :: l2) [] in
  (forall msg, json_loads (PyStr.strip line) = inr msg ->
     run = Raise (SystemExit ("Invalid JSON on line " +:+ pretty (S (length l1)) +:+ " of "
                              +:+ shown +:+ ": " +:+ msg))) /\
  (forall d, json_loads (PyStr.strip line) = inl (VDict d) ->
     Py.truthy (Py.get d "instance_id") = false ->
     run = Raise (SystemExit "Missing 'instance_id' in a validated_instances row.")) /\
  (forall obj, json_loads (PyStr.strip line) = inl obj ->
     (forall d, obj <> VDict d) ->
     run = Raise (AttributeError ("'" +:+ Rows.type_name obj
                                  +:+ "' object has no attribute 'get'"))).
Proof.
  intros Hl1 Hline run. subst run. rewrite (iter_rows_app _ _ _ _ _ _ Hl1).
  cbn [Rows.iter_rows]. rewrite Hline. cbn [negb Nat.add].
  split; [|split].
  - intros msg ->. reflexivity.
  - intros d -> Ht. cbn [Rows._parse_row]. rewrite Ht. reflexivity.
  - intros obj -> Hobj. destruct obj as [|b|z|s|l|d]; try reflexivity.
    exfalso. exact (Hobj d eq_refl).
Qed.

Lemma step3_load_lines (shown : string) (lines : list string) :
  forall (n : nat) (out : list pyval),
    match load_lines json_loads shown n lines out,
          Step3.load_lines json_loads lines out with
    | Ok a, Ok b => a = b
    | Raise e, Raise e' =>
        exists (k : nat) (msg : string),
          e = SystemExit ("Invalid JSON on line " +:+ pretty k +:+ " of " +:+ shown
                          +:+ ": " +:+ msg) /\
          e' = Step3.JSONDecodeError msg
    | _, _ => False
    end.
Proof.
  induction lines as [|line rest IH]; intros n out; [reflexivity|].
  cbn [load_lines Step3.load_lines].
  destruct (negb (nonempty (PyStr.strip line))); [apply IH|].
  destruct (json_loads (PyStr.strip line)) as [v|msg]; [apply IH|].
  exists n, msg. split; reflexivity.
Qed.

(** X17. The two loaders read the same records: on every file the loader
    of the dataset preparation returns exactly the list that the loader of
    the evaluator returns, and they fail on the same files. Where a line is
    not JSON the first raises the [JSONDecodeError] itself, an [Exception],
    and the second a [SystemExit] that wraps its message with the line
    number and the path. *)
Theorem load_jsonl_agreement (fs : FS.t) (p : path) :
  match _load_jsonl json_loads fs p, Step3.load_jsonl json_loads fs p with
  | Ok a, Ok b => a = b
  | Raise e, Raise e' =>
      e = e' \/
      exists (k : nat) (msg : string),
        e = SystemExit ("Invalid JSON on line " +:+ pretty k +:+ " of "
                        +:+ Pathlib.to_str p +:+ ": " +:+ msg) /\
        e' = Step3.JSONDecodeError msg /\
        exn_is_exception e = false /\ exn_is_exception e' = true
  | _, _ => False
  end.
Proof.
  unfold _load_jsonl, Step3.load_jsonl, FS.open_r.
  destruct (FS.node_at fs p) as [[|text]|];
    [left; reflexivity | | destruct (FS.stat_error fs p); left; reflexivity].
  pose proof (step3_load_lines (Pathlib.to_str p) (file_lines text) 1 []) as H.
  destruct (load_lines json_loads (Pathlib.to_str p) 1 (file_lines text) []) as [a|e],
           (Step3.load_lines json_loads (file_lines text) []) as [b|e']; try exact H.
  destruct H as (k & msg & -> & ->). right. exists k, msg. repeat split; reflexivity.
Qed.

End RowFacts.

Lemma read_rows_first_error_witness :
  let l1 := ["#a" +:+ nl; nl] in
  Rows.iter_rows Rows.sample_loads "rows.jsonl" 1 l1 []
  = Ok [Report.mk_row "a" ["t"] []] /\
  nonempty (PyStr.strip "null") = true /\
  Rows.iter_rows Rows.sample_loads "rows.jsonl" 1 (l1 ++ "null" :: ["#b"]) []
  = Raise (AttributeError "'NoneType' object has no attribute 'get'").
Proof.
  intros l1.
  assert (H1 : Rows.iter_rows Rows.sample_loads "rows.jsonl" 1 l1 []
               = Ok [Report.mk_row "a" ["t"] []]) by reflexivity.
  assert (H2 : nonempty (PyStr.strip "null") = true) by reflexivity.
  split; [exact H1|]. split; [exact H2|].
  destruct (read_rows_first_error Rows.sample_loads "rows.jsonl" l1 ["#b"] "null" _ H1 H2)
    as (_ & _ & Hother).
  apply (Hother VNone); [reflexivity | discriminate].
Defined.

Section CountMain.

Variable json_loads : string -> pyval + string.

Lemma iter_rows_length (shown : string) (lines : list string) :
  forall (n : nat) (rows0 rows : list Report.Row),
    Rows.iter_rows json_loads shown n lines rows0 = Ok rows ->
    length rows
    = length rows0 + length (List.filter (fun l => nonempty (PyStr.strip l)) lines).
Proof.
  induction lines as [|line rest IH]; intros n rows0 rows H; cbn [Rows.iter_rows] in H.
  - injection H as <-. simpl. lia.
  - cbn [List.filter]. destruct (nonempty (PyStr.strip line)); cbn [negb] in H.
    + destruct (json_loads (PyStr.strip line)) as [obj|msg]; [|discriminate H].
      destruct (Rows._parse_row obj) as [row|e]; [|discriminate H].
      rewrite (IH _ _ _ H), length_app. simpl. lia.
    + apply (IH _ _ _ H).
Qed.

(** X18. The total of the report is the number of lines of the input file
    that are not blank: when the report is produced, every such line has
    given exactly one row. *)
Theorem count_main_total (fs : FS.t) (p : path) (text : string) (top_n : Z)
    (r : Report.report) :
  FS.node_at fs p = Some (File text) ->
  Rows.main json_loads fs p top_n = Ok r ->
  Report.total_instances r = length (nonblank_lines text).
Proof.
  intros Hfile Hmain. unfold Rows.main, Rows.read_rows, FS.stat_exists, FS.open_r in Hmain.
  rewrite Hfile in Hmain.
  destruct (Rows.iter_rows json_loads (Pathlib.to_str p) 1 (file_lines text) [])
    as [rows|e] eqn:Hrows; [|discriminate Hmain].
  cbn [Report.rbind] in Hmain. apply iter_rows_length in Hrows. cbn [length Nat.add] in Hrows.
  unfold nonblank_lines. rewrite <- Hrows.
  destruct rows as [|row rows].
  - injection Hmain as <-. reflexivity.
  - rewrite build_report_cons in Hmain. injection Hmain as <-. reflexivity.
Qed.

End CountMain.

Lemma count_main_total_witness :
  let fs : FS.t := <[ ["val"; "rows.jsonl"] := File ("#a" +:+ nl +:+ nl +:+ " #b ") ]> ∅ in
  let r := Report.mk_report 2 2 (2 # 2) [(1, 2)] [("a", 1); ("b", 1)] 0 0 in
  FS.node_at fs ["val"; "rows.jsonl"] = Some (File ("#a" +:+ nl +:+ nl +:+ " #b ")) /\
  Rows.main Rows.sample_loads fs ["val"; "rows.jsonl"] 20 = Ok r /\
  Report.total_instances r = length (nonblank_lines ("#a" +:+ nl +:+ nl +:+ " #b ")).
Proof.
  intros fs r.
  assert (H1 : FS.node_at fs ["val"; "rows.jsonl"]
               = Some (File ("#a" +:+ nl +:+ nl +:+ " #b "))).
  { vm_compute. reflexivity. }
  assert (H2 : Rows.main Rows.sample_loads fs ["val"; "rows.jsonl"] 20 = Ok r).
  { vm_compute. reflexivity. }
  split; [exact H1|]. split; [exact H2|].
  exact (count_main_total Rows.sample_loads fs _ _ 20 r H1 H2).
Defined.

(** ** More on the inferred language *)

Section LangChoice.

Import LangSpec.

Lemma counter_item_get (k : string) (m : nat) (c : list (string * nat)) :
  counter_get String.eqb k c = m -> 0 < m -> (k, m) ∈ c.
Proof.
  induction c as [|[k0 m0] c IH]; simpl; intros Hget Hm; [lia|].
  destruct (String.eqb k0 k) eqn:E0.
  - apply String.eqb_eq in E0. subst. apply list_elem_of_here.
  - apply list_elem_of_further. apply IH; assumption.
Qed.

Lemma table_get_value (e l : string) (t : list (string * string)) :
  Lang.table_get e t = Some l -> l ∈ map snd t.
Proof.
  induction t as [|[k v] t IH]; simpl; [discriminate|].
  destruct (String.eqb k e).
  - intros [= ->]. apply list_elem_of_here.
  - intros H. apply list_elem_of_further. apply IH. exact H.
Qed.

Lemma count_langs_keys (items lc : list (string * nat)) (k : string) :
  k ∈ map fst (Lang.count_langs items lc) ->
  k ∈ map fst lc \/ k ∈ map snd Lang.EXT_TO_LANG.
Proof.
  revert lc. induction items as [|[ext n] items IH]; intros lc Hk; [left; exact Hk|].
  cbn [Lang.count_langs] in Hk.
  destruct (Lang.table_get ext Lang.EXT_TO_LANG) as [l|] eqn:E; [|apply IH; exact Hk].
  rewrite (table_langs_nonempty _ _ E) in Hk.
  destruct (IH _ Hk) as [Hin|Hin]; [|right; exact Hin].
  apply counter_add_keys in Hin as [->|Hin]; [right|left; exact Hin].
  apply (table_get_value ext). exact E.
Qed.

(** What [most_common(1)] picks among the language counts. *)
Lemma infer_choice (texts : list string) :
  let exts := Lang.count_texts texts [] in
  let lc := Lang.count_langs exts [] in
  (lc = [] /\ Lang.infer_language_from_diff_text texts = ("Python", exts)) \/
  (exists m, (fst (Lang.infer_language_from_diff_text texts), m) ∈ lc /\
             forall x, x ∈ lc -> snd x <= m).
Proof.
  intros exts lc. unfold Lang.infer_language_from_diff_text. fold exts. fold lc.
  destruct lc as [|x c]; [left; split; reflexivity|]. right.
  cbn [most_common_1]. destruct (first_max_spec x c) as [Hin Hmax].
  destruct (first_max x c) as [best m]. exists m. split; [exact Hin | exact Hmax].
Qed.

Lemma lang_counts_get (texts : list string) (l : string) :
  counter_get String.eqb l (Lang.count_langs (Lang.count_texts texts []) [])
  = lang_count l texts.
Proof. rewrite counter_get_count_langs, weight_count_texts. reflexivity. Qed.

(** X19. The inferred language is always one of the languages of the
    extension table, whatever the texts are. *)
Theorem infer_language_in_table (texts : list string) :
  fst (Lang.infer_language_from_diff_text texts) ∈ map snd Lang.EXT_TO_LANG.
Proof.
  destruct (infer_choice texts) as [[_ ->]|(m & Hin & _)].
  - apply list_elem_of_here.
  - assert (Hk : fst (Lang.infer_language_from_diff_text texts)
                 ∈ map fst (Lang.count_langs (Lang.count_texts texts []) [])).
    { apply list_elem_of_fmap. eexists. split; [|exact Hin]. reflexivity. }
    apply count_langs_keys in Hk as [Hk|Hk]; [|exact Hk].
    apply elem_of_nil in Hk. contradiction.
Qed.

Lemma length_filter_perm {A} (f : A -> bool) (l l' : list A) :
  l ≡ₚ l' -> length (List.filter f l) = length (List.filter f l').
Proof.
  induction 1 as [|x l l' _ IH|x y l|l l' l'' _ IH1 _ IH2]; simpl.
  - reflexivity.
  - destruct (f x); simpl; rewrite IH; reflexivity.
  - destruct (f x), (f y); reflexivity.
  - rewrite IH1. exact IH2.
Qed.

Lemma lang_count_perm (lang : string) (texts texts' : list string) :
  texts ≡ₚ texts' -> lang_count lang texts = lang_count lang texts'.
Proof.
  intros Hperm. unfold lang_count, header_paths. apply length_filter_perm.
  apply Permutation_flat_map. exact Hperm.
Qed.

(** X20. A language that strictly outnumbers every other one is the
    language inferred, in whatever order the texts are given: the order
    only matters between languages that tie. *)
Theorem infer_language_strict_majority (texts texts' : list string) (lang : string) :
  (forall other, other <> lang -> lang_count other texts < lang_count lang texts) ->
  texts' ≡ₚ texts ->
  fst (Lang.infer_language_from_diff_text texts') = lang.
Proof.
  intros Hmajor Hperm.
  assert (Hmajor' : forall other, other <> lang ->
                                  lang_count other texts' < lang_count lang texts').
  { intros other Hne. rewrite !(lang_count_perm _ _ _ Hperm). apply Hmajor. exact Hne. }
  clear Hmajor Hperm.
  assert (Hpos : 0 < lang_count lang texts').
  { specialize (Hmajor' (String "#" lang)).
    assert (String "#" lang <> lang).
    { intros Heq. apply (f_equal String.length) in Heq. simpl in Heq. lia. }
    specialize (Hmajor' H). lia. }
  set (lc := Lang.count_langs (Lang.count_texts texts' []) []).
  assert (Hnd : NoDup (map fst lc)) by (apply count_langs_NoDup; constructor).
  assert (Hlang : (lang, lang_count lang texts') ∈ lc).
  { apply counter_item_get; [apply lang_counts_get | exact Hpos]. }
  destruct (infer_choice texts') as [[Hnil _]|(m & Hin & Hmax)].
  - fold lc in Hnil. rewrite Hnil in Hlang. apply elem_of_nil in Hlang. contradiction.
  - fold lc in Hin, Hmax.
    destruct (String.eqb_spec (fst (Lang.infer_language_from_diff_text texts')) lang)
      as [Heq|Hne]; [exact Heq|].
    exfalso. specialize (Hmajor' _ Hne). specialize (Hmax _ Hlang). cbn [snd] in Hmax.
    rewrite <- (lang_counts_get texts' (fst _)) in Hmajor'. fold lc in Hmajor'.
    rewrite (counter_get_item _ _ _ Hnd Hin) in Hmajor'. lia.
Qed.

Lemma counter_get_count_paths (ext : string) (ps : list string) (exts : list (string * nat)) :
  nonempty ext = true ->
  counter_get String.eqb ext (Lang.count_paths ps exts)
  = counter_get String.eqb ext exts
    + length (List.filter (fun p => String.eqb (Lang.path_ext p) ext) ps).
Proof.
  intros Hext. revert exts. induction ps as [|p ps IH]; intros exts; [simpl; lia|].
  cbn [Lang.count_paths List.filter]. rewrite IH.
  destruct (String.eqb_spec (Lang.path_ext p) ext) as [Heq|Hne].
  - rewrite Heq, Hext, counter_get_add, String.eqb_refl. simpl. lia.
  - destruct (nonempty (Lang.path_ext p)); [|lia].
    rewrite counter_get_add. apply String.eqb_neq in Hne. rewrite Hne. lia.
Qed.

Lemma counter_get_count_texts (ext : string) (texts : list string) (exts : list (string * nat)) :
  nonempty ext = true ->
  counter_get String.eqb ext (Lang.count_texts texts exts)
  = counter_get String.eqb ext exts + ext_count ext texts.
Proof.
  intros Hext. unfold ext_count. rewrite header_paths_findall.
  revert exts. induction texts as [|txt texts IH]; intros exts; [simpl; lia|].
  cbn [Lang.count_texts flat_map]. rewrite List.filter_app, length_app.
  destruct (nonempty txt) eqn:E; cbn [negb].
  - rewrite IH, counter_get_count_paths by exact Hext. lia.
  - destruct txt; [|discriminate E]. rewrite IH. simpl. lia.
Qed.

Lemma count_paths_keys (ps : list string) (exts : list (string * nat)) :
  NoDup (map fst exts) -> EmptyString ∉ map fst exts ->
  NoDup (map fst (Lang.count_paths ps exts)) /\
  EmptyString ∉ map fst (Lang.count_paths ps exts).
Proof.
  revert exts. induction ps as [|p ps IH]; intros exts Hnd Hne; [split; assumption|].
  cbn [Lang.count_paths]. destruct (nonempty (Lang.path_ext p)) eqn:E; [|apply IH; assumption].
  apply IH; [apply counter_add_NoDup; exact Hnd|].
  rewrite counter_add_keys. intros [Heq|Hin]; [|contradiction].
  rewrite <- Heq in E. discriminate E.
Qed.

Lemma count_texts_keys (texts : list string) (exts : list (string * nat)) :
  NoDup (map fst exts) -> EmptyString ∉ map fst exts ->
  NoDup (map fst (Lang.count_texts texts exts)) /\
  EmptyString ∉ map fst (Lang.count_texts texts exts).
Proof.
  revert exts. induction texts as [|txt texts IH]; intros exts Hnd Hne; [split; assumption|].
  cbn [Lang.count_texts]. destruct (negb (nonempty txt)); [apply IH; assumption|].
  destruct (count_paths_keys (Lang.findall_diff_paths txt) exts Hnd Hne) as [H1 H2].
  apply IH; assumption.
Qed.

(** X21. The extension counts returned with the language are exact: an
    extension is listed when and only when it is the extension of some
    header path, recognized or not, with the number of those paths; paths
    without an extension are not counted, and no extension is listed
    twice. *)
Theorem infer_language_ext_counts (texts : list string) :
  let exts := snd (Lang.infer_language_from_diff_text texts) in
  NoDup (map fst exts) /\
  forall ext n, (ext, n) ∈ exts <-> ext <> EmptyString /\ 0 < n /\ n = ext_count ext texts.
Proof.
  assert (Hexts : snd (Lang.infer_language_from_diff_text texts) = Lang.count_texts texts []).
  { unfold Lang.infer_language_from_diff_text.
    destruct (most_common_1 _) as [|[best m] rest]; reflexivity. }
  cbn zeta. rewrite Hexts.
  destruct (count_texts_keys texts []) as [Hnd Hne]; [constructor | apply not_elem_of_nil |].
  assert (Hpos : positive (Lang.count_texts texts [])).
  { apply count_texts_positive. constructor. }
  split; [exact Hnd|]. intros ext n. split.
  - intros Hin.
    assert (Hext : ext <> EmptyString).
    { intros ->. apply Hne. apply list_elem_of_fmap. exists (EmptyString, n).
      split; [reflexivity | exact Hin]. }
    split; [exact Hext|]. split.
    + unfold positive in Hpos. rewrite Forall_forall in Hpos. apply (Hpos _ Hin).
    + rewrite <- (counter_get_item _ _ _ Hnd Hin), counter_get_count_texts; [reflexivity|].
      unfold nonempty. apply negb_true_iff, String.eqb_neq. exact Hext.
  - intros (Hext & Hn & ->). apply counter_item_get; [|exact Hn].
    rewrite counter_get_count_texts; [reflexivity|].
    unfold nonempty. apply negb_true_iff, String.eqb_neq. exact Hext.
Qed.

End LangChoice.

Lemma ext_count_map (ext : string) (ps : list string) :
  length (List.filter (fun p => String.eqb (Lang.path_ext p) ext) ps)
  = length (List.filter (fun e => String.eqb e ext) (map Lang.path_ext ps)).
Proof.
  induction ps as [|p ps IH]; [reflexivity|]. cbn [map List.filter].
  destruct (String.eqb (Lang.path_ext p) ext); [cbn [length]; rewrite IH|]; reflexivity || exact IH.
Qed.

(** The counts of the extensions [.go], [.go], none and [.py]. *)
Lemma ext_counts_sample (exts : list (string * nat)) (texts : list string) :
  map Lang.path_ext (LangSpec.header_paths texts) = [".go"; ".go"; EmptyString; ".py"] ->
  (NoDup (map fst exts) /\
   forall ext n, (ext, n) ∈ exts <-> ext <> EmptyString /\ 0 < n /\ n = ext_count ext texts) ->
  (".go", 2) ∈ exts /\ (".py", 1) ∈ exts /\ (forall n, (".rs", n) ∉ exts) /\
  length exts = 2.
Proof.
  intros Hexts [Hnd Hiff].
  assert (Hcount : forall ext,
             ext_count ext texts
             = length (List.filter (fun e => String.eqb e ext)
                         [".go"; ".go"; EmptyString; ".py"])).
  { intros ext. unfold ext_count. rewrite ext_count_map, Hexts. reflexivity. }
  assert (Hgo : (".go", 2) ∈ exts).
  { apply Hiff. split; [discriminate|]. split; [lia | rewrite Hcount; reflexivity]. }
  assert (Hpy : (".py", 1) ∈ exts).
  { apply Hiff. split; [discriminate|]. split; [lia | rewrite Hcount; reflexivity]. }
  split; [exact Hgo|]. split; [exact Hpy|]. split.
  - intros n Hin. apply Hiff in Hin as (_ & Hpos & Hn). rewrite Hcount in Hn.
    simpl in Hn. lia.
  - assert (Hkeys : map fst exts ≡ₚ [".go"; ".py"]).
    { apply NoDup_Permutation; [exact Hnd| |].
      - apply NoDup_cons. split; [|apply NoDup_singleton].
        intros Hin. apply list_elem_of_singleton in Hin. discriminate Hin.
      - intros ext. split.
        + intros Hin. apply list_elem_of_fmap in Hin as ([e n] & -> & Hin). cbn [fst].
          apply Hiff in Hin as (Hne & Hpos & Hn). rewrite Hcount in Hn.
          cbn [List.filter] in Hn.
          destruct (String.eqb_spec ".go" e) as [<-|Hg]; [apply list_elem_of_here|].
          destruct (String.eqb_spec ".py" e) as [<-|Hp];
            [apply list_elem_of_further, list_elem_of_here|].
          exfalso. destruct (String.eqb_spec EmptyString e) as [<-|He]; [congruence|].
          simpl in Hn. lia.
        + intros Hin. apply list_elem_of_fmap.
          apply elem_of_cons in Hin as [->|Hin]; [exists (".go", 2); auto|].
          apply list_elem_of_singleton in Hin as ->. exists (".py", 1); auto. }
    apply Permutation_length in Hkeys. rewrite length_map in Hkeys. exact Hkeys.
Qed.

Lemma infer_language_ext_counts_witness :
  let texts := [sample_patch; EmptyString; sample_test_patch] in
  let exts := snd (Lang.infer_language_from_diff_text texts) in
  LangSpec.header_paths texts = ["cmd/z.go"; "pkg/w.GO"; "README"; "t.py"] /\
  (".go", 2) ∈ exts /\ (".py", 1) ∈ exts /\ (forall n, (".rs", n) ∉ exts) /\
  length exts = 2.
Proof.
  split; [vm_compute; reflexivity|].
  apply (ext_counts_sample _ [sample_patch; EmptyString; sample_test_patch]);
    [vm_compute; reflexivity|].
  exact (infer_language_ext_counts [sample_patch; EmptyString; sample_test_patch]).
Defined.

Lemma infer_language_strict_majority_witness :
  let py := "diff --git a/src/x.py b/src/x.py" +:+ nl +:+ "diff --git a/y.PY b/y.PY" in
  let go := "diff --git a/cmd/z.go b/cmd/z.go" in
  (forall other, other <> "Python" ->
     LangSpec.lang_count other [py; go] < LangSpec.lang_count "Python" [py; go]) /\
  [go; py] ≡ₚ [py; go] /\
  fst (Lang.infer_language_from_diff_text [go; py]) = "Python".
Proof.
  intros py go.
  assert (Hmajor : forall other, other <> "Python" ->
            LangSpec.lang_count other [py; go] < LangSpec.lang_count "Python" [py; go]).
  { intros other Hne.
    assert (Hpaths : LangSpec.header_paths [py; go] = ["src/x.py"; "y.PY"; "cmd/z.go"])
      by (vm_compute; reflexivity).
    unfold LangSpec.lang_count. rewrite Hpaths.
    change (length (List.filter (LangSpec.has_lang "Python") ["src/x.py"; "y.PY"; "cmd/z.go"]))
      with 2.
    assert (Hx : LangSpec.has_lang other "src/x.py" = false).
    { change (String.eqb "Python" other = false). apply String.eqb_neq. congruence. }
    assert (Hy : LangSpec.has_lang other "y.PY" = false).
    { change (String.eqb "Python" other = false). apply String.eqb_neq. congruence. }
    cbn [List.filter]. rewrite Hx, Hy.
    destruct (LangSpec.has_lang other "cmd/z.go"); simpl; lia. }
  assert (Hperm : [go; py] ≡ₚ [py; go]) by apply perm_swap.
  split; [exact Hmajor|]. split; [exact Hperm|].
  exact (infer_language_strict_majority [py; go] [go; py] "Python" Hmajor Hperm).
Defined.

(** ** Merging an instance *)

Section MergeFacts.

Lemma lookup_snoc (k k0 : string) (v : pyval) (d : pydict) :
  Py.lookup k (d ++ [(k0, v)])
  = match Py.lookup k d with
    | Some x => Some x
    | None => if String.eqb k0 k then Some v else None
    end.
Proof.
  induction d as [|[k1 v1] d IH]; simpl; [reflexivity|].
  destruct (String.eqb k1 k); [reflexivity | exact IH].
Qed.

Lemma lookup_set_item (k k' : string) (v : pyval) (d : pydict) :
  Py.lookup k' (Step3.set_item k v d)
  = if String.eqb k k' then Some v else Py.lookup k' d.
Proof.
  induction d as [|[k1 v1] d IH]; simpl.
  - destruct (String.eqb k k'); reflexivity.
  - destruct (String.eqb_spec k1 k) as [->|Hne]; simpl.
    + destruct (String.eqb k k'); reflexivity.
    + rewrite IH. destruct (String.eqb_spec k k') as [->|Hne'].
      * apply String.eqb_neq in Hne. rewrite Hne. reflexivity.
      * reflexivity.
Qed.

Lemma set_item_same (k : string) (v : pyval) (d : pydict) :
  Py.lookup k d = Some v -> Step3.set_item k v d = d.
Proof.
  induction d as [|[k1 v1] d IH]; simpl; [discriminate|].
  destruct (String.eqb k1 k).
  - intros [= ->]. reflexivity.
  - intros H. rewrite (IH H). reflexivity.
Qed.

Lemma set_item_keys (k : string) (v : pyval) (d : pydict) :
  NoDup (map fst d) -> NoDup (map fst (Step3.set_item k v d)) /\
  forall x, x ∈ map fst (Step3.set_item k v d) <-> x = k \/ x ∈ map fst d.
Proof.
  induction d as [|[k1 v1] d IH]; simpl; intros Hnd.
  - split; [apply NoDup_singleton|]. intros x.
    rewrite list_elem_of_singleton, elem_of_nil. tauto.
  - apply NoDup_cons in Hnd as [Hnotin Hnd]. destruct (IH Hnd) as [IHnd IHkeys].
    destruct (String.eqb_spec k1 k) as [->|Hne]; simpl.
    + split; [apply NoDup_cons; split; assumption|].
      intros x. rewrite !elem_of_cons. tauto.
    + split.
      * apply NoDup_cons. split; [|exact IHnd].
        rewrite IHkeys. intros [Heq|Hin]; [congruence | contradiction].
      * intros x. rewrite !elem_of_cons, IHkeys. tauto.
Qed.

Lemma lookup_None_keys (k : string) (d : pydict) :
  Py.lookup k d = None <-> k ∉ map fst d.
Proof.
  induction d as [|[k1 v1] d IH]; simpl.
  - split; [intros _; apply not_elem_of_nil | reflexivity].
  - rewrite not_elem_of_cons. destruct (String.eqb_spec k1 k) as [->|Hne].
    + split; [discriminate | intros [H _]; congruence].
    + rewrite IH. split; [intros H; split; [congruence | exact H] | intros [_ H]; exact H].
Qed.

Lemma setdefault_keys (k : string) (v : pyval) (d : pydict) :
  NoDup (map fst d) -> NoDup (map fst (Step3.setdefault k v d)).
Proof.
  intros Hnd. unfold Step3.setdefault. destruct (Py.lookup k d) eqn:E; [exact Hnd|].
  rewrite map_app. apply NoDup_app. split; [exact Hnd|]. split.
  - intros x Hx Hin. apply list_elem_of_singleton in Hin. subst x.
    apply lookup_None_keys in E. contradiction.
  - apply NoDup_singleton.
Qed.

Lemma lookup_setdefault (k k' : string) (v : pyval) (d : pydict) :
  Py.lookup k' (Step3.setdefault k v d)
  = match Py.lookup k' d with
    | Some x => Some x
    | None => if String.eqb k k' then Some v else None
    end.
Proof.
  unfold Step3.setdefault. destruct (Py.lookup k d) eqn:E.
  - destruct (Py.lookup k' d) eqn:E'; [reflexivity|].
    destruct (String.eqb_spec k k') as [->|_]; [congruence | reflexivity].
  - apply lookup_snoc.
Qed.

Lemma merge_instance_inv (d d' : pydict) :
  Step3.merge_instance (VDict d) = Ok d' ->
  exists patch test_patch,
    Step3.diff_text (Py.get_default d "patch" (VStr EmptyString)) = Ok patch /\
    Step3.diff_text (Py.get_default d "test_patch" (VStr EmptyString)) = Ok test_patch /\
    d' = Step3.set_item "language"
           (VStr (fst (Lang.infer_language_from_diff_text [patch; test_patch])))
           (Step3.setdefault "created_at"
              (Py.or_ (Py.get d "created_at") (VStr EmptyString)) d).
Proof.
  cbn [Step3.merge_instance].
  destruct (Step3.diff_text (Py.get_default d "patch" (VStr EmptyString))) as [patch|e];
    [|discriminate].
  destruct (Step3.diff_text (Py.get_default d "test_patch" (VStr EmptyString)))
    as [test_patch|e]; [|discriminate].
  cbn [Report.rbind]. intros [= <-]. exists patch, test_patch. repeat split; reflexivity.
Qed.

(** X22. Merging an instance only adds to it: every field other than
    [language] and [created_at] keeps its value, [language] becomes the
    language inferred from the patch and the test patch, and [created_at]
    is present afterwards, with the value it had (a null stays a null) or
    with the empty string when it was absent. No key is repeated. *)
Theorem merge_instance_fields (d d' : pydict) :
  Step3.merge_instance (VDict d) = Ok d' ->
  (forall k, k <> "language" -> k <> "created_at" -> Py.lookup k d' = Py.lookup k d) /\
  (exists patch test_patch,
      Step3.diff_text (Py.get_default d "patch" (VStr EmptyString)) = Ok patch /\
      Step3.diff_text (Py.get_default d "test_patch" (VStr EmptyString)) = Ok test_patch /\
      Py.lookup "language" d'
      = Some (VStr (fst (Lang.infer_language_from_diff_text [patch; test_patch])))) /\
  Py.lookup "created_at" d'
  = Some (match Py.lookup "created_at" d with Some v => v | None => VStr EmptyString end) /\
  (NoDup (map fst d) -> NoDup (map fst d')).
Proof.
  intros Hmerge. apply merge_instance_inv in Hmerge as (patch & test_patch & Hp & Ht & ->).
  split; [|split; [|split]].
  - intros k Hlang Hcreated. rewrite lookup_set_item, lookup_setdefault.
    destruct (String.eqb_spec "language" k) as [Heq|_]; [congruence|].
    destruct (String.eqb_spec "created_at" k) as [Heq|_]; [congruence|].
    destruct (Py.lookup k d); reflexivity.
  - exists patch, test_patch. split; [exact Hp|]. split; [exact Ht|].
    rewrite lookup_set_item. reflexivity.
  - rewrite lookup_set_item, lookup_setdefault. cbn [String.eqb Ascii.eqb Bool.eqb].
    unfold Py.get, Py.get_default.
    destruct (Py.lookup "created_at" d); reflexivity.
  - intros Hnd. apply set_item_keys. apply setdefault_keys. exact Hnd.
Qed.

(** X23. Merging is idempotent: an instance that has been merged is left
    as it is by a second merge. *)
Theorem merge_instance_idempotent (d d' : pydict) :
  Step3.merge_instance (VDict d) = Ok d' ->
  Step3.merge_instance (VDict d') = Ok d'.
Proof.
  intros Hmerge. apply merge_instance_inv in Hmerge as (patch & test_patch & Hp & Ht & Hd).
  set (lang := VStr (fst (Lang.infer_language_from_diff_text [patch; test_patch]))) in Hd.
  set (created := Py.or_ (Py.get d "created_at") (VStr EmptyString)) in Hd.
  assert (Hother : forall k, String.eqb "language" k = false ->
                             String.eqb "created_at" k = false ->
                             Py.lookup k d' = Py.lookup k d).
  { intros k H1 H2. rewrite Hd, lookup_set_item, lookup_setdefault, H1, H2.
    destruct (Py.lookup k d); reflexivity. }
  assert (Hlang : Py.lookup "language" d' = Some lang).
  { rewrite Hd, lookup_set_item. reflexivity. }
  assert (Hcreated : exists v, Py.lookup "created_at" d' = Some v).
  { rewrite Hd, lookup_set_item, lookup_setdefault. cbn [String.eqb Ascii.eqb Bool.eqb].
    destruct (Py.lookup "created_at" d) as [v|]; eexists; reflexivity. }
  cbn [Step3.merge_instance]. unfold Py.get_default.
  rewrite (Hother "patch"), (Hother "test_patch") by reflexivity.
  unfold Py.get_default in Hp, Ht. rewrite Hp, Ht. cbn [Report.rbind]. fold lang.
  unfold Step3.setdefault at 1. destruct Hcreated as [v ->].
  rewrite (set_item_same _ _ _ Hlang). reflexivity.
Qed.

End MergeFacts.

Lemma merge_instance_fields_witness :
  let d := [("instance_id", VStr "r-1"); ("created_at", VNone);
            ("patch", VStr "diff --git a/src/x.rs b/src/x.rs")] in
  let d' := d ++ [("language", VStr "Rust")] in
  Step3.merge_instance (VDict d) = Ok d' /\
  Py.lookup "created_at" d' = Some VNone /\
  Py.lookup "instance_id" d' = Py.lookup "instance_id" d.
Proof.
  intros d d'.
  assert (Hmerge : Step3.merge_instance (VDict d) = Ok d') by (vm_compute; reflexivity).
  split; [exact Hmerge|].
  destruct (merge_instance_fields d d' Hmerge) as (Hother & _ & Hcreated & _).
  split; [exact Hcreated|]. apply Hother; discriminate.
Defined.

Lemma merge_instance_idempotent_witness :
  let d := [("patch", VStr "diff --git a/a.ts b/a.ts"); ("test_patch", VNone)] in
  let d' := d ++ [("created_at", VStr EmptyString); ("language", VStr "JS/TS")] in
  Step3.merge_instance (VDict d) = Ok d' /\ Step3.merge_instance (VDict d') = Ok d'.
Proof.
  intros d d'.
  assert (Hmerge : Step3.merge_instance (VDict d) = Ok d') by (vm_compute; reflexivity).
  split; [exact Hmerge|]. exact (merge_instance_idempotent d d' Hmerge).
Defined.

(** ** Entries that are refused or passed over *)

Section EntryFacts.

Import Pull2Issue Pull2IssueSpec Entries.

Variable int_of_text : string -> option Z.

Lemma collect_cons_object (it : pydict) (rest : list pyval) (g : groups) :
  collect int_of_text (VDict it :: rest) g
  = if bad_entry it
    then Raise (SystemExit ("Bad entry (need repo/issue_number/pr_number): "
                            +:+ Py.str (VDict it)))
    else Report.rbind (py_int int_of_text (Py.get it "pr_number")) (fun pr_z =>
         Report.rbind (py_int int_of_text (Py.get it "issue_number")) (fun issue_z =>
         collect int_of_text rest (add_entry g (Py.str (Py.get it "repo")) pr_z issue_z))).
Proof. reflexivity. Qed.

Lemma collect_cons_other (v : pyval) (rest : list pyval) (g : groups) :
  (forall d, v <> VDict d) ->
  collect int_of_text (v :: rest) g = collect int_of_text rest g.
Proof. intros Hv. destruct v; try reflexivity. exfalso. exact (Hv d eq_refl). Qed.

Lemma collect_app (l1 l2 : list pyval) (g : groups) :
  collect int_of_text (l1 ++ l2) g
  = Report.rbind (collect int_of_text l1 g) (collect int_of_text l2).
Proof.
  revert g. induction l1 as [|v l1 IH]; intros g; [reflexivity|].
  cbn [app]. destruct v as [|b|z|s|l|it]; try apply IH.
  rewrite !collect_cons_object. destruct (bad_entry it); [reflexivity|].
  destruct (py_int int_of_text (Py.get it "pr_number")) as [pr|e]; [|reflexivity].
  destruct (py_int int_of_text (Py.get it "issue_number")) as [i|e]; [|reflexivity].
  cbn [Report.rbind]. apply IH.
Qed.

Lemma collect_usable (l : list pyval) (g : groups) :
  forallb (usable int_of_text) l = true -> exists g', collect int_of_text l g = Ok g'.
Proof.
  revert g. induction l as [|v l IH]; intros g Hl; [exists g; reflexivity|].
  cbn [forallb] in Hl. apply andb_prop in Hl as [Hv Hl].
  destruct v as [|b|z|s|l0|it]; try apply (IH _ Hl).
  rewrite collect_cons_object. cbn [usable] in Hv.
  apply andb_prop in Hv as [Hv _]. apply andb_prop in Hv as [Hv Hissue].
  apply andb_prop in Hv as [Hbad Hpr]. apply negb_true_iff in Hbad. rewrite Hbad.
  unfold converts in Hpr, Hissue.
  destruct (py_int int_of_text (Py.get it "pr_number")) as [pr|e]; [|discriminate Hpr].
  destruct (py_int int_of_text (Py.get it "issue_number")) as [i|e]; [|discriminate Hissue].
  cbn [Report.rbind]. apply IH. exact Hl.
Qed.

(** X24. The first object of the map that lacks a repository, an issue
    number or a pull-request number stops the script with [SystemExit] and
    the text of that entry; what follows it is not looked at, and nothing
    is returned for the entries before it. *)
Theorem main_first_bad_entry (l1 l2 : list pyval) (it : pydict) (out_root : path)
    (cutoff_date : string) :
  forallb (usable int_of_text) l1 = true ->
  bad_entry it = true ->
  main int_of_text (VList (l1 ++ VDict it :: l2)) out_root cutoff_date
  = Raise (SystemExit ("Bad entry (need repo/issue_number/pr_number): "
                       +:+ Py.str (VDict it))).
Proof.
  intros Hl1 Hbad. cbn [main]. rewrite collect_app.
  destruct (collect_usable l1 [] Hl1) as [g1 ->]. cbn [Report.rbind].
  rewrite collect_cons_object, Hbad. reflexivity.
Qed.

(** X25. An entry of the map that is not an object (a number, a string, a
    list, [null]) is passed over without a word: the script does with the
    map what it does without that entry. *)
Theorem main_skips_non_objects (l1 l2 : list pyval) (v : pyval) (out_root : path)
    (cutoff_date : string) :
  (forall d, v <> VDict d) ->
  main int_of_text (VList (l1 ++ v :: l2)) out_root cutoff_date
  = main int_of_text (VList (l1 ++ l2)) out_root cutoff_date.
Proof.
  intros Hv. cbn [main]. rewrite !collect_app.
  destruct (collect int_of_text l1 []) as [g1|e]; [|reflexivity].
  cbn [Report.rbind]. rewrite (collect_cons_other v l2 g1 Hv). reflexivity.
Qed.

Lemma collect_keys_mono (l : list pyval) (g g' : groups) (x : string) :
  collect int_of_text l g = Ok g' -> x ∈ map fst g -> x ∈ map fst g'.
Proof.
  revert g. induction l as [|v l IH]; intros g Hc Hx.
  - injection Hc as <-. exact Hx.
  - destruct v as [|b|z|s|l0|it]; try apply (IH _ Hc Hx).
    rewrite collect_cons_object in Hc. destruct (bad_entry it); [discriminate Hc|].
    destruct (py_int int_of_text (Py.get it "pr_number")) as [pr|e]; [|discriminate Hc].
    destruct (py_int int_of_text (Py.get it "issue_number")) as [i|e]; [|discriminate Hc].
    cbn [Report.rbind] in Hc. apply (IH _ Hc). apply repo_keys_add. right. exact Hx.
Qed.

Lemma collect_ok_inv (l : list pyval) (g g' : groups) (it : pydict) :
  collect int_of_text l g = Ok g' -> VDict it ∈ l ->
  bad_entry it = false /\
  converts int_of_text (Py.get it "pr_number") = true /\
  converts int_of_text (Py.get it "issue_number") = true /\
  Py.str (Py.get it "repo") ∈ map fst g'.
Proof.
  revert g. induction l as [|v l IH]; intros g Hc Hin.
  - apply elem_of_nil in Hin. contradiction.
  - apply elem_of_cons in Hin as [<-|Hin].
    + rewrite collect_cons_object in Hc. destruct (bad_entry it); [discriminate Hc|].
      unfold converts.
      destruct (py_int int_of_text (Py.get it "pr_number")) as [pr|e]; [|discriminate Hc].
      destruct (py_int int_of_text (Py.get it "issue_number")) as [i|e]; [|discriminate Hc].
      cbn [Report.rbind] in Hc. repeat split.
      apply (collect_keys_mono _ _ _ _ Hc). apply repo_keys_add. left. reflexivity.
    + destruct v as [|b|z|s|l0|it0]; try apply (IH _ Hc Hin).
      rewrite collect_cons_object in Hc. destruct (bad_entry it0); [discriminate Hc|].
      destruct (py_int int_of_text (Py.get it0 "pr_number")) as [pr|e]; [|discriminate Hc].
      destruct (py_int int_of_text (Py.get it0 "issue_number")) as [i|e]; [|discriminate Hc].
      cbn [Report.rbind] in Hc. apply (IH _ Hc Hin).
Qed.

Lemma write_files_ok_inv (out_root : path) (cutoff : string) (g : groups)
    (repos : list string) (files : list (string * path * string)) :
  write_files out_root cutoff g repos = Ok files ->
  forall r, r ∈ repos -> is_Some (split_once r).
Proof.
  revert files. induction repos as [|r0 repos IH]; intros files Hw r Hr.
  - apply elem_of_nil in Hr. contradiction.
  - cbn [write_files] in Hw. destruct (split_once r0) as [[owner name]|] eqn:E;
      [|discriminate Hw].
    destruct (write_files out_root cutoff g repos) as [files'|e]; [|discriminate Hw].
    apply elem_of_cons in Hr as [->|Hr]; [rewrite E; eexists; reflexivity|].
    apply (IH files' eq_refl). exact Hr.
Qed.

(** X26. The script completes only on a map whose objects can all be
    used: when [main] returns, every object of the list has a truthy
    repository whose text holds a slash, and an issue number and a
    pull-request number that are not null and that [int] accepts. *)
Theorem main_ok_usable (l : list pyval) (out_root : path) (cutoff_date : string)
    (files : list (string * path * string)) :
  main int_of_text (VList l) out_root cutoff_date = Ok files ->
  forallb (usable int_of_text) l = true.
Proof.
  cbn [main]. intros Hmain.
  destruct (collect int_of_text l []) as [g|e] eqn:Hc; [|discriminate Hmain].
  cbn [Report.rbind] in Hmain. apply forallb_forall. intros v Hv.
  destruct v as [|b|z|s|l0|it]; try reflexivity.
  apply list_elem_of_In in Hv.
  destruct (collect_ok_inv _ _ _ _ Hc Hv) as (Hbad & Hpr & Hissue & Hrepo).
  cbn [usable]. rewrite Hbad, Hpr, Hissue. cbn [negb andb].
  assert (Hsorted : Py.str (Py.get it "repo") ∈ merge_sort str_le (map fst g)).
  { rewrite merge_sort_Permutation. exact Hrepo. }
  destruct (write_files_ok_inv _ _ _ _ _ Hmain _ Hsorted) as [x ->]. reflexivity.
Qed.

End EntryFacts.

Lemma main_first_bad_entry_witness :
  let item r i p := VDict [("repo", VStr r); ("issue_number", i); ("pr_number", VInt p)] in
  let l1 := [VInt 3; item "o/a" (VInt 7) 20%Z] in
  let it := [("repo", VStr "o/b"); ("issue_number", VNone); ("pr_number", VInt 21%Z)] in
  forallb (Entries.usable (fun _ => None)) l1 = true /\
  Entries.bad_entry it = true /\
  Pull2Issue.main (fun _ => None) (VList (l1 ++ VDict it :: [VStr "rest"])) ["in"] "20090101"
  = Raise (SystemExit "Bad entry (need repo/issue_number/pr_number): {'repo': 'o/b', 'issue_number': None, 'pr_number': 21}").
Proof.
  intros item l1 it.
  assert (H1 : forallb (Entries.usable (fun _ => None)) l1 = true) by reflexivity.
  assert (H2 : Entries.bad_entry it = true) by reflexivity.
  split; [exact H1|]. split; [exact H2|].
  exact (main_first_bad_entry (fun _ => None) l1 [VStr "rest"] it ["in"] "20090101" H1 H2).
Defined.

Lemma main_skips_non_objects_witness :
  (forall d, VStr "note" <> VDict d) /\
  Pull2Issue.main (fun _ => None) (VList (sample_issue_pr_map ++ VStr "note" :: []))
                  ["in"] "20090101"
  = Pull2Issue.main (fun _ => None) (VList (sample_issue_pr_map ++ [])) ["in"] "20090101".
Proof.
  assert (H : forall d, VStr "note" <> VDict d) by discriminate.
  split; [exact H|].
  exact (main_skips_non_objects (fun _ => None) sample_issue_pr_map [] (VStr "note")
           ["in"] "20090101" H).
Defined.

Lemma main_ok_usable_witness :
  exists files,
    Pull2Issue.main (fun _ => None) (VList (VNone :: sample_issue_pr_map)) ["in"] "20090101"
    = Ok files /\
    forallb (Entries.usable (fun _ => None)) (VNone :: sample_issue_pr_map) = true.
Proof.
  eexists. 
  assert (H : Pull2Issue.main (fun _ => None) (VList (VNone :: sample_issue_pr_map))
                ["in"] "20090101"
              = Ok [("o/a", ["in"; "o__a"; "prs"; "a-pull2issue-20090101.jsonl"],
                     Pull2Issue.pull2issue_text [(9%Z, [3%Z])]);
                    ("o/b", ["in"; "o__b"; "prs"; "b-pull2issue-20090101.jsonl"],
                     Pull2Issue.pull2issue_text [(20%Z, [7%Z; 5%Z; 7%Z]); (11%Z, [1%Z])])]).
  { vm_compute. reflexivity. }
  split; [exact H|].
  exact (main_ok_usable (fun _ => None) _ _ _ _ H).
Defined.

(** ** The issue-PR script on the file system *)

Section Pull2IssueFiles.

Import Pull2Issue Pull2IssueSpec.

Lemma mkdir_parents_keeps (p q : path) (n : node) (fs : FS.t) :
  FS.node_at fs q = Some n -> FS.node_at (fst (FS.mkdir_parents p fs)) q = Some n.
Proof.
  destruct q as [|x q]; [intros H; exact H|]. cbn [FS.node_at]. intros Hq.
  destruct (mkdir_parents_grows p fs (x :: q)) as [Hsame|[(_ & Hnone & _)|Hin]].
  - rewrite Hsame. exact Hq.
  - congruence.
  - apply elem_of_nil in Hin. contradiction.
Qed.

Lemma open_w_inv (p : path) (fs fs' : FS.t) :
  FS.open_w p fs = (fs', Ok tt) ->
  fs' = <[p := File EmptyString]> fs /\ FS.node_at fs p <> Some Dir.
Proof.
  unfold FS.open_w. destruct (FS.node_at fs p) as [[|text]|].
  - discriminate.
  - intros [= <-]. split; [reflexivity | discriminate].
  - destruct (FS.stat_error fs p); [discriminate|].
    destruct (FS.node_at fs (Pathlib.parent p)) as [[|text]|]; try discriminate.
    intros [= <-]. split; [reflexivity | discriminate].
Qed.

Lemma node_at_insert_eq (fs : FS.t) (p : path) (n : node) :
  p <> [] -> FS.node_at (<[p := n]> fs) p = Some n.
Proof.
  intros Hp. destruct p as [|x p]; [congruence|]. cbn [FS.node_at].
  apply lookup_insert_eq.
Qed.

Lemma write_repo_spec (out_root : path) (cutoff : string) (g : groups) (repo : string)
    (fs fs' : FS.t) (p : path) :
  Pull2IssueFS.write_repo out_root cutoff g repo fs = (fs', Ok p) ->
  (exists owner name,
      split_once repo = Some (owner, name) /\
      p = Pull2IssueFS.pull2issue_path_of out_root cutoff owner name /\
      FS.node_at fs' (Pull2IssueFS.prs_dir_of out_root owner name) = Some Dir /\
      FS.node_at fs' (Pull2IssueFS.tasks_dir_of out_root owner name) = Some Dir) /\
  FS.node_at fs' p = Some (File (pull2issue_text (pr_map_of g repo))) /\
  (forall q, FS.node_at fs q = Some Dir -> FS.node_at fs' q = Some Dir) /\
  (forall q n, q <> p -> FS.node_at fs q = Some n -> FS.node_at fs' q = Some n).
Proof.
  unfold Pull2IssueFS.write_repo.
  destruct (split_once repo) as [[owner name]|]; [|discriminate].
  set (prs := Pull2IssueFS.prs_dir_of out_root owner name).
  set (tasks := Pull2IssueFS.tasks_dir_of out_root owner name).
  set (file := Pull2IssueFS.pull2issue_path_of out_root cutoff owner name).
  destruct (FS.mkdir_parents prs fs) as [fs1 [[]|e]] eqn:E1; [|discriminate].
  destruct (FS.mkdir_parents tasks fs1) as [fs2 [[]|e]] eqn:E2; [|discriminate].
  destruct (FS.open_w file fs2) as [fs3 [[]|e]] eqn:E3; [|discriminate].
  intros [= <- <-]. apply open_w_inv in E3 as [-> Hfile]. unfold FS.write_close.
  assert (Hk1 : forall q n, FS.node_at fs q = Some n -> FS.node_at fs1 q = Some n).
  { intros q n Hq. pose proof (mkdir_parents_keeps prs q n fs Hq) as H.
    rewrite E1 in H. exact H. }
  assert (Hk2 : forall q n, FS.node_at fs1 q = Some n -> FS.node_at fs2 q = Some n).
  { intros q n Hq. pose proof (mkdir_parents_keeps tasks q n fs1 Hq) as H.
    rewrite E2 in H. exact H. }
  assert (Hk3 : forall q n, q <> file -> FS.node_at fs2 q = Some n ->
                FS.node_at (<[file := File (pull2issue_text (default [] (al_get String.eqb repo g)))]>
                              (<[file := File EmptyString]> fs2)) q = Some n).
  { intros q n Hne Hq. rewrite !node_at_insert_ne by congruence. exact Hq. }
  assert (Hdir : forall q, FS.node_at fs2 q = Some Dir -> q <> file).
  { intros q Hq ->. contradiction. }
  split; [|split; [|split]].
  - exists owner, name. split; [reflexivity|]. split; [reflexivity|].
    assert (Hprs : FS.node_at fs2 prs = Some Dir).
    { apply Hk2. apply (mkdir_parents_is_dir _ _ _ E1). }
    assert (Htasks : FS.node_at fs2 tasks = Some Dir).
    { apply (mkdir_parents_is_dir _ _ _ E2). }
    split; apply Hk3; auto.
  - apply node_at_insert_eq. intros Hnil. apply Hfile. rewrite Hnil. reflexivity.
  - intros q Hq. apply Hk3; [apply Hdir|]; apply Hk2, Hk1; exact Hq.
  - intros q n Hne Hq. apply Hk3; [exact Hne|]. apply Hk2, Hk1. exact Hq.
Qed.

Lemma write_repos_spec (out_root : path) (cutoff : string) (g : groups) (repos : list string) :
  forall (fs fs' : FS.t) (written : list (string * path)),
    Pull2IssueFS.write_repos out_root cutoff g repos fs = (fs', Ok written) ->
    map fst written = repos /\
    (forall q, FS.node_at fs q = Some Dir -> FS.node_at fs' q = Some Dir) /\
    (forall q n, q ∉ map snd written -> FS.node_at fs q = Some n -> FS.node_at fs' q = Some n) /\
    (NoDup (map snd written) ->
     forall repo p, (repo, p) ∈ written ->
       (exists owner name,
           split_once repo = Some (owner, name) /\
           p = Pull2IssueFS.pull2issue_path_of out_root cutoff owner name /\
           FS.node_at fs' (Pull2IssueFS.prs_dir_of out_root owner name) = Some Dir /\
           FS.node_at fs' (Pull2IssueFS.tasks_dir_of out_root owner name) = Some Dir) /\
       FS.node_at fs' p = Some (File (pull2issue_text (pr_map_of g repo)))).
Proof.
  induction repos as [|repo0 repos IH]; intros fs fs' written Hw.
  - cbn [Pull2IssueFS.write_repos] in Hw. injection Hw as <- <-.
    split; [reflexivity|]. split; [auto|]. split; [auto|].
    intros _ repo p Hin. apply elem_of_nil in Hin. contradiction.
  - cbn [Pull2IssueFS.write_repos] in Hw.
    destruct (Pull2IssueFS.write_repo out_root cutoff g repo0 fs) as [fs1 [p0|e]] eqn:E0;
      [|discriminate Hw].
    destruct (Pull2IssueFS.write_repos out_root cutoff g repos fs1) as [fs2 [rest|e]] eqn:E1;
      [|discriminate Hw].
    injection Hw as <- <-.
    destruct (write_repo_spec _ _ _ _ _ _ _ E0) as (Hnames & Hfile & Hdirs0 & Hkeep0).
    destruct (IH _ _ _ E1) as (Hrepos & Hdirs1 & Hkeep1 & Hrest).
    cbn [map fst snd]. split; [rewrite Hrepos; reflexivity|].
    split; [intros q Hq; apply Hdirs1, Hdirs0; exact Hq|]. split.
    + intros q n Hq Hn. rewrite not_elem_of_cons in Hq. destruct Hq as [Hne Hq].
      apply (Hkeep1 _ _ Hq). apply (Hkeep0 _ _ Hne). exact Hn.
    + intros Hnd repo p Hin. apply NoDup_cons in Hnd as [Hnotin Hnd].
      apply elem_of_cons in Hin as [[= -> ->]|Hin]; [|apply (Hrest Hnd _ _ Hin)].
      destruct Hnames as (owner & name & Hsplit & Hp & Hprs & Htasks). split.
      * exists owner, name. split; [exact Hsplit|]. split; [exact Hp|].
        split; apply Hdirs1; assumption.
      * apply (Hkeep1 _ _ Hnotin). exact Hfile.
Qed.

Lemma join_concat (sep : string) (l : list string) :
  PyStr.join sep l = String.concat sep l.
Proof.
  induction l as [|x l IH]; [reflexivity|]. destruct l as [|y l]; [reflexivity|].
  change (PyStr.join sep (x :: y :: l)) with (x +:+ sep +:+ PyStr.join sep (y :: l)).
  rewrite IH. reflexivity.
Qed.

Lemma dumps_record_line (rec : Z * list Z) :
  dumps_record (fst rec) (snd rec) = record_line rec.
Proof.
  unfold dumps_record, record_line, dumps_ints, quoted, dq. rewrite join_concat.
  change PyStr.dquote with (ascii_of_nat 34).
  rewrite !append_assoc. reflexivity.
Qed.

Lemma render_records_text (recs : list (Z * list Z)) :
  render_records recs = file_text recs.
Proof.
  unfold render_records. induction recs as [|rec recs IH]; [reflexivity|].
  cbn [map String.concat fold_right file_text].
  destruct recs as [|rec' recs].
  - cbn [map fold_right]. rewrite dumps_record_line. reflexivity.
  - rewrite dumps_record_line. change (EmptyString +:+ ?x) with x.
    cbn [fold_right file_text] in IH |- *. rewrite <- IH.
    rewrite append_assoc. reflexivity.
Qed.

Lemma elem_of_prs_of (repo : string) (es : list (string * Z * Z)) (pr : Z) :
  pr ∈ prs_of repo es <-> exists i, (repo, pr, i) ∈ es.
Proof.
  unfold prs_of. rewrite list_elem_of_omap. split.
  - intros ([[r0 pr0] i0] & Hin & Hif). cbn [fst snd] in Hif.
    destruct (String.eqb_spec r0 repo) as [->|]; [|discriminate Hif].
    injection Hif as ->. exists i0. exact Hin.
  - intros [i Hin]. exists (repo, pr, i). split; [exact Hin|].
    cbn [fst snd]. rewrite String.eqb_refl. reflexivity.
Qed.

Lemma ascending_eq (l k : list Z) :
  NoDup l -> (forall x, x ∈ l <-> x ∈ k) -> merge_sort Z.le l = ascending k.
Proof.
  intros Hnd Hiff. unfold ascending. apply (merge_sort_perm Z.le).
  apply NoDup_Permutation; [exact Hnd | apply NoDup_remove_dups|].
  intros x. rewrite elem_of_remove_dups. apply Hiff.
Qed.

(** The records that the script writes for a repository are those of the
    entries. *)
Lemma records_by_spec (es : list (string * Z * Z)) (r : string) :
  pull2issue_records (pr_map_of (grouped_from [] es) r) = records r es.
Proof.
  unfold pull2issue_records, records.
  assert (Hkeys : merge_sort Z.le (map fst (pr_map_of (grouped_from [] es) r))
                  = ascending (prs_of r es)).
  { apply ascending_eq; [apply (wf_grouped [] es wf_nil)|].
    intros pr. rewrite pr_keys_grouped, elem_of_prs_of.
    split; [intros [H|H]; [apply elem_of_nil in H; contradiction | exact H] | auto]. }
  rewrite Hkeys. apply map_ext. intros pr. f_equal.
  change (default [] (al_get Z.eqb pr (pr_map_of (grouped_from [] es) r)))
    with (issues_at (grouped_from [] es) r pr).
  rewrite issues_at_grouped. change (issues_at [] r pr) with (@nil Z). cbn [app].
  apply ascending_eq; [apply NoDup_elements|].
  intros i. rewrite elem_of_elements, elem_of_list_to_set. reflexivity.
Qed.

Lemma write_repos_ext (out_root : path) (cutoff : string) (g g' : groups)
    (repos : list string) :
  (forall r, pull2issue_text (pr_map_of g r) = pull2issue_text (pr_map_of g' r)) ->
  forall fs : FS.t,
    Pull2IssueFS.write_repos out_root cutoff g repos fs
    = Pull2IssueFS.write_repos out_root cutoff g' repos fs.
Proof.
  intros Hext. induction repos as [|r repos IH]; intros fs; [reflexivity|].
  cbn [Pull2IssueFS.write_repos].
  assert (Hr : Pull2IssueFS.write_repo out_root cutoff g r fs
               = Pull2IssueFS.write_repo out_root cutoff g' r fs).
  { unfold Pull2IssueFS.write_repo.
    destruct (split_once r) as [[owner name]|]; [|reflexivity].
    fold (pr_map_of g r). fold (pr_map_of g' r). rewrite Hext. reflexivity. }
  rewrite Hr. destruct (Pull2IssueFS.write_repo out_root cutoff g' r fs) as [fs1 [p|e]];
    [|reflexivity].
  rewrite IH. reflexivity.
Qed.


Lemma nodup_snd_inj {A B} (l : list (A * B)) (a b : A) (p : B) :
  NoDup (map snd l) -> (a, p) ∈ l -> (b, p) ∈ l -> a = b.
Proof.
  induction l as [|[a0 p0] l IH]; intros Hnd Ha Hb.
  - apply elem_of_nil in Ha. contradiction.
  - cbn [map snd] in Hnd. apply NoDup_cons in Hnd as [Hnotin Hnd].
    assert (Hin : forall x, (x, p0) ∈ l -> False).
    { intros x Hx. apply Hnotin. apply list_elem_of_fmap. exists (x, p0). auto. }
    apply elem_of_cons in Ha as [Ha|Ha]; apply elem_of_cons in Hb as [Hb|Hb].
    + congruence.
    + exfalso. injection Ha as -> ->. exact (Hin _ Hb).
    + exfalso. injection Hb as -> ->. exact (Hin _ Ha).
    + exact (IH Hnd Ha Hb).
Qed.

(** A path that was written holds the text of the repository that was
    written there last. *)
Lemma write_repos_last (out_root : path) (cutoff : string) (g : groups) (repos : list string) :
  forall (fs fs' : FS.t) (written : list (string * path)),
    Pull2IssueFS.write_repos out_root cutoff g repos fs = (fs', Ok written) ->
    forall repo p, (repo, p) ∈ written ->
      exists repo', (repo', p) ∈ written /\
        FS.node_at fs' p = Some (File (pull2issue_text (pr_map_of g repo'))).
Proof.
  induction repos as [|repo0 repos IH]; intros fs fs' written Hw repo p Hin.
  - cbn [Pull2IssueFS.write_repos] in Hw. injection Hw as <- <-.
    apply elem_of_nil in Hin. contradiction.
  - cbn [Pull2IssueFS.write_repos] in Hw.
    destruct (Pull2IssueFS.write_repo out_root cutoff g repo0 fs) as [fs1 [p0|e]] eqn:E0;
      [|discriminate Hw].
    destruct (Pull2IssueFS.write_repos out_root cutoff g repos fs1) as [fs2 [rest|e]] eqn:E1;
      [|discriminate Hw].
    injection Hw as <- <-.
    destruct (decide (p ∈ map snd rest)) as [Hp|Hp].
    + apply list_elem_of_fmap in Hp as ([repo1 p1] & -> & Hin1). cbn [snd].
      destruct (IH _ _ _ E1 _ _ Hin1) as (repo' & Hin' & Hfile).
      exists repo'. split; [apply list_elem_of_further; exact Hin' | exact Hfile].
    + apply elem_of_cons in Hin as [[= -> ->]|Hin].
      * exists repo0. split; [apply list_elem_of_here|].
        destruct (write_repo_spec _ _ _ _ _ _ _ E0) as (_ & Hfile & _).
        destruct (write_repos_spec _ _ _ _ _ _ _ E1) as (_ & _ & Hkeep & _).
        apply (Hkeep _ _ Hp). exact Hfile.
      * exfalso. apply Hp. apply list_elem_of_fmap. exists (repo, p). auto.
Qed.

Variable int_of_text : string -> option Z.

(** X27. When the script completes and has written each file under a
    path of its own, the output root is a directory and, for every
    repository of the map, [<owner>__<name>/prs] and
    [<owner>__<name>/tasks] are directories and the pull-to-issue file of
    the repository holds exactly its records; the repositories are written
    in ascending order. *)
Theorem main_fs_files (l : list pyval) (out_root : path) (cutoff : string)
    (fs fs' : FS.t) (written : list (string * path)) :
  Pull2IssueFS.main int_of_text (VList l) out_root cutoff fs = (fs', Ok written) ->
  NoDup (map snd written) ->
  exists g,
    collect int_of_text l [] = Ok g /\
    map fst written = merge_sort str_le (map fst g) /\
    FS.node_at fs' out_root = Some Dir /\
    forall repo p, (repo, p) ∈ written ->
      (exists owner name,
          split_once repo = Some (owner, name) /\
          p = Pull2IssueFS.pull2issue_path_of out_root cutoff owner name /\
          FS.node_at fs' (Pull2IssueFS.prs_dir_of out_root owner name) = Some Dir /\
          FS.node_at fs' (Pull2IssueFS.tasks_dir_of out_root owner name) = Some Dir) /\
      FS.node_at fs' p = Some (File (pull2issue_text (pr_map_of g repo))).
Proof.
  cbn [Pull2IssueFS.main]. intros Hmain Hnd.
  destruct (collect int_of_text l []) as [g|e]; [|discriminate Hmain].
  destruct (FS.mkdir_parents out_root fs) as [fs1 [[]|e]] eqn:E1; [|discriminate Hmain].
  destruct (write_repos_spec _ _ _ _ _ _ _ Hmain) as (Hrepos & Hdirs & _ & Hfiles).
  exists g. split; [reflexivity|]. split; [exact Hrepos|]. split.
  - apply Hdirs. apply (mkdir_parents_is_dir _ _ _ E1).
  - apply Hfiles. exact Hnd.
Qed.

(** C10. When the script completes on a valid issue-PR map, it has
    written one file for each repository of the map, and every file holds
    the records of a repository that was written there (of the repository
    itself, when no two repositories share a path): one line for each of
    its pull requests, in strictly ascending order of their numbers, each
    with exactly its issue numbers, in strictly ascending order (so without
    repetition). Every reordering of the input list leaves the same files
    with the same text. *)
Theorem pull2issue_files_sorted (items : list pyval) (out_root : path)
    (cutoff_date : string) (fs fs' : FS.t) (written : list (string * path)) :
  forallb valid_item items = true ->
  Pull2IssueFS.main int_of_text (VList items) out_root cutoff_date fs = (fs', Ok written) ->
  (forall r, r ∈ map fst written <-> exists pr i, (r, pr, i) ∈ entries items) /\
  Forall (fun file =>
            exists repo,
              (repo, snd file) ∈ written /\
              (NoDup (map snd written) -> repo = fst file) /\
              let recs := records repo (entries items) in
              FS.node_at fs' (snd file) = Some (File (file_text recs)) /\
              StronglySorted Z.lt (map fst recs) /\
              (forall pr, pr ∈ map fst recs <-> exists i, (repo, pr, i) ∈ entries items) /\
              Forall (fun rec =>
                        StronglySorted Z.lt (snd rec) /\
                        forall i, i ∈ snd rec <-> (repo, fst rec, i) ∈ entries items)
                     recs)
         written /\
  (forall items', items' ≡ₚ items ->
     Pull2IssueFS.main int_of_text (VList items') out_root cutoff_date fs
     = (fs', Ok written)).
Proof.
  intros Hvalid Hmain. cbn [Pull2IssueFS.main] in Hmain.
  rewrite (collect_valid int_of_text _ _ Hvalid) in Hmain.
  set (g := grouped_from [] (entries items)) in Hmain.
  destruct (FS.mkdir_parents out_root fs) as [fs1 [[]|e]] eqn:E1; [|discriminate Hmain].
  destruct (write_repos_spec _ _ _ _ _ _ _ Hmain) as (Hrepos & _).
  split; [|split].
  - intros r. rewrite Hrepos, merge_sort_Permutation. unfold g.
    rewrite repo_keys_grouped.
    split; [intros [H|H]; [apply elem_of_nil in H; contradiction | exact H] | auto].
  - apply Forall_forall. intros [repo p] Hin. cbn [fst snd].
    destruct (write_repos_last _ _ _ _ _ _ _ Hmain _ _ Hin) as (repo' & Hin' & Hfile).
    exists repo'. split; [exact Hin'|].
    split; [intros Hnd; exact (nodup_snd_inj _ _ _ _ Hnd Hin' Hin)|].
    cbn zeta. rewrite <- (records_by_spec (entries items) repo').
    split.
    + rewrite Hfile. unfold pull2issue_text. rewrite render_records_text. reflexivity.
    + apply (records_spec g repo' (entries items)). reflexivity.
  - intros items' Hperm.
    assert (Hes : entries items' ≡ₚ entries items).
    { unfold entries. rewrite Hperm. reflexivity. }
    cbn [Pull2IssueFS.main].
    rewrite (collect_valid int_of_text _ _ (forallb_perm _ _ _ Hperm Hvalid)), E1.
    rewrite (repos_perm _ _ Hes). fold g. rewrite <- Hmain.
    apply write_repos_ext. intros r. unfold pull2issue_text, g.
    rewrite (records_perm _ _ r Hes). reflexivity.
Qed.

End Pull2IssueFiles.

Lemma main_fs_files_witness :
  let run := Pull2IssueFS.main (fun _ => None) (VList sample_issue_pr_map) ["in"] "20090101" ∅ in
  let written := [("o/a", ["in"; "o__a"; "prs"; "a-pull2issue-20090101.jsonl"]);
                  ("o/b", ["in"; "o__b"; "prs"; "b-pull2issue-20090101.jsonl"])] in
  run = (fst run, Ok written) /\
  NoDup (map snd written) /\
  FS.node_at (fst run) ["in"; "o__b"; "tasks"] = Some Dir /\
  FS.node_at (fst run) ["in"; "o__a"; "prs"; "a-pull2issue-20090101.jsonl"]
  = Some (File ("{" +:+ Pull2Issue.quoted "pull" +:+ ": 9, " +:+ Pull2Issue.quoted "issue"
                +:+ ": [3]}" +:+ nl)).
Proof.
  intros run written.
  assert (Hrun : run = (fst run, Ok written)).
  { apply pair_snd_eq. vm_compute. reflexivity. }
  assert (Hnd : NoDup (map snd written)).
  { cbn [written map snd]. apply NoDup_cons. split; [|apply NoDup_singleton].
    intros Hin. apply list_elem_of_singleton in Hin. discriminate Hin. }
  split; [exact Hrun|]. split; [exact Hnd|].
  destruct (main_fs_files (fun _ => None) sample_issue_pr_map ["in"] "20090101" ∅ (fst run)
              written Hrun Hnd) as (g & Hg & _ & _ & Hfiles).
  assert (Hgroups : g = [("o/b", [(20%Z, [7%Z; 5%Z; 7%Z]); (11%Z, [1%Z])]);
                         ("o/a", [(9%Z, [3%Z])])]).
  { vm_compute in Hg. congruence. }
  split.
  - destruct (Hfiles "o/b" ["in"; "o__b"; "prs"; "b-pull2issue-20090101.jsonl"])
      as ((owner & name & Hsplit & _ & _ & Htasks) & _).
    { apply list_elem_of_further, list_elem_of_here. }
    vm_compute in Hsplit. injection Hsplit as <- <-. exact Htasks.
  - destruct (Hfiles "o/a" ["in"; "o__a"; "prs"; "a-pull2issue-20090101.jsonl"])
      as (_ & Hfile).
    { apply list_elem_of_here. }
    rewrite Hfile, Hgroups. vm_compute. reflexivity.
Defined.

Lemma pull2issue_files_sorted_witness :
  let run :=
    Pull2IssueFS.main (fun _ => None) (VList sample_issue_pr_map) ["in"] "20090101" ∅ in
  let written := [("o/a", ["in"; "o__a"; "prs"; "a-pull2issue-20090101.jsonl"]);
                  ("o/b", ["in"; "o__b"; "prs"; "b-pull2issue-20090101.jsonl"])] in
  let dq := Pull2IssueSpec.dq in
  (forallb Pull2IssueSpec.valid_item sample_issue_pr_map = true /\
   run = (fst run, Ok written)) /\
  Pull2IssueSpec.records "o/b" (Pull2IssueSpec.entries sample_issue_pr_map)
  = [(11, [1]); (20, [5; 7])]%Z /\
  FS.node_at (fst run) ["in"; "o__b"; "prs"; "b-pull2issue-20090101.jsonl"]
  = Some (File ("{" +:+ dq +:+ "pull" +:+ dq +:+ ": 11, " +:+ dq +:+ "issue" +:+ dq
                +:+ ": [1]}" +:+ nl
                +:+ "{" +:+ dq +:+ "pull" +:+ dq +:+ ": 20, " +:+ dq +:+ "issue" +:+ dq
                +:+ ": [5, 7]}" +:+ nl)) /\
  Pull2IssueFS.main (fun _ => None) (VList (rev sample_issue_pr_map)) ["in"] "20090101" ∅
  = (fst run, Ok written).
Proof.
  intros run written dq.
  assert (Hvalid : forallb Pull2IssueSpec.valid_item sample_issue_pr_map = true)
    by reflexivity.
  assert (Hrun : run = (fst run, Ok written)).
  { apply pair_snd_eq. vm_compute. reflexivity. }
  assert (Hnd : NoDup (map snd written)).
  { cbn [written map snd]. apply NoDup_cons. split; [|apply NoDup_singleton].
    intros Hin. apply list_elem_of_singleton in Hin. discriminate Hin. }
  assert (Hrecs : Pull2IssueSpec.records "o/b" (Pull2IssueSpec.entries sample_issue_pr_map)
                  = [(11, [1]); (20, [5; 7])]%Z)
    by (vm_compute; reflexivity).
  split; [split; [exact Hvalid | exact Hrun]|].
  split; [exact Hrecs|].
  destruct (pull2issue_files_sorted (fun _ => None) sample_issue_pr_map ["in"] "20090101" ∅
              (fst run) written Hvalid Hrun) as (_ & Hfiles & Hperm).
  split.
  - rewrite Forall_forall in Hfiles.
    destruct (Hfiles ("o/b", ["in"; "o__b"; "prs"; "b-pull2issue-20090101.jsonl"]))
      as (repo & _ & Hrepo & Hfile & _).
    { apply list_elem_of_further, list_elem_of_here. }
    cbn [fst snd] in Hrepo, Hfile. rewrite (Hrepo Hnd), Hrecs in Hfile. exact Hfile.
  - apply Hperm. symmetry. apply Permutation_rev.
Defined.

(** ** The printed command line *)

Section ShellFacts.

Import Shell ShellWords.

Lemma append_cons (c : ascii) (s r : string) : String c s +:+ r = String c (s +:+ r).
Proof. reflexivity. Qed.

Lemma append_nil_r (s : string) : s +:+ EmptyString = s.
Proof.
  induction s as [|c s IH]; [reflexivity|]. rewrite append_cons, IH. reflexivity.
Qed.

Lemma contains_none_cons (x : ascii) (a : string) (cs : list ascii) :
  existsb (fun c => PyStr.contains_char c (String x a)) cs = false ->
  existsb (Ascii.eqb x) cs = false /\
  existsb (fun c => PyStr.contains_char c a) cs = false.
Proof.
  induction cs as [|c cs IH]; [split; reflexivity|].
  cbn [existsb PyStr.contains_char]. intros H.
  apply orb_false_elim in H as [H1 H2]. apply orb_false_elim in H1 as [Hx Ha].
  destruct (IH H2) as [IH1 IH2]. rewrite Hx, Ha, IH1, IH2. split; reflexivity.
Qed.

Lemma special_inert (x : ascii) :
  existsb (Ascii.eqb x) special = false ->
  is_blank x = false /\ Ascii.eqb x PyStr.squote = false /\ Ascii.eqb x PyStr.dquote = false.
Proof.
  unfold special, is_blank. cbn [existsb]. intros H.
  repeat (apply orb_false_elim in H as [? H]).
  repeat match goal with E : Ascii.eqb x _ = false |- _ => rewrite E; clear E end.
  repeat split; reflexivity.
Qed.

Lemma words_bare (a r : string) :
  needs_quotes a = false -> bare_safe a = true ->
  forall cur,
    words Bare cur (a +:+ r)
    = words Bare (match a with
                  | EmptyString => cur
                  | _ => Some (default EmptyString cur +:+ a)
                  end) r.
Proof.
  unfold needs_quotes, bare_safe. induction a as [|x a IH]; intros Hq Hs cur; [reflexivity|].
  apply negb_true_iff in Hs.
  apply contains_none_cons in Hq as [Hx Hq]. apply contains_none_cons in Hs as [Hax Hs].
  apply special_inert in Hx as (Hblank & Hsq & Hdq).
  rewrite append_cons. cbn [words]. rewrite Hblank, Hsq, Hdq, Hax.
  rewrite (IH Hq) by (apply negb_true_iff; exact Hs).
  destruct a as [|y a]; [reflexivity|].
  unfold snoc. cbn [default]. unfold id. rewrite append_assoc. reflexivity.
Qed.

Lemma words_single (a r : string) :
  forall w,
    words Single (Some w) (escape_quotes a +:+ String PyStr.squote r)
    = words Bare (Some (w +:+ a)) r.
Proof.
  induction a as [|c a IH]; intros w.
  - cbn [escape_quotes]. change (EmptyString +:+ String PyStr.squote r)
      with (String PyStr.squote r).
    cbn [words]. rewrite append_nil_r. reflexivity.
  - cbn [escape_quotes]. destruct (Ascii.eqb c PyStr.squote) eqn:E.
    + apply Ascii.eqb_eq in E. subst c. rewrite !append_cons.
      change (words Single (Some w)
                (String PyStr.squote (String PyStr.dquote (String PyStr.squote
                   (String PyStr.dquote (String PyStr.squote
                      (escape_quotes a +:+ String PyStr.squote r)))))))
        with (words Single (Some (w +:+ String PyStr.squote EmptyString))
                (escape_quotes a +:+ String PyStr.squote r)).
      rewrite IH, append_assoc. reflexivity.
    + rewrite append_cons. cbn [words]. rewrite E. unfold snoc. cbn [default]. unfold id.
      rewrite IH, append_assoc. reflexivity.
Qed.

Lemma needs_quotes_nonempty (a : string) : needs_quotes a = true -> nonempty a = true.
Proof. destruct a; [discriminate | reflexivity]. Qed.

Lemma words_arg (a r : string) :
  needs_quotes a = true \/ bare_safe a = true ->
  words Bare None (quote_arg a +:+ r)
  = words Bare (if nonempty a then Some a else None) r.
Proof.
  intros Hok. unfold quote_arg. destruct (needs_quotes a) eqn:Hq.
  - rewrite (needs_quotes_nonempty a Hq), append_cons, append_assoc, append_cons.
    change (EmptyString +:+ r) with r.
    change (words Bare None
              (String PyStr.squote (escape_quotes a +:+ String PyStr.squote r)))
      with (words Single (Some EmptyString) (escape_quotes a +:+ String PyStr.squote r)).
    rewrite words_single. reflexivity.
  - destruct Hok as [Hok|Hsafe]; [discriminate Hok|].
    rewrite (words_bare a r Hq Hsafe). destruct a; reflexivity.
Qed.

(** X29. The command line that [_shell_join] prints splits back into its
    arguments under the quoting rules of the shell, except that empty
    arguments are lost: for arguments that are quoted by the function or
    hold no character that the shell acts upon in bare text, the words of
    the line are the arguments that are not empty, in order. *)
Theorem shell_join_words (argv : list string) :
  Forall (fun a => needs_quotes a = true \/ bare_safe a = true) argv ->
  sh_words (_shell_join argv) = Some (List.filter nonempty argv).
Proof.
  unfold sh_words, _shell_join. induction argv as [|a rest IH]; intros Hok; [reflexivity|].
  apply Forall_cons in Hok as [Ha Hrest]. specialize (IH Hrest).
  cbn [map PyStr.join List.filter]. destruct rest as [|b rest'].
  - cbn [map]. rewrite <- (append_nil_r (quote_arg a)), (words_arg a EmptyString Ha).
    destruct (nonempty a); reflexivity.
  - change (map quote_arg (b :: rest')) with (quote_arg b :: map quote_arg rest') in *.
    cbn iota. rewrite (words_arg a _ Ha), append_cons.
    change (EmptyString +:+ PyStr.join " " (quote_arg b :: map quote_arg rest'))
      with (PyStr.join " " (quote_arg b :: map quote_arg rest')).
    cbn [words]. change (is_blank " ") with true. cbn iota.
    rewrite IH. destruct (nonempty a); reflexivity.
Qed.

End ShellFacts.

Lemma shell_join_words_witness :
  let argv := ["python"; "get tasks.py"; "--repos"; "o'a/b"; EmptyString; "--cutoff_date";
               "$HOME;x"] in
  Forall (fun a => Shell.needs_quotes a = true \/ ShellWords.bare_safe a = true) argv /\
  ShellWords.sh_words (Shell._shell_join argv)
  = Some ["python"; "get tasks.py"; "--repos"; "o'a/b"; "--cutoff_date"; "$HOME;x"].
Proof.
  intros argv.
  assert (Hok : Forall (fun a => Shell.needs_quotes a = true \/ ShellWords.bare_safe a = true)
                       argv).
  { repeat constructor; (left; reflexivity) || (right; reflexivity). }
  split; [exact Hok|]. exact (shell_join_words argv Hok).
Defined.

(** ** Which records count *)

Lemma coerce_list_nonempty (x : pyval) :
  (0 <? length (Rows._coerce_list_str x))
  = match x with
    | VNone => false
    | VList l => existsb (fun v => negb (is_null v)) l
    | _ => true
    end.
Proof.
  destruct x as [|b|z|s|l|d]; try reflexivity. cbn [Rows._coerce_list_str].
  induction l as [|v l IH]; [reflexivity|]. cbn [flat_map existsb].
  destruct v; cbn [is_null negb orb]; try reflexivity. exact IH.
Qed.

Lemma parse_row_has_f2p (obj : pyval) (row : Report.Row) :
  Rows._parse_row obj = Ok row ->
  (0 <? length (Report.fail_to_pass row)) = has_f2p obj.
Proof.
  destruct obj as [|b|z|s|l|d]; try discriminate. cbn [Rows._parse_row has_f2p].
  destruct (negb (Py.truthy (Py.get d "instance_id"))); [discriminate|].
  intros [= <-]. cbn [Report.fail_to_pass]. apply coerce_list_nonempty.
Qed.

(** X30. The instances counted as having failing-to-passing tests are the
    records whose [FAIL_TO_PASS] is a list with at least one entry that is
    not null, or a value that is neither null nor a list: a string counts as
    one test whatever it holds, so also the empty string and the text of a
    JSON list. *)
Theorem f2p_instances_counted (objs : list pyval) (rows : list Report.Row) (top_n : Z)
    (r : Report.report) :
  Forall2 (fun o row => Rows._parse_row o = Ok row) objs rows ->
  Report.build_report rows top_n = Ok r ->
  Report.f2p_instances r = length (List.filter has_f2p objs).
Proof.
  intros Hrows Hr.
  destruct (build_report_lists rows top_n) as (r' & Hr' & Hcount & _).
  assert (r' = r) by congruence. subst r'. rewrite Hcount. clear Hr Hr' Hcount.
  unfold ReportSpec.f2p_rows.
  induction Hrows as [|o row objs rows Hrow _ IH]; [reflexivity|].
  rewrite filter_cons. cbn [List.filter]. rewrite <- (parse_row_has_f2p o row Hrow).
  destruct (decide (Is_true (0 <? length (Report.fail_to_pass row)))) as [H|H].
  - apply Is_true_true in H. rewrite H. cbn [length]. rewrite IH. reflexivity.
  - destruct (0 <? length (Report.fail_to_pass row)); [|exact IH].
    exfalso. apply H. exact I.
Qed.

Lemma f2p_instances_counted_witness :
  let obj ftp := VDict [("instance_id", VStr "i"); ("FAIL_TO_PASS", ftp)] in
  let row tests := Report.mk_row "i" tests [] in
  let objs := [obj (VStr "[]"); obj (VList [VNone]); obj (VList [VNone; VStr "t"]); obj VNone;
               obj (VStr EmptyString)] in
  let rows := [row ["[]"]; row []; row ["t"]; row []; row [EmptyString]] in
  let r := Report.mk_report 5 3 (3 # 5) [(1, 3)] [("i", 1); ("i", 1); ("i", 1)] 0 0 in
  Forall2 (fun o row => Rows._parse_row o = Ok row) objs rows /\
  Report.build_report rows 20 = Ok r /\
  Report.f2p_instances r = length (List.filter has_f2p objs).
Proof.
  intros obj row objs rows r.
  assert (H1 : Forall2 (fun o row => Rows._parse_row o = Ok row) objs rows).
  { repeat constructor. }
  assert (H2 : Report.build_report rows 20 = Ok r) by (vm_compute; reflexivity).
  split; [exact H1|]. split; [exact H2|].
  exact (f2p_instances_counted objs rows 20 r H1 H2).
Defined.
